(** * draversal: the pattern-query engine and the tree store

    A shallow embedding of [draversal/DictSearchQuery.py] (flattening,
    pattern matching, the operator table, query execution and
    reconstruction) and of [draversal_mcp/storage.py] ([save_tree]),
    together with the properties stated about them.

    Python values are an inductive type, dictionaries are association
    lists in insertion order (with the update discipline of [dict]),
    exceptions are an explicit error type threaded by a small monad. *)

From Stdlib Require Import String Ascii List ZArith Bool Arith Lia.
Import ListNotations.
Local Open Scope string_scope.
Local Open Scope list_scope.

(* ------------------------------------------------------------------ *)
(** ** Exceptions and the error monad *)

Inductive exn : Type :=
| TypeError | IndexError | KeyError | ValueError | AttributeError | ReError.

Inductive result (A : Type) : Type :=
| Ok (a : A)
| Raise (e : exn).
Arguments Ok {A} a.
Arguments Raise {A} e.

Definition bind {A B : Type} (m : result A) (k : A -> result B) : result B :=
  match m with
  | Ok a => k a
  | Raise e => Raise e
  end.

Notation "x <- m ;; k" := (bind m (fun x => k))
  (at level 61, m at next level, right associativity).

(* ------------------------------------------------------------------ *)
(** ** Python values

    The JSON-like values the engine is run on.  Dictionary keys are
    strings, as in every tree the store holds.  Floating-point numbers
    are not among them: what is proved of every value is proved of every
    value that holds no [float]. *)

#[warnings="-register-all"]
Inductive value : Type :=
| VNone
| VBool (b : bool)
| VInt (n : Z)
| VStr (s : string)
| VList (l : list value)
| VDict (kvs : list (string * value)).

(** A [dict] with string keys, in insertion order. *)
Definition dict (A : Type) : Type := list (string * A).

Definition is_dict (v : value) : bool :=
  match v with VDict _ => true | _ => false end.

Definition is_str (v : value) : bool :=
  match v with VStr _ => true | _ => false end.

(** [type(v).__name__] *)
Definition type_name (v : value) : string :=
  match v with
  | VNone => "NoneType"
  | VBool _ => "bool"
  | VInt _ => "int"
  | VStr _ => "str"
  | VList _ => "list"
  | VDict _ => "dict"
  end.

(* ------------------------------------------------------------------ *)
(** ** Dictionaries *)

Section Dict.
Context {A : Type}.

(** [d.get(k)] *)
Fixpoint dict_get (d : dict A) (k : string) : option A :=
  match d with
  | [] => None
  | (k', v) :: r => if k' =? k then Some v else dict_get r k
  end.

(** [k in d] *)
Definition dict_mem (d : dict A) (k : string) : bool :=
  match dict_get d k with Some _ => true | None => false end.

(** [d[k] = v]: an existing key keeps its position, a new key goes last. *)
Fixpoint dict_set (d : dict A) (k : string) (v : A) : dict A :=
  match d with
  | [] => [(k, v)]
  | (k', v') :: r =>
      if k' =? k then (k', v) :: r else (k', v') :: dict_set r k v
  end.

(** [d.update(e)] *)
Fixpoint dict_update (d e : dict A) : dict A :=
  match e with
  | [] => d
  | (k, v) :: r => dict_update (dict_set d k v) r
  end.

Definition keys (d : dict A) : list string := map fst d.
End Dict.

(* ------------------------------------------------------------------ *)
(** ** Strings

    A Python [str] is held as the bytes of its UTF-8 encoding.  Equality,
    order, concatenation, [startswith], [endswith], [in], [split] and
    [strip] for ASCII characters are the same on the bytes as on the
    characters; [len] and indexing count characters, not bytes. *)

(** A byte [10xxxxxx], which continues a character. *)
Definition is_continuation (c : ascii) : bool :=
  let n := nat_of_ascii c in
  (128 <=? n)%nat && (n <? 192)%nat.

Definition continues (s : string) : bool :=
  match s with
  | String c _ => is_continuation c
  | EmptyString => false
  end.

(** The characters (code points) of [s], each with its bytes. *)
Fixpoint chars (s : string) : list string :=
  match s with
  | EmptyString => []
  | String c r =>
      match chars r with
      | first :: others =>
          if continues r then String c first :: others
          else String c EmptyString :: first :: others
      | [] => [String c EmptyString]
      end
  end.

(** [len(s)] *)
Definition py_len (s : string) : nat := List.length (chars s).

(** Decimal rendering of a list index, as [%s] renders an [int]. *)
Fixpoint digits_of (fuel n : nat) (acc : string) : string :=
  match fuel with
  | O => acc
  | S fuel' =>
      let acc' := String (ascii_of_nat (48 + n mod 10)) acc in
      match n / 10 with
      | O => acc'
      | q => digits_of fuel' q acc'
      end
  end.

Definition str_of_nat (n : nat) : string := digits_of (S n) n "".

(** [c in s] for a one-character [c]. *)
Fixpoint char_in (c : ascii) (s : string) : bool :=
  match s with
  | EmptyString => false
  | String c' s' => Ascii.eqb c c' || char_in c s'
  end.

(** [s.endswith(t)] *)
Definition suffix (t s : string) : bool :=
  let n := String.length s in
  let m := String.length t in
  (m <=? n)%nat && (substring (n - m) m s =? t).

(** [t in s] for strings. *)
Fixpoint substr_in (t s : string) : bool :=
  prefix t s ||
  match s with
  | EmptyString => false
  | String _ s' => substr_in t s'
  end.

(** [s.lstrip(...)], [s.rstrip(...)] and [s.strip(...)], for the set of
    characters [p]. *)
Fixpoint lstrip (p : ascii -> bool) (s : string) : string :=
  match s with
  | EmptyString => EmptyString
  | String c s' => if p c then lstrip p s' else s
  end.

Fixpoint rstrip (p : ascii -> bool) (s : string) : string :=
  match s with
  | EmptyString => EmptyString
  | String c s' =>
      match rstrip p s' with
      | EmptyString => if p c then EmptyString else String c EmptyString
      | r => String c r
      end
  end.

Definition strip (p : ascii -> bool) (s : string) : string :=
  rstrip p (lstrip p s).

(** [int(s)] for a decimal literal: surrounding white space, a sign, digits
    with single underscores between them; anything else is a [ValueError]. *)
Definition is_space (c : ascii) : bool :=
  let n := nat_of_ascii c in
  (n =? 32)%nat || ((9 <=? n)%nat && (n <=? 13)%nat).

Definition digit_val (c : ascii) : option Z :=
  let n := nat_of_ascii c in
  if (48 <=? n)%nat && (n <=? 57)%nat then Some (Z.of_nat (n - 48)) else None.

Fixpoint parse_digits (s : string) (acc : Z) (after_digit : bool) : option Z :=
  match s with
  | EmptyString => if after_digit then Some acc else None
  | String c s' =>
      if Ascii.eqb c "_"
      then (if after_digit then parse_digits s' acc false else None)
      else match digit_val c with
           | Some d => parse_digits s' (10 * acc + d)%Z true
           | None => None
           end
  end.

Definition py_int (s : string) : result Z :=
  let t := strip is_space s in
  let r :=
    match t with
    | String "+" u => parse_digits u 0%Z false
    | String "-" u => option_map Z.opp (parse_digits u 0%Z false)
    | _ => parse_digits t 0%Z false
    end in
  match r with
  | Some n => Ok n
  | None => Raise ValueError
  end.

(** [str(n)] for an [int]. *)
Definition str_of_Z (n : Z) : string :=
  if (n <? 0)%Z then "-" ++ str_of_nat (Z.abs_nat n) else str_of_nat (Z.abs_nat n).

(** The scan behind [s.split(sep)] for a non-empty [sep]: [skip] counts the
    characters of a separator occurrence still to be passed over, [cur] is
    the piece being read. *)
Fixpoint split_go (sep s : string) (skip : nat) (cur : string) : list string :=
  match s with
  | EmptyString => [cur]
  | String c s' =>
      match skip with
      | S n => split_go sep s' n cur
      | O =>
          if prefix sep s
          then cur :: split_go sep s' (String.length sep - 1) EmptyString
          else split_go sep s' 0 (cur ++ String c EmptyString)
      end
  end.

(** [s.split(sep)]; an empty separator is a [ValueError]. *)
Definition py_split (s sep : string) : result (list string) :=
  match sep with
  | EmptyString => Raise ValueError
  | _ => Ok (split_go sep s 0 EmptyString)
  end.

(** [l[:-1]] *)
Definition drop_last {A : Type} (l : list A) : list A := removelast l.

(* ------------------------------------------------------------------ *)
(** ** Flattener ([flatten_dict])

    [list_index_indicator] is a format string applied to the index with
    [%]; it is represented by the function [i |-> list_index_indicator % i].
    The default ['#%s'] is [default_indicator]. *)

Definition default_indicator (i : nat) : string := "#" ++ str_of_nat i.

(** [f"{parent_key}{field_separator}{k}" if parent_key else k] *)
Definition new_key (field_separator parent_key k : string) : string :=
  if parent_key =? "" then k else parent_key ++ field_separator ++ k.

Section Flatten.
Variable field_separator : string.
Variable list_index_indicator : nat -> string.

(** The body of the loop of the inner function [_] for one field whose
    full key is [nk], updating the accumulated [items].  [flatten_fields]
    below is the loop itself; here it is a local fixpoint so that the
    recursion is structural on the value. *)
Fixpoint flatten_value (v : value) (nk : string) (items : dict value)
  {struct v} : dict value :=
  let fields :=
    fix fields (kvs : list (string * value)) (parent_key : string)
        (items : dict value) {struct kvs} : dict value :=
      match kvs with
      | [] => items
      | (k, v') :: r =>
          fields r parent_key
            (flatten_value v' (new_key field_separator parent_key k) items)
      end in
  match v with
  | VDict kvs => dict_update items (fields kvs nk [])
  | VList l =>
      if forallb is_dict l then
        (fix elems (l : list value) (i : nat) (items : dict value)
             {struct l} : dict value :=
           match l with
           | [] => items
           | VDict kvs :: r =>
               elems r (S i)
                 (dict_update items
                    (fields kvs (nk ++ list_index_indicator i)%string []))
           | _ :: r => elems r (S i) items
           end) l 0%nat items
      else dict_set items nk v
  | _ => dict_set items nk v
  end.

(** [for k, v in data.items(): ...] of [_], from the accumulated [items]. *)
Fixpoint flatten_fields (kvs : list (string * value)) (parent_key : string)
  (items : dict value) : dict value :=
  match kvs with
  | [] => items
  | (k, v) :: r =>
      flatten_fields r parent_key
        (flatten_value v (new_key field_separator parent_key k) items)
  end.

(** [for i, elem in enumerate(v): items.update(_(elem, ...))], from index
    [i].  The test [all(isinstance(i, dict) for i in v)] guards the loop,
    so the last branch is never taken. *)
Fixpoint flatten_elems (l : list value) (i : nat) (nk : string)
  (items : dict value) : dict value :=
  match l with
  | [] => items
  | VDict kvs :: r =>
      flatten_elems r (S i) nk
        (dict_update items
           (flatten_fields kvs (nk ++ list_index_indicator i)%string []))
  | _ :: r => flatten_elems r (S i) nk items
  end.

(** The inner function [_(data, parent_key)]. *)
Definition flatten_rec (data : list (string * value)) (parent_key : string)
  : dict value :=
  flatten_fields data parent_key [].

(** [flatten_dict(data, field_separator, list_index_indicator)] *)
Definition flatten_dict (data : list (string * value)) : dict value :=
  flatten_rec data "".
End Flatten.

(* ------------------------------------------------------------------ *)
(** ** Comparisons of Python values *)

(** The number a [bool] or an [int] stands for ([True == 1]). *)
Definition num_of (v : value) : option Z :=
  match v with
  | VBool b => Some (Z.b2z b)
  | VInt n => Some n
  | _ => None
  end.

(** [v == w] *)
Fixpoint py_eq (v w : value) {struct v} : bool :=
  match v, w with
  | VNone, VNone => true
  | VBool a, VBool b => Bool.eqb a b
  | VBool a, VInt n => (Z.b2z a =? n)%Z
  | VInt n, VBool a => (n =? Z.b2z a)%Z
  | VInt a, VInt b => (a =? b)%Z
  | VStr a, VStr b => (a =? b)%string
  | VList l, VList m =>
      (fix all2 (l m : list value) {struct l} : bool :=
         match l, m with
         | [], [] => true
         | x :: l', y :: m' => py_eq x y && all2 l' m'
         | _, _ => false
         end) l m
  | VDict d, VDict e =>
      (List.length d =? List.length e)%nat &&
      (fix sub (d : list (string * value)) {struct d} : bool :=
         match d with
         | [] => true
         | (k, x) :: d' =>
             match dict_get e k with
             | Some y => py_eq x y
             | None => false
             end && sub d'
         end) d
  | _, _ => false
  end.

Inductive order_op : Type := OLt | OLe | OGt | OGe.

Definition order_Z (o : order_op) (a b : Z) : bool :=
  match o with
  | OLt => (a <? b)%Z
  | OLe => (a <=? b)%Z
  | OGt => (b <? a)%Z
  | OGe => (b <=? a)%Z
  end.

Definition order_nat (o : order_op) (a b : nat) : bool :=
  order_Z o (Z.of_nat a) (Z.of_nat b).

Definition order_str (o : order_op) (a b : string) : bool :=
  match o with
  | OLt => String.ltb a b
  | OLe => String.leb a b
  | OGt => String.ltb b a
  | OGe => String.leb b a
  end.

(** [v < w], [v <= w], [v > w], [v >= w]: numbers, strings, and lists
    (decided at the first position where the elements differ); any other
    pairing is a [TypeError]. *)
Fixpoint py_order (o : order_op) (v w : value) {struct v} : result bool :=
  match v, w with
  | VStr a, VStr b => Ok (order_str o a b)
  | VList l, VList m =>
      (fix first_diff (l m : list value) {struct l} : result bool :=
         match l, m with
         | x :: l', y :: m' =>
             if py_eq x y then first_diff l' m' else py_order o x y
         | _, _ => Ok (order_nat o (List.length l) (List.length m))
         end) l m
  | _, _ =>
      match num_of v, num_of w with
      | Some a, Some b => Ok (order_Z o a b)
      | _, _ => Raise TypeError
      end
  end.

(** [x in c] *)
Definition py_in (x c : value) : result bool :=
  match c with
  | VStr s =>
      match x with
      | VStr t => Ok (substr_in t s)
      | _ => Raise TypeError
      end
  | VList l => Ok (existsb (py_eq x) l)
  | VDict d =>
      match x with
      | VStr k => Ok (dict_mem d k)
      | VList _ | VDict _ => Raise TypeError
      | _ => Ok false
      end
  | _ => Raise TypeError
  end.

(* ------------------------------------------------------------------ *)
(** ** Query values and the Python library

    A query value is a value, a callable (for [func]) or a compiled
    pattern (for [regex]).  A callable is represented by the truth value of
    its result, a compiled pattern by the truth value of its [match]. *)

Inductive qvalue : Type :=
| QV (v : value)
| QFunc (f : value -> result bool)
| QPattern (m : string -> bool).

(** What the engine takes from Python's library: [re.compile(p, flags)]
    given as the pattern's [match] (the pattern is looked for at the start
    of the string only, and need not reach its end), or [None] when the
    pattern is rejected with [re.error]; [fnmatch.translate], which turns
    a glob into a pattern closed by the end anchor, so that its [match]
    spans the whole string; object identity; [str] of the objects whose
    rendering is not modelled; and [fmt % i] for a list index. *)
Record pylib : Type := {
  re_compile : bool -> string -> option (string -> bool);
  fnmatch_translate : string -> string;
  py_is : value -> qvalue -> bool;
  py_repr : qvalue -> string;
  py_percent : string -> nat -> string
}.

(** [str(q)] *)
Definition py_str (lib : pylib) (q : qvalue) : string :=
  match q with
  | QV (VStr s) => s
  | QV VNone => "None"
  | QV (VBool true) => "True"
  | QV (VBool false) => "False"
  | QV (VInt n) => str_of_Z n
  | _ => py_repr lib q
  end.

(** [item[k]] for a string [k] *)
Definition getitem_str (item : value) (k : string) : result value :=
  match item with
  | VDict d =>
      match dict_get d k with
      | Some v => Ok v
      | None => Raise KeyError
      end
  | _ => Raise TypeError
  end.

(** The position an integer index denotes in a sequence of length [len]. *)
Definition norm_index (len : nat) (i : Z) : option nat :=
  if ((0 <=? i) && (i <? Z.of_nat len))%Z then Some (Z.to_nat i)
  else if ((- Z.of_nat len <=? i) && (i <? 0))%Z then Some (Z.to_nat (Z.of_nat len + i))
  else None.

(** [item[i]] for an integer [i] *)
Definition getitem_int (item : value) (i : Z) : result value :=
  match item with
  | VList l =>
      match norm_index (List.length l) i with
      | Some n => match nth_error l n with Some v => Ok v | None => Raise IndexError end
      | None => Raise IndexError
      end
  | VStr s =>
      match norm_index (py_len s) i with
      | Some n => match nth_error (chars s) n with
                  | Some c => Ok (VStr c)
                  | None => Raise IndexError
                  end
      | None => Raise IndexError
      end
  | VDict _ => Raise KeyError
  | _ => Raise TypeError
  end.

(* ------------------------------------------------------------------ *)
(** ** Reconstructor ([reconstruct_item]) *)

(** [key_parts[n]] *)
Definition index_list {A : Type} (l : list A) (n : nat) : result A :=
  match nth_error l n with
  | Some a => Ok a
  | None => Raise IndexError
  end.

(** The loop of [reconstruct_item] over the components of the key. *)
Fixpoint reconstruct_loop (ks : list string) (item : value)
  (list_index_indicator : string) : result value :=
  match ks with
  | [] => Ok item
  | key :: r =>
      key_parts <- py_split key list_index_indicator ;;
      key_main <- index_list key_parts 0 ;;
      idx <- (if (1 <? py_len key_main)%nat
              then s <- index_list key_parts 1 ;;
                   n <- py_int s ;;
                   Ok (Some n)
              else Ok None) ;;
      item <- getitem_str item key_main ;;
      item <- match idx with
              | Some n => getitem_int item n
              | None => Ok item
              end ;;
      reconstruct_loop r item list_index_indicator
  end.

(** [reconstruct_item(query_key, item, field_separator, list_index_indicator)];
    the defaults are ['.'] and ['#']. *)
Definition reconstruct_item (query_key : string) (item : value)
  (field_separator list_index_indicator : string) : result value :=
  ks <- py_split query_key field_separator ;;
  reconstruct_loop (drop_last ks) item list_index_indicator.

(* ------------------------------------------------------------------ *)
(** ** Operator table ([DictSearchQuery.OPERATOR_MAP])

    Every operator takes the leaf value [v] and the query value [q]; the
    result is the truth value the caller tests. *)

Definition operator : Type := value -> qvalue -> result bool.

Definition op_eq : operator := fun v q =>
  match q with QV w => Ok (py_eq v w) | _ => Ok false end.

Definition op_ne : operator := fun v q =>
  match q with QV w => Ok (negb (py_eq v w)) | _ => Ok true end.

Definition op_order (o : order_op) : operator := fun v q =>
  match q with QV w => py_order o v w | _ => Raise TypeError end.

(** [lambda v, q: q(v)] *)
Definition op_func : operator := fun v q =>
  match q with QFunc f => f v | _ => Raise TypeError end.

(** [op.contains(v, q)], that is [q in v] *)
Definition op_contains : operator := fun v q =>
  match q with
  | QV w => py_in w v
  | _ => match v with
         | VList _ | VDict _ => Ok false
         | _ => Raise TypeError
         end
  end.

(** [lambda v, q: v in q] *)
Definition op_in : operator := fun v q =>
  match q with QV w => py_in v w | _ => Raise TypeError end.

Section Operators.
Variable lib : pylib.

(** [lambda v, q: v is q] *)
Definition op_is : operator := fun v q => Ok (py_is lib v q).

(** [lambda v, q: type(v).__name__ == str(q)] *)
Definition op_type : operator := fun v q =>
  Ok (type_name v =? py_str lib q).

(** [lambda v, q: True] *)
Definition op_exists : operator := fun _ _ => Ok true.

(** [lambda v, q: re.match((re.compile(q, re.IGNORECASE)
      if q.startswith('(?i)') else re.compile(q))
      if not isinstance(q, re.Pattern) else q, v)]:
    the pattern is obtained first, then [v] is matched. *)
Definition op_regex : operator := fun v q =>
  pat <- match q with
         | QPattern m => Ok m
         | QV (VStr s) =>
             match re_compile lib (prefix "(?i)" s) s with
             | Some m => Ok m
             | None => Raise ReError
             end
         | _ => Raise AttributeError
         end ;;
  match v with
  | VStr s => Ok (pat s)
  | _ => Raise TypeError
  end.

Definition OPERATOR_MAP : dict operator :=
  [ ("eq", op_eq);
    ("ge", op_order OGe);
    ("gt", op_order OGt);
    ("le", op_order OLe);
    ("lt", op_order OLt);
    ("ne", op_ne);
    ("func", op_func);
    ("contains", op_contains);
    ("is", op_is);
    ("in", op_in);
    ("type", op_type);
    ("exists", op_exists);
    ("regex", op_regex) ].
End Operators.

(* ------------------------------------------------------------------ *)
(** ** The query object ([DictSearchQuery]) *)

Record DictSearchQuery : Type := {
  query : dict qvalue;
  support_wildcards : bool;
  support_regex : bool
}.

(** Truth value of a Python value. *)
Definition truthy (v : value) : bool :=
  match v with
  | VNone => false
  | VBool b => b
  | VInt n => negb (n =? 0)%Z
  | VStr s => negb (s =? "")
  | VList l => match l with [] => false | _ => true end
  | VDict d => match d with [] => false | _ => true end
  end.

(** The keyword parameters [__init__(self, query, support_wildcards=True,
    support_regex=True)] accepts besides the positional [query]. *)
Definition init_keywords : list string :=
  ["support_wildcards"; "support_regex"].

(** [DictSearchQuery(query, **kwargs)]: a keyword the signature does not
    have is a [TypeError]; a missing one takes its default. *)
Definition DictSearchQuery_init (q : dict qvalue) (kwargs : dict value)
  : result DictSearchQuery :=
  if forallb (fun k => existsb (String.eqb k) init_keywords) (keys kwargs)
  then Ok {| query := q;
             support_wildcards :=
               match dict_get kwargs "support_wildcards" with
               | Some v => truthy v
               | None => true
               end;
             support_regex :=
               match dict_get kwargs "support_regex" with
               | Some v => truthy v
               | None => true
               end |}
  else Raise TypeError.

(** [a or b] on results: [b] is evaluated only when [a] is false. *)
Definition or_else (a b : result bool) : result bool :=
  x <- a ;; if x then Ok true else b.

(** [a and b] on results: [b] is evaluated only when [a] is true. *)
Definition and_then (a b : result bool) : result bool :=
  x <- a ;; if x then b else Ok false.

Section Matcher.
Variable lib : pylib.
Variable self : DictSearchQuery.

(** [operate(operator, field, data, query)] *)
Definition operate (op field : string) (data : dict value) (q : qvalue)
  : result bool :=
  match dict_get data field with
  | None => Ok false
  | Some v =>
      match dict_get (OPERATOR_MAP lib) op with
      | None => Ok false
      | Some f => f v q
      end
  end.

(** [query_key.startswith("/") and query_key.endswith("/")] *)
Definition is_regex (query_key : string) : bool :=
  prefix "/" query_key && suffix "/" query_key.

(** ['?' in query_key or '*' in query_key or
     ('[' in query_key and ']' in query_key)] *)
Definition is_wildcard (query_key : string) : bool :=
  char_in "?" query_key || char_in "*" query_key ||
  (char_in "[" query_key && char_in "]" query_key).

(** [re.compile(p).match(s)], as a truth value *)
Definition re_match (p s : string) : result bool :=
  match re_compile lib false p with
  | Some m => Ok (m s)
  | None => Raise ReError
  end.

Definition match_regex (query_key new_key : string) : result bool :=
  if support_regex self && is_regex query_key
  then re_match (strip (Ascii.eqb "/") query_key) new_key
  else Ok false.

Definition match_wildcards (query_key new_key : string) : result bool :=
  if support_wildcards self && is_wildcard query_key
  then re_match (fnmatch_translate lib query_key) new_key
  else Ok false.

(** [match(query_key, new_key)] *)
Definition match_ (query_key new_key : string) : result bool :=
  or_else (match_regex query_key new_key)
    (or_else (match_wildcards query_key new_key)
       (Ok (query_key =? new_key))).
End Matcher.

(* ------------------------------------------------------------------ *)
(** ** Query executor ([DictSearchQuery.execute]) *)

(** [s.add(k)] on a set of strings kept as a list without repetition. *)
Definition set_add (k : string) (s : list string) : list string :=
  if existsb (String.eqb k) s then s else (s ++ [k])%list.

Definition subset (a b : list string) : bool :=
  forallb (fun k => existsb (String.eqb k) b) a.

(** [a == b] on sets *)
Definition set_eqb (a b : list string) : bool := subset a b && subset b a.

Section Execute.
Variable lib : pylib.
Variable self : DictSearchQuery.

(** [q_key.split('$')], its first part, and its second part or ['eq'] *)
Definition split_key (q_key : string) : result (string * string) :=
  q_key_parts <- py_split q_key "$" ;;
  q_key_main <- index_list q_key_parts 0 ;;
  q_operator <- (if (1 <? List.length q_key_parts)%nat
                 then index_list q_key_parts 1
                 else Ok "eq") ;;
  Ok (q_key_main, q_operator).

(** The test of the inner loop:
    [self.match(q_key_main, new_key) and
     self.operate(q_operator, new_key, flattened_data, q_value)] *)
Definition hit (q_key_main q_operator : string) (q_value : qvalue)
  (flattened_data : dict value) (new_key : string) : result bool :=
  and_then (match_ lib self q_key_main new_key)
    (operate lib q_operator new_key flattened_data q_value).

(** The state of the two loops: [query_keys_matched] and [matched_fields]. *)
Definition exec_state : Type := (list string * dict value)%type.

(** [for new_key, value in flattened_data.items(): ...] *)
Fixpoint scan_fields (q_key q_key_main q_operator : string)
  (q_value : qvalue) (flattened_data items : dict value) (st : exec_state)
  : result exec_state :=
  match items with
  | [] => Ok st
  | (new_key, v) :: r =>
      b <- hit q_key_main q_operator q_value flattened_data new_key ;;
      scan_fields q_key q_key_main q_operator q_value flattened_data r
        (if b then (set_add q_key (fst st), dict_set (snd st) new_key v)
         else st)
  end.

(** [for q_key, q_value in self.query.items(): ...] *)
Fixpoint scan_query (qs : dict qvalue) (flattened_data : dict value)
  (st : exec_state) : result exec_state :=
  match qs with
  | [] => Ok st
  | (q_key, q_value) :: r =>
      mo <- split_key q_key ;;
      st' <- scan_fields q_key (fst mo) (snd mo) q_value
               flattened_data flattened_data st ;;
      scan_query r flattened_data st'
  end.

(** [execute(data, field_separator, list_index_indicator)] *)
Definition execute (data : list (string * value)) (field_separator : string)
  (list_index_indicator : nat -> string) : result (dict value) :=
  let query_keys := keys (query self) in
  let flattened_data :=
    flatten_dict field_separator list_index_indicator data in
  st <- scan_query (query self) flattened_data ([], []) ;;
  if set_eqb (fst st) query_keys then Ok (snd st) else Ok [].
End Execute.

(* ------------------------------------------------------------------ *)
(** ** The tool layer ([draversal_mcp/tools.py], [dict_search])

    The entry is the loaded tree; [entry_data] is its ["data"]. *)

Record search_response : Type := {
  matched_fields : dict value;
  reconstructed_items : option (list (string * value))
}.

(** [for key in matched_fields: reconstructed_items.append(...)] *)
Fixpoint reconstruct_all (ks : list string) (data : value)
  (field_separator list_index_indicator : string)
  : result (list (string * value)) :=
  match ks with
  | [] => Ok []
  | key :: r =>
      item <- reconstruct_item key data field_separator list_index_indicator ;;
      rest <- reconstruct_all r data field_separator list_index_indicator ;;
      Ok ((key, item) :: rest)
  end.

Definition dict_search (lib : pylib) (entry_data : list (string * value))
  (q : dict qvalue) (support_wildcards support_regex : bool)
  (field_separator list_index_indicator operator_separator : string)
  (reconstruct : bool) : result search_response :=
  dsq <- DictSearchQuery_init q
           [ ("support_wildcards", VBool support_wildcards);
             ("support_regex", VBool support_regex);
             ("field_separator", VStr field_separator);
             ("list_index_indicator", VStr list_index_indicator);
             ("operator_separator", VStr operator_separator) ] ;;
  matched <- execute lib dsq entry_data field_separator
               (py_percent lib list_index_indicator) ;;
  if reconstruct
  then items <- reconstruct_all (keys matched) (VDict entry_data)
                  field_separator list_index_indicator ;;
       Ok {| matched_fields := matched; reconstructed_items := Some items |}
  else Ok {| matched_fields := matched; reconstructed_items := None |}.

(* ------------------------------------------------------------------ *)
(** ** A concrete library instance

    [sample_lib] implements the library on a fragment, enough to run the
    engine on concrete inputs: on ASCII strings, regular expressions made
    of literal characters, escaped characters, [.], and a postfix [*] on
    any of them, with an optional leading [(?i)], or wrapped as
    [(?s:...)\Z] the way [fnmatch.translate] produces them; globs made of
    literal characters, [*] and [?].  A pattern outside the fragment is
    not compiled. *)

Module Sample.

Inductive atom : Type :=
| Any
| Lit (c : ascii).

(** An atom and whether it is starred. *)
Definition item : Type := (atom * bool)%type.

Definition is_alnum (c : ascii) : bool :=
  let n := nat_of_ascii c in
  ((48 <=? n) && (n <=? 57) || (65 <=? n) && (n <=? 90) ||
   (97 <=? n) && (n <=? 122) || (n =? 95))%nat.

Definition is_meta (c : ascii) : bool :=
  char_in c "()[]{}+?|^$*\.".

Definition flush (pending : option atom) (acc : list item) : list item :=
  match pending with
  | Some a => (a, false) :: acc
  | None => acc
  end.

(** Reads the body of a pattern; [acc] holds the items read so far, last
    first, [pending] the atom that a [*] may still follow, [esc] whether
    the previous character was a backslash. *)
Fixpoint parse (s : string) (pending : option atom) (esc : bool)
  (acc : list item) : option (list item) :=
  match s with
  | EmptyString => if esc then None else Some (rev (flush pending acc))
  | String c s' =>
      if esc then
        if is_alnum c then None
        else parse s' (Some (Lit c)) false (flush pending acc)
      else if Ascii.eqb c "\" then parse s' None true (flush pending acc)
      else if Ascii.eqb c "*" then
        match pending with
        | Some a => parse s' None false ((a, true) :: acc)
        | None => None
        end
      else if Ascii.eqb c "." then parse s' (Some Any) false (flush pending acc)
      else if is_meta c then None
      else parse s' (Some (Lit c)) false (flush pending acc)
  end.

Definition lower (c : ascii) : ascii :=
  let n := nat_of_ascii c in
  if ((65 <=? n) && (n <=? 90))%nat then ascii_of_nat (n + 32) else c.

Definition atom_ok (icase dotall : bool) (a : atom) (c : ascii) : bool :=
  match a with
  | Any => dotall || negb (Ascii.eqb c "010")
  | Lit d => if icase then Ascii.eqb (lower d) (lower c) else Ascii.eqb d c
  end.

(** Does a prefix of [s] (the whole of [s] when [full]) match [items]? *)
Fixpoint run (icase dotall full : bool) (items : list item) (s : string)
  {struct items} : bool :=
  match items with
  | [] => if full then (s =? "") else true
  | (a, false) :: r =>
      match s with
      | EmptyString => false
      | String c s' => atom_ok icase dotall a c && run icase dotall full r s'
      end
  | (a, true) :: r =>
      (fix star (s : string) {struct s} : bool :=
         run icase dotall full r s ||
         match s with
         | EmptyString => false
         | String c s' => atom_ok icase dotall a c && star s'
         end) s
  end.

Definition compile (ignorecase : bool) (p : string)
  : option (string -> bool) :=
  if prefix "(?s:" p && suffix ")\Z" p then
    let body := substring 4 (String.length p - 7) p in
    option_map (run ignorecase true true) (parse body None false [])
  else if prefix "(?i)" p then
    let body := substring 4 (String.length p - 4) p in
    option_map (run true false false) (parse body None false [])
  else option_map (run ignorecase false false) (parse p None false []).

(** Does a bracket that has just been opened get closed?  A [!] and then
    a [']'] right after the opening bracket do not close it. *)
Definition closes (s : string) : bool :=
  let s := match s with String "!" r => r | _ => s end in
  let s := match s with String "]" r => r | _ => s end in
  char_in "]" s.

(** [fnmatch.translate] on globs without a character class.  An opening
    bracket that is closed starts a class, which is outside the fragment:
    it is left as it is and the pattern is not compiled. *)
Fixpoint translate_body (s : string) : string :=
  match s with
  | EmptyString => EmptyString
  | String c s' =>
      (if Ascii.eqb c "*" then ".*"
       else if Ascii.eqb c "?" then "."
       else if Ascii.eqb c "[" && closes s' then "["
       else if is_alnum c then String c EmptyString
       else String "\" (String c EmptyString)) ++ translate_body s'
  end.

Definition translate (s : string) : string :=
  "(?s:" ++ translate_body s ++ ")\Z".

(** Identity of the singletons [None], [True] and [False] and of the
    small integers the interpreter keeps one object of. *)
Definition same_object (v : value) (q : qvalue) : bool :=
  match v, q with
  | VNone, QV VNone => true
  | VBool a, QV (VBool b) => Bool.eqb a b
  | VInt a, QV (VInt b) => ((a =? b) && (-5 <=? a) && (a <=? 256))%Z
  | _, _ => false
  end.

(** [fmt % i] for a format with one [%s]. *)
Fixpoint percent (fmt : string) (i : nat) : string :=
  match fmt with
  | EmptyString => EmptyString
  | String c r =>
      if prefix "%s" fmt then str_of_nat i ++ substring 1 (String.length r - 1) r
      else String c (percent r i)
  end.

End Sample.

Definition sample_lib : pylib := {|
  re_compile := Sample.compile;
  fnmatch_translate := Sample.translate;
  py_is := Sample.same_object;
  py_repr := fun _ => "<object>";
  py_percent := Sample.percent
|}.

(* ------------------------------------------------------------------ *)
(** ** The tree store ([draversal_mcp/storage.py], [save_tree])

    A store maps tree ids to entries.  In a directory store every entry is
    a file of its own, in a file store the entries are the members of the
    ["trees"] object of one file; either way the store is a dictionary from
    tree id to the JSON value found there.  The clock and the identifier
    generator are read once per call; their answers are the [env]. *)

Record env : Type := {
  utc_now : string;
  uuid4 : string
}.

(** [_count_nodes(item, children_field)] *)
Fixpoint _count_nodes (item : value) (children_field : string) {struct item}
  : nat :=
  match item with
  | VDict kvs =>
      S ((fix get (kvs : list (string * value)) {struct kvs} : nat :=
            match kvs with
            | [] => O
            | (k, children) :: r =>
                if k =? children_field then
                  match children with
                  | VList l =>
                      (fix total (l : list value) {struct l} : nat :=
                         match l with
                         | [] => O
                         | child :: l' =>
                             (_count_nodes child children_field + total l')%nat
                         end) l
                  | _ => O
                  end
                else get r
            end) kvs)
  | _ => O
  end.

(** [_top_labels(item, children_field, label_field)] *)
Definition _top_labels (item : value) (children_field : string)
  (label_field : option string) : list value :=
  match label_field, item with
  | Some lf, VDict kvs =>
      if lf =? "" then []
      else
        match dict_get kvs children_field with
        | Some (VList l) =>
            flat_map
              (fun child =>
                 match child with
                 | VDict c =>
                     match dict_get c lf with
                     | Some label => [label]
                     | None => []
                     end
                 | _ => []
                 end) l
        | Some _ => []
        | None => []
        end
  | _, _ => []
  end.

Definition opt_str (s : option string) : value :=
  match s with
  | Some x => VStr x
  | None => VNone
  end.

(** [d.get(k, default)] *)
Definition get_default (d : dict value) (k : string) (default : value)
  : value :=
  match dict_get d k with
  | Some v => v
  | None => default
  end.

(** The entry [save_tree] writes. *)
Definition make_entry (tree_id : string) (data : value)
  (children_field : string) (label_field : option string)
  (count : nat) (top_labels : list value) (cursor_path schema created_at : value)
  (now : string) : dict value :=
  [ ("tree_id", VStr tree_id);
    ("data", data);
    ("children_field", VStr children_field);
    ("label_field", opt_str label_field);
    ("count", VInt (Z.of_nat count));
    ("top_labels", VList top_labels);
    ("cursor_path", cursor_path);
    ("schema", schema);
    ("created_at", created_at);
    ("updated_at", VStr now) ].

(** The metadata [save_tree] returns. *)
Definition make_meta (tree_id : string) (count : nat)
  (top_labels : list value) (cursor_path schema created_at : value)
  (now : string) : dict value :=
  [ ("tree_id", VStr tree_id);
    ("created_at", created_at);
    ("updated_at", VStr now);
    ("count", VInt (Z.of_nat count));
    ("top_labels", VList top_labels);
    ("cursor_path", cursor_path);
    ("schema", schema) ].

(** The entry found for [tree_id], if one is used.  A directory store reads
    the entry's file ([_load_tree_entry]: a missing file is the caught
    [KeyError], a file that holds no JSON object a [ValueError]); a file
    store takes [store["trees"].get(tree_id)].  Both then use the entry
    only if it is true, through its [get]. *)
Definition find_existing (is_dir : bool) (store : dict value)
  (tree_id : string) : result (option (dict value)) :=
  match dict_get store tree_id with
  | None => Ok None
  | Some (VDict d) => Ok (match d with [] => None | _ => Some d end)
  | Some v =>
      if is_dir then Raise ValueError
      else if truthy v then Raise AttributeError else Ok None
  end.

(** [save_tree(data, children_field, label_field, tree_id, schema)] on the
    store at the configured path; [schema] is [VNone] for [None].  Returns
    the metadata and the store as written. *)
Definition save_tree (e : env) (is_dir : bool) (data : value)
  (children_field : string) (label_field : option string)
  (tree_id : option string) (schema : value) (store : dict value)
  : result (dict value * dict value) :=
  let now := utc_now e in
  ctx <- match tree_id with
         | None => Ok (uuid4 e, VStr now, VList [], schema)
         | Some t =>
             existing <- find_existing is_dir store t ;;
             match existing with
             | Some ex =>
                 Ok (t,
                     get_default ex "created_at" (VStr now),
                     get_default ex "cursor_path" (VList []),
                     match schema with
                     | VNone => get_default ex "schema" VNone
                     | _ => schema
                     end)
             | None => Ok (t, VStr now, VList [], schema)
             end
         end ;;
  let '(tree_id, created_at, cursor_path, schema) := ctx in
  let count := _count_nodes data children_field in
  let top_labels := _top_labels data children_field label_field in
  let entry := make_entry tree_id data children_field label_field count
                 top_labels cursor_path schema created_at now in
  Ok (make_meta tree_id count top_labels cursor_path schema created_at now,
      dict_set store tree_id (VDict entry)).

(* ------------------------------------------------------------------ *)
(** ** The recursive key scheme, as the specification words it

    A leaf's key is the chain of field names from the root, joined by the
    separator; a list element adds its index suffix to the name of the
    field that holds the list.  [leaves_of v path] lists the leaves below
    the value reached by [path], in traversal order; the leaf map is the
    dictionary these pairs build. *)

Section FlattenSpec.
Variable field_separator : string.
Variable list_index_indicator : nat -> string.

Fixpoint leaves_of (v : value) (path : string) {struct v}
  : list (string * value) :=
  let below :=
    fix below (kvs : list (string * value)) (path : string) {struct kvs}
        : list (string * value) :=
      match kvs with
      | [] => []
      | (k, v') :: r =>
          (leaves_of v' (path ++ field_separator ++ k)%string
             ++ below r path)%list
      end in
  match v with
  | VDict kvs => below kvs path
  | VList l =>
      if forallb is_dict l then
        (fix each (l : list value) (i : nat) {struct l}
             : list (string * value) :=
           match l with
           | [] => []
           | VDict kvs :: r =>
               (below kvs (path ++ list_index_indicator i)%string
                  ++ each r (S i))%list
           | _ :: r => each r (S i)
           end) l 0%nat
      else [(path, v)]
  | _ => [(path, v)]
  end.

(** The leaves of the fields [kvs] of the mapping reached by [path]. *)
Fixpoint leaves_below (kvs : list (string * value)) (path : string)
  : list (string * value) :=
  match kvs with
  | [] => []
  | (k, v) :: r =>
      (leaves_of v (path ++ field_separator ++ k)%string
         ++ leaves_below r path)%list
  end.

(** The leaves of the elements of a list of mappings, from index [i]. *)
Fixpoint leaves_each (l : list value) (i : nat) (path : string)
  : list (string * value) :=
  match l with
  | [] => []
  | VDict kvs :: r =>
      (leaves_below kvs (path ++ list_index_indicator i)%string
         ++ leaves_each r (S i) path)%list
  | _ :: r => leaves_each r (S i) path
  end.

(** The leaves of a whole input: a top-level field starts its own path. *)
Fixpoint leaves_top (data : list (string * value)) : list (string * value) :=
  match data with
  | [] => []
  | (k, v) :: r => (leaves_of v k ++ leaves_top r)%list
  end.

(** [dict(pairs)] *)
Definition dict_of (pairs : list (string * value)) : dict value :=
  dict_update [] pairs.

Definition flatten_spec (data : list (string * value)) : dict value :=
  dict_of (leaves_top data).
End FlattenSpec.

(* ------------------------------------------------------------------ *)
(** ** The executor's contract, stated on the flattened data *)

(** The names of the operator table. *)
Definition known_operators : list string :=
  ["eq"; "ge"; "gt"; "le"; "lt"; "ne"; "func"; "contains"; "is"; "in";
   "type"; "exists"; "regex"].

Section ExecuteSpec.
Variable lib : pylib.
Variable self : DictSearchQuery.
Variable flat : dict value.

(** The test of the pattern-key [q_key], with its expected value, on the
    flat key [new_key]: the key matches the pattern and the value under it
    satisfies the operator. *)
Definition key_test (q_key : string) (q_value : qvalue) (new_key : string)
  : result bool :=
  mo <- split_key q_key ;;
  hit lib self (fst mo) (snd mo) q_value flat new_key.

(** The flat key is kept for some declared pattern-key. *)
Definition selected (new_key : string) : Prop :=
  exists q_key q_value,
    In (q_key, q_value) (query self) /\
    key_test q_key q_value new_key = Ok true.

(** The declared pattern-key found at least one match. *)
Definition found (q_key : string) : Prop :=
  exists q_value k v,
    In (q_key, q_value) (query self) /\ In (k, v) flat /\
    key_test q_key q_value k = Ok true.

Definition all_found : Prop :=
  forall q_key, In q_key (keys (query self)) -> found q_key.

(** No test of a declared pattern-key on a flat key raises. *)
Definition no_raise : Prop :=
  forall q_key q_value k v,
    In (q_key, q_value) (query self) -> In (k, v) flat ->
    exists b, key_test q_key q_value k = Ok b.
End ExecuteSpec.

(** Every pair of [d] is a pair of [flat]. *)
Definition within (flat d : dict value) : Prop :=
  forall k v, In (k, v) d -> In (k, v) flat.

(** The fields of a written entry that come from the call itself. *)
Definition replaced (e : env) (data : value) (cf : string) (lf : option string)
  (entry : dict value) : Prop :=
  dict_get entry "data" = Some data /\
  dict_get entry "children_field" = Some (VStr cf) /\
  dict_get entry "label_field" = Some (opt_str lf) /\
  dict_get entry "count" = Some (VInt (Z.of_nat (_count_nodes data cf))) /\
  dict_get entry "top_labels" = Some (VList (_top_labels data cf lf)) /\
  dict_get entry "updated_at" = Some (VStr (utc_now e)).

(* ------------------------------------------------------------------ *)
(** ** Induction on values *)

Section ValueInd.
Variable P : value -> Prop.
Hypothesis Hnone : P VNone.
Hypothesis Hbool : forall b, P (VBool b).
Hypothesis Hint : forall n, P (VInt n).
Hypothesis Hstr : forall s, P (VStr s).
Hypothesis Hlist : forall l, Forall P l -> P (VList l).
Hypothesis Hdict : forall kvs, Forall (fun kv => P (snd kv)) kvs -> P (VDict kvs).

Fixpoint value_ind_nested (v : value) : P v :=
  match v with
  | VNone => Hnone
  | VBool b => Hbool b
  | VInt n => Hint n
  | VStr s => Hstr s
  | VList l =>
      Hlist l
        ((fix all (l : list value) : Forall P l :=
            match l with
            | [] => Forall_nil _
            | x :: r => Forall_cons x (value_ind_nested x) (all r)
            end) l)
  | VDict kvs =>
      Hdict kvs
        ((fix all (kvs : list (string * value))
            : Forall (fun kv => P (snd kv)) kvs :=
            match kvs with
            | [] => Forall_nil _
            | kv :: r => Forall_cons kv (value_ind_nested (snd kv)) (all r)
            end) kvs)
  end.
End ValueInd.

(* ------------------------------------------------------------------ *)
(** ** Leaves

    What [flatten_dict] stores under a key: anything but a dictionary or a
    list made of dictionaries only (the empty list included). *)

Definition is_leaf (v : value) : bool :=
  match v with
  | VDict _ => false
  | VList l => negb (forallb is_dict l)
  | _ => true
  end.

(** Every value of the dictionary is a leaf. *)
Definition leafy (d : dict value) : Prop :=
  forall k v, In (k, v) d -> is_leaf v = true.

(* ------------------------------------------------------------------ *)
(** ** Relating the ordering operators *)

(** The operator that answers the opposite: [>=] for [<], [<=] for [>]. *)
Definition complement (o : order_op) : order_op :=
  match o with
  | OLt => OGe
  | OGe => OLt
  | OGt => OLe
  | OLe => OGt
  end.

(** The opposite answer, an exception staying what it is. *)
Definition neg_result (m : result bool) : result bool :=
  match m with
  | Ok b => Ok (negb b)
  | Raise e => Raise e
  end.

(** The computation returns (does not raise). *)
Definition returns {A : Type} (m : result A) : bool :=
  match m with Ok _ => true | Raise _ => false end.

(* ------------------------------------------------------------------ *)
(** ** Reading the tree store ([get_tree], [get_cursor], [set_cursor],
       [delete_tree])

    An entry read back from a store is whatever JSON was found, so the
    fields [_with_meta] passes on are values of any kind. *)

(** [del d[k]] *)
Fixpoint dict_del {A : Type} (d : dict A) (k : string) : dict A :=
  match d with
  | [] => []
  | (k', v) :: r => if k' =? k then dict_del r k else (k', v) :: dict_del r k
  end.

(** [{k: v for k, v in d.items() if k not in ks}] *)
Definition dict_without {A : Type} (ks : list string) (d : dict A) : dict A :=
  filter (fun kv => negb (existsb (String.eqb (fst kv)) ks)) d.

Definition is_none (v : value) : bool :=
  match v with VNone => true | _ => false end.

(** [d.get(k, default)] for a key [k] of any kind: only a string can be a
    key of [d]; a list or a dictionary cannot be hashed. *)
Definition get_any (d : dict value) (k default : value) : result value :=
  match k with
  | VStr s => Ok (get_default d s default)
  | VList _ | VDict _ => Raise TypeError
  | _ => Ok default
  end.

(** [_count_nodes(item, children_field)] for a [children_field] of any
    kind. *)
Definition count_nodes_any (item children_field : value) : result nat :=
  match children_field with
  | VStr s => Ok (_count_nodes item s)
  | VList _ | VDict _ => if is_dict item then Raise TypeError else Ok O
  | _ => Ok (if is_dict item then 1%nat else O)
  end.

(** [[child[label_field] for child in children
      if isinstance(child, dict) and label_field in child]] *)
Fixpoint labels_of (children : list value) (label_field : value)
  : result (list value) :=
  match children with
  | [] => Ok []
  | VDict c :: r =>
      here <- match label_field with
              | VStr lf => Ok (match dict_get c lf with
                               | Some label => [label]
                               | None => []
                               end)
              | VList _ | VDict _ => Raise TypeError
              | _ => Ok []
              end ;;
      rest <- labels_of r label_field ;;
      Ok (here ++ rest)%list
  | _ :: r => labels_of r label_field
  end.

(** [_top_labels(item, children_field, label_field)] for fields of any
    kind. *)
Definition top_labels_any (item children_field label_field : value)
  : result (list value) :=
  match item with
  | VDict kvs =>
      if truthy label_field then
        children <- get_any kvs children_field (VList []) ;;
        match children with
        | VList l => labels_of l label_field
        | _ => Ok []
        end
      else Ok []
  | _ => Ok []
  end.

(** [_with_meta(entry)] *)
Definition _with_meta (entry : dict value) : result (dict value) :=
  let data := get_default entry "data" VNone in
  let children_field := get_default entry "children_field" VNone in
  let label_field := get_default entry "label_field" VNone in
  let count := get_default entry "count" VNone in
  let top_labels := get_default entry "top_labels" VNone in
  ct <- (if negb (is_none data) && truthy children_field then
           count <- (if is_none count
                     then n <- count_nodes_any data children_field ;;
                          Ok (VInt (Z.of_nat n))
                     else Ok count) ;;
           top_labels <- (if is_none top_labels
                          then l <- top_labels_any data children_field
                                      label_field ;;
                               Ok (VList l)
                          else Ok top_labels) ;;
           Ok (count, top_labels)
         else Ok (count, top_labels)) ;;
  let hydrated := entry in
  let hydrated := if is_none (fst ct) then hydrated
                  else dict_set hydrated "count" (fst ct) in
  let hydrated := if is_none (snd ct) then hydrated
                  else dict_set hydrated "top_labels" (snd ct) in
  Ok hydrated.

(** The entry stored under [tree_id], for a caller that goes on to use it
    as a dictionary.  A directory store reads the entry's file: a missing
    file is a [KeyError], a file without a JSON object a [ValueError].  A
    file store takes [store["trees"].get(tree_id)] and raises [KeyError]
    when it is false; what is true but no dictionary fails at its first
    use, with [bad]. *)
Definition load_entry (is_dir : bool) (bad : exn) (store : dict value)
  (tree_id : string) : result (dict value) :=
  match dict_get store tree_id with
  | None => Raise KeyError
  | Some (VDict d) =>
      if is_dir then Ok d
      else match d with [] => Raise KeyError | _ => Ok d end
  | Some v =>
      if is_dir then Raise ValueError
      else if truthy v then Raise bad else Raise KeyError
  end.

(** [get_tree(tree_id, include_data)] *)
Definition get_tree (is_dir : bool) (store : dict value) (tree_id : string)
  (include_data : bool) : result (dict value) :=
  entry <- load_entry is_dir AttributeError store tree_id ;;
  entry <- _with_meta entry ;;
  if include_data then Ok entry else Ok (dict_without ["data"] entry).

(** [get_cursor(tree_id)] *)
Definition get_cursor (is_dir : bool) (store : dict value) (tree_id : string)
  : result value :=
  entry <- load_entry is_dir AttributeError store tree_id ;;
  Ok (get_default entry "cursor_path" (VList [])).

(** [set_cursor(tree_id, cursor_path)]: the answer and the store as
    written. *)
Definition set_cursor (is_dir : bool) (store : dict value) (tree_id : string)
  (cursor_path : value) : result (dict value * dict value) :=
  entry <- load_entry is_dir TypeError store tree_id ;;
  Ok ([("tree_id", VStr tree_id); ("cursor_path", cursor_path)],
      dict_set store tree_id (VDict (dict_set entry "cursor_path" cursor_path))).

(** [delete_tree(tree_id)]: the answer and the store left. *)
Definition delete_tree (store : dict value) (tree_id : string)
  : dict value * dict value :=
  if dict_mem store tree_id
  then ([("deleted", VBool true); ("tree_id", VStr tree_id)],
        dict_del store tree_id)
  else ([("deleted", VBool false); ("tree_id", VStr tree_id)], store).

(** The id under which [save_tree] stores the entry. *)
Definition saved_id (e : env) (tree_id : option string) : string :=
  match tree_id with
  | Some t => t
  | None => uuid4 e
  end.

(* ------------------------------------------------------------------ *)
(** ** Schema normalisation ([draversal_mcp/tools.py],
       [_normalize_schema]) *)

Definition default_schema_uri : string :=
  "https://json-schema.org/draft/2020-12/schema".

(** [{"type": "array", "items": {"$ref": "#"}}] *)
Definition children_schema : value :=
  VDict [("type", VStr "array"); ("items", VDict [("$ref", VStr "#")])].

(** [_normalize_schema(schema, children_field)], on the copy it makes of
    [schema]. *)
Definition _normalize_schema (schema : dict value) (children_field : string)
  : result (dict value) :=
  let normalized := schema in
  let normalized :=
    if dict_mem normalized "$schema" then normalized
    else dict_set normalized "$schema" (VStr default_schema_uri) in
  let normalized :=
    match dict_get normalized "allow_additional" with
    | Some allow =>
        if dict_mem normalized "additionalProperties"
        then dict_del normalized "allow_additional"
        else dict_set (dict_del normalized "allow_additional")
               "additionalProperties" allow
    | None => normalized
    end in
  let normalized :=
    if dict_mem normalized "properties" then normalized
    else dict_set normalized "properties" (VDict []) in
  let properties := get_default normalized "properties" (VDict []) in
  present <- py_in (VStr children_field) properties ;;
  if present then Ok normalized
  else match properties with
       | VDict p =>
           Ok (dict_set normalized "properties"
                 (VDict (dict_set p children_field children_schema)))
       | _ => Raise TypeError
       end.

(** A schema [_normalize_schema] has nothing to do on. *)
Definition normal_schema (n : dict value) (children_field : string) : Prop :=
  dict_mem n "$schema" = true /\
  dict_get n "allow_additional" = None /\
  exists properties,
    dict_get n "properties" = Some properties /\
    py_in (VStr children_field) properties = Ok true.

(* ------------------------------------------------------------------ *)
(** ** Store maintenance ([draversal_mcp/cli.py]) and the loaders it uses
       ([draversal_mcp/storage.py], [_load_store], [_load_tree_file])

    A file is what [path.read_text()] and [json.loads] make of it: blank
    text, a failure with the message of its exception, or the value
    parsed.  What [_write_store] writes is read back as the value
    written. *)

Inductive file_content : Type :=
| Blank
| Unreadable (message : string)
| Parsed (v : value).

(** What a loader gives: the dictionary, or the message of the exception
    it raises. *)
Inductive loaded : Type :=
| Loaded (data : dict value)
| LoadError (message : string).

(** [d.setdefault(k, v)], the dictionary afterwards *)
Definition setdefault (d : dict value) (k : string) (v : value)
  : dict value :=
  if dict_mem d k then d else dict_set d k v.

(** [_load_store(path)]; [None] is a path at which nothing exists. *)
Definition _load_store (file : option file_content) : loaded :=
  match file with
  | None => Loaded [("version", VInt 1); ("trees", VDict [])]
  | Some Blank => Loaded [("version", VInt 1); ("trees", VDict [])]
  | Some (Unreadable message) => LoadError message
  | Some (Parsed (VDict data)) =>
      let data := setdefault data "version" (VInt 1) in
      let data := setdefault data "trees" (VDict []) in
      match dict_get data "trees" with
      | Some (VDict _) => Loaded data
      | Some _ => LoadError "Tree store 'trees' must be an object."
      | None => LoadError "'trees'"
      end
  | Some (Parsed _) => LoadError "Tree store must be a JSON object."
  end.


(** [not isinstance(entry, dict) or "tree_id" not in entry] *)
Definition lacks_tree_id (entry : value) : bool :=
  match entry with
  | VDict d => negb (dict_mem d "tree_id")
  | _ => true
  end.

(** The loop of [_validate_file_store] over [trees.items()]: the errors
    appended, in order. *)
Fixpoint entry_errors (items : dict value) : list value :=
  match items with
  | [] => []
  | (tree_id, entry) :: r =>
      if negb (is_dict entry)
      then VDict [("tree_id", VStr tree_id);
                  ("error", VStr "Entry is not an object")]
           :: entry_errors r
      else if lacks_tree_id entry
      then VDict [("tree_id", VStr tree_id);
                  ("error", VStr "Missing tree_id")]
           :: entry_errors r
      else entry_errors r
  end.

(** [_validate_file_store(path)], for the file at [path]. *)
Definition _validate_file_store (path : string) (file : option file_content)
  : result (dict value) :=
  match _load_store file with
  | LoadError message =>
      Ok [("store_path", VStr path); ("mode", VStr "file");
          ("tree_count", VInt 0);
          ("errors", VList [VDict [("path", VStr path);
                                   ("error", VStr message)]])]
  | Loaded store =>
      match get_default store "trees" (VDict []) with
      | VDict trees =>
          Ok [("store_path", VStr path); ("mode", VStr "file");
              ("tree_count", VInt (Z.of_nat (List.length trees)));
              ("errors", VList (entry_errors trees))]
      | VList _ | VStr _ => Raise AttributeError
      | _ => Raise TypeError
      end
  end.

(** The first loop of [_prune_file_store]: [to_delete]. *)
Fixpoint to_delete_of (items : dict value) : list string :=
  match items with
  | [] => []
  | (tree_id, entry) :: r =>
      if lacks_tree_id entry then tree_id :: to_delete_of r
      else to_delete_of r
  end.

(** [_prune_file_store(path)]: the report and the file afterwards. *)
Definition _prune_file_store (path : string) (file : option file_content)
  : result (dict value * option file_content) :=
  match _load_store file with
  | LoadError message =>
      Ok ([("store_path", VStr path); ("mode", VStr "file");
           ("removed_entries", VInt 0);
           ("errors", VList [VDict [("path", VStr path);
                                    ("error", VStr message)]])],
          file)
  | Loaded store =>
      match get_default store "trees" (VDict []) with
      | VDict trees =>
          let to_delete := to_delete_of trees in
          let trees := fold_left dict_del to_delete trees in
          Ok ([("store_path", VStr path); ("mode", VStr "file");
               ("removed_entries", VInt (Z.of_nat (List.length to_delete)));
               ("errors", VList [])],
              match to_delete with
              | [] => file
              | _ => Some (Parsed (VDict (dict_set store "trees"
                                            (VDict trees))))
              end)
      | VList _ | VStr _ => Raise AttributeError
      | _ => Raise TypeError
      end
  end.






(* ------------------------------------------------------------------ *)
(** ** Saving through the tool layer ([draversal_mcp/tools.py],
       [save_tree])

    The two validators, [validate_data] of the traversal library and
    [_validate_tree_schema] over [jsonschema], are taken as given: each
    returns or raises. *)

Module tools.
Section SaveTree.
Variable validate_data : value -> string -> option string -> result unit.
Variable _validate_tree_schema : value -> string -> value -> result unit.

(** [save_tree(data, children_field, label_field, tree_id, validate,
    schema)]; [schema] is [VNone] for [None]. *)
Definition save_tree (e : env) (is_dir : bool) (data : value)
  (children_field : string) (label_field : option string)
  (tree_id : option string) (validate : bool) (schema : value)
  (store : dict value) : result (dict value * dict value) :=
  let schema_to_use := schema in
  schema_to_use <-
    match tree_id with
    | Some t =>
        if negb (t =? "") && is_none schema_to_use
        then match get_tree is_dir store t true with
             | Ok entry => Ok (get_default entry "schema" VNone)
             | Raise KeyError => Ok VNone
             | Raise err => Raise err
             end
        else Ok schema_to_use
    | None => Ok schema_to_use
    end ;;
  _ <- (if validate
        then _ <- validate_data data children_field label_field ;;
             _validate_tree_schema data children_field schema_to_use
        else Ok tt) ;;
  save_tree e is_dir data children_field label_field tree_id schema_to_use
    store.
End SaveTree.
End tools.

(* ================================================================== *)
(** * Properties *)

(** ** Dictionaries *)

Section DictFacts.
Context {A : Type}.
Implicit Types (d e : dict A) (k : string) (v : A).

Lemma dict_get_set_same d k v : dict_get (dict_set d k v) k = Some v.
Proof.
  induction d as [|[k' v'] r IH]; simpl.
  - now rewrite String.eqb_refl.
  - destruct (k' =? k) eqn:E; simpl; rewrite E; auto.
Qed.

Lemma dict_get_set_other d k k' v :
  k <> k' -> dict_get (dict_set d k v) k' = dict_get d k'.
Proof.
  intros Hne. assert (Hb : (k =? k') = false) by now apply String.eqb_neq.
  induction d as [|[k0 v0] r IH]; simpl.
  - now rewrite Hb.
  - destruct (k0 =? k) eqn:E; simpl.
    + apply String.eqb_eq in E. subst k0. now rewrite Hb.
    + now rewrite IH.
Qed.

Lemma dict_get_set d k k' v :
  dict_get (dict_set d k v) k' = if k =? k' then Some v else dict_get d k'.
Proof.
  destruct (k =? k') eqn:E.
  - apply String.eqb_eq in E. subst. apply dict_get_set_same.
  - apply String.eqb_neq in E. now apply dict_get_set_other.
Qed.

Lemma keys_set_in d k v k' :
  In k' (keys (dict_set d k v)) <-> k' = k \/ In k' (keys d).
Proof.
  unfold keys. induction d as [|[k0 v0] r IH]; simpl.
  - intuition auto.
  - destruct (k0 =? k) eqn:E; simpl.
    + apply String.eqb_eq in E. subst. intuition auto.
    + rewrite IH. intuition auto.
Qed.

Lemma keys_set_nodup d k v : NoDup (keys d) -> NoDup (keys (dict_set d k v)).
Proof.
  unfold keys. induction d as [|[k0 v0] r IH]; simpl; intros H.
  - constructor; [intros [] | constructor].
  - inversion H as [|? ? Hn Hr]; subst.
    destruct (k0 =? k) eqn:E; simpl.
    + constructor; assumption.
    + constructor; [| now apply IH].
      intros Hin. apply (keys_set_in r k v k0) in Hin.
      destruct Hin as [->|Hin]; [|contradiction].
      now rewrite String.eqb_refl in E.
Qed.

Lemma keys_update_nodup e : forall d,
  NoDup (keys d) -> NoDup (keys (dict_update d e)).
Proof.
  induction e as [|[k v] r IH]; simpl; intros d H; auto.
  apply IH. now apply keys_set_nodup.
Qed.

Lemma dict_update_app e1 e2 : forall d,
  dict_update d (e1 ++ e2)%list = dict_update (dict_update d e1) e2.
Proof.
  induction e1 as [|[k v] r IH]; simpl; intros d; auto.
Qed.

Lemma dict_get_in d k v : NoDup (keys d) -> In (k, v) d -> dict_get d k = Some v.
Proof.
  unfold keys. induction d as [|[k0 v0] r IH]; simpl; intros Hnd Hin; [easy|].
  inversion Hnd as [|? ? Hn Hr]; subst.
  destruct Hin as [Heq|Hin].
  - inversion Heq; subst. now rewrite String.eqb_refl.
  - destruct (k0 =? k) eqn:E.
    + apply String.eqb_eq in E. subst. exfalso. apply Hn.
      change k with (fst (k, v)). now apply in_map.
    + now apply IH.
Qed.

Lemma dict_get_some_in d k v : dict_get d k = Some v -> In (k, v) d.
Proof.
  induction d as [|[k0 v0] r IH]; simpl; [easy|].
  destruct (k0 =? k) eqn:E; intros H.
  - apply String.eqb_eq in E. inversion H; subst. now left.
  - right. now apply IH.
Qed.

Lemma dict_get_none d k : dict_get d k = None <-> ~ In k (keys d).
Proof.
  unfold keys. induction d as [|[k0 v0] r IH]; simpl; [intuition auto|].
  destruct (k0 =? k) eqn:E.
  - apply String.eqb_eq in E. subst. split; [easy|]. intros H. exfalso. auto.
  - apply String.eqb_neq in E. rewrite IH. intuition auto.
Qed.

(** Assigning twice to a key keeps the second value. *)
Lemma dict_set_twice d k v v' : dict_set (dict_set d k v) k v' = dict_set d k v'.
Proof.
  induction d as [|[k0 v0] r IH]; simpl.
  - now rewrite String.eqb_refl.
  - destruct (k0 =? k) eqn:E; simpl; rewrite E; [reflexivity | now rewrite IH].
Qed.

(** Assigning to a key already present commutes with assigning to another. *)
Lemma dict_set_swap d k v k' v' :
  In k (keys d) -> k <> k' ->
  dict_set (dict_set d k' v') k v = dict_set (dict_set d k v) k' v'.
Proof.
  unfold keys. intros Hin Hne.
  induction d as [|[k0 v0] r IH]; simpl in *; [easy|].
  destruct (k0 =? k') eqn:E1; destruct (k0 =? k) eqn:E2; simpl;
    rewrite ?E1, ?E2; try reflexivity.
  - apply String.eqb_eq in E1, E2. congruence.
  - f_equal. apply IH. destruct Hin as [->|Hin]; [|assumption].
    now rewrite String.eqb_refl in E2.
Qed.

Lemma dict_set_update_swap e : forall d k v,
  In k (keys d) -> ~ In k (keys e) ->
  dict_set (dict_update d e) k v = dict_update (dict_set d k v) e.
Proof.
  induction e as [|[k0 v0] r IH]; simpl; intros d k v Hin Hout; [reflexivity|].
  assert (Hne : k <> k0) by (intros ->; apply Hout; now left).
  rewrite IH.
  - now rewrite dict_set_swap.
  - apply keys_set_in. now right.
  - intros H. apply Hout. now right.
Qed.

(** Updating with a dictionary in which one value is reassigned. *)
Lemma dict_update_set e : forall d k v,
  NoDup (keys e) ->
  dict_update d (dict_set e k v) = dict_set (dict_update d e) k v.
Proof.
  induction e as [|[k0 v0] r IH]; simpl; intros d k v Hnd; [reflexivity|].
  inversion Hnd as [|? ? Hn Hr]; subst.
  destruct (k0 =? k) eqn:E; simpl.
  - apply String.eqb_eq in E. subst k0.
    rewrite dict_set_update_swap.
    + now rewrite dict_set_twice.
    + apply keys_set_in. now left.
    + exact Hn.
  - now apply IH.
Qed.

(** Updating with the dictionary built from pairs is updating with the
    pairs one by one. *)
Lemma dict_update_update e : forall d d',
  NoDup (keys d') ->
  dict_update d (dict_update d' e) = dict_update (dict_update d d') e.
Proof.
  induction e as [|[k v] r IH]; simpl; intros d d' Hnd; [reflexivity|].
  rewrite IH by now apply keys_set_nodup.
  now rewrite dict_update_set.
Qed.
End DictFacts.

(** ** The flattener *)

Section FlattenFacts.
Variable sep : string.
Variable ind : nat -> string.

Lemma flatten_value_dict kvs nk items :
  flatten_value sep ind (VDict kvs) nk items
  = dict_update items (flatten_rec sep ind kvs nk).
Proof.
  reflexivity.
Qed.

Lemma flatten_value_list l nk items :
  flatten_value sep ind (VList l) nk items
  = if forallb is_dict l then flatten_elems sep ind l 0 nk items
    else dict_set items nk (VList l).
Proof.
  simpl. destruct (forallb is_dict l); [|reflexivity].
  generalize 0%nat as i. revert items.
  induction l as [|x r IH]; intros items i; simpl; [reflexivity|].
  destruct x; apply IH.
Qed.

Lemma leaves_of_dict kvs path :
  leaves_of sep ind (VDict kvs) path = leaves_below sep ind kvs path.
Proof.
  reflexivity.
Qed.

Lemma leaves_of_list l path :
  leaves_of sep ind (VList l) path
  = if forallb is_dict l then leaves_each sep ind l 0 path
    else [(path, VList l)].
Proof.
  simpl. destruct (forallb is_dict l); [|reflexivity].
  generalize 0%nat as i.
  induction l as [|x r IH]; intros i; simpl; [reflexivity|].
  destruct x; try apply IH.
  f_equal. apply IH.
Qed.

(** The flattener keeps the keys of the accumulated dictionary distinct. *)
Lemma flatten_value_nodup v : forall nk items,
  NoDup (keys items) -> NoDup (keys (flatten_value sep ind v nk items)).
Proof.
  intros nk items H. destruct v;
    try (simpl; now apply keys_set_nodup).
  - rewrite flatten_value_list. destruct (forallb is_dict l).
    + revert items H. generalize 0%nat as i.
      induction l as [|x r IH]; intros i items H; simpl; [assumption|].
      destruct x; try (now apply IH).
      apply IH. now apply keys_update_nodup.
    + now apply keys_set_nodup.
  - rewrite flatten_value_dict. now apply keys_update_nodup.
Qed.

Lemma flatten_fields_nodup kvs : forall parent items,
  NoDup (keys items) -> NoDup (keys (flatten_fields sep ind kvs parent items)).
Proof.
  induction kvs as [|[k v] r IH]; intros parent items H; simpl; [assumption|].
  apply IH. now apply flatten_value_nodup.
Qed.

Lemma flatten_dict_nodup data : NoDup (keys (flatten_dict sep ind data)).
Proof. apply flatten_fields_nodup. constructor. Qed.

Lemma new_key_nonempty parent k :
  parent <> "" -> new_key sep parent k = (parent ++ sep ++ k)%string.
Proof.
  intros H. unfold new_key. apply String.eqb_neq in H. now rewrite H.
Qed.

Lemma append_nonempty (a b : string) : a <> "" -> (a ++ b)%string <> "".
Proof. destruct a; [easy|]. intros _. simpl. discriminate. Qed.

(** Below a non-empty key the flattener adds, one by one, the leaves the
    recursive scheme lists. *)
Lemma flatten_value_leaves v : forall nk items,
  nk <> "" ->
  flatten_value sep ind v nk items
  = dict_update items (leaves_of sep ind v nk).
Proof.
  induction v as [| b | n | s | l IHl | kvs IHd] using value_ind_nested;
    intros nk items Hnk; try reflexivity.
  - rewrite flatten_value_list, leaves_of_list.
    destruct (forallb is_dict l); [|reflexivity].
    revert items. generalize 0%nat as i.
    induction l as [|x r IH]; intros i items; simpl; [reflexivity|].
    inversion IHl as [|? ? Hx Hr]; subst.
    destruct x; try (now apply IH).
    rewrite (IH Hr), dict_update_app. f_equal.
    change (flatten_value sep ind (VDict kvs) (nk ++ ind i) items
            = dict_update items (leaves_of sep ind (VDict kvs) (nk ++ ind i))).
    apply Hx. now apply append_nonempty.
  - rewrite flatten_value_dict, leaves_of_dict.
    unfold flatten_rec.
    assert (G : forall acc, flatten_fields sep ind kvs nk acc
                = dict_update acc (leaves_below sep ind kvs nk)).
    { induction kvs as [|[k v] r IH]; intros acc; simpl; [reflexivity|].
      inversion IHd as [|? ? Hx Hr]; subst. simpl in Hx.
      rewrite (IH Hr), dict_update_app, new_key_nonempty by assumption.
      f_equal. apply Hx. now apply append_nonempty. }
    rewrite G.
    apply dict_update_update. constructor.
Qed.
End FlattenFacts.

Section FlattenClaims.
Variable sep : string.
Variable ind : nat -> string.

Lemma flatten_fields_app a : forall b parent items,
  flatten_fields sep ind (a ++ b)%list parent items
  = flatten_fields sep ind b parent (flatten_fields sep ind a parent items).
Proof.
  induction a as [|[k v] r IH]; intros b parent items; simpl; [reflexivity|].
  apply IH.
Qed.

Lemma flatten_fields_leaves data : forall items,
  Forall (fun kv => fst kv <> "") data ->
  flatten_fields sep ind data "" items
  = dict_update items (leaves_top sep ind data).
Proof.
  induction data as [|[k v] r IH]; intros items H; simpl; [reflexivity|].
  inversion H as [|? ? Hk Hr]; subst. simpl in Hk.
  rewrite (IH _ Hr), dict_update_app. f_equal.
  unfold new_key. simpl. now apply flatten_value_leaves.
Qed.

(** X4. When no top-level field has the empty name, [flatten_dict] builds
    exactly the leaf map of the recursive key scheme, order included: the
    dictionary made from the leaves in traversal order, each under the
    field names from the root joined by the separator, a list element
    adding its index suffix to the name of the field holding the list. *)
Lemma flatten_dict_leaf_map data :
  Forall (fun kv => fst kv <> "") data ->
  flatten_dict sep ind data = flatten_spec sep ind data.
Proof.
  intros H. unfold flatten_dict, flatten_rec, flatten_spec, dict_of.
  now apply flatten_fields_leaves.
Qed.

(** C8. A field whose value is an empty dictionary or an empty list adds
    no key: the step for such a field leaves the accumulated dictionary as
    it is, at any depth; removing the field from the input does not change
    the output; and [flatten_dict({'a': {}})] and [flatten_dict({'a': []})]
    are both empty although the input is not. *)
Theorem flatten_empty_containers :
  (forall nk items,
      flatten_value sep ind (VDict []) nk items = items /\
      flatten_value sep ind (VList []) nk items = items) /\
  (forall pre k post,
      flatten_dict sep ind (pre ++ (k, VDict []) :: post)%list
      = flatten_dict sep ind (pre ++ post)%list /\
      flatten_dict sep ind (pre ++ (k, VList []) :: post)%list
      = flatten_dict sep ind (pre ++ post)%list) /\
  flatten_dict sep ind [("a", VDict [])] = [] /\
  flatten_dict sep ind [("a", VList [])] = [].
Proof.
  split; [|split; [|split]]; try reflexivity.
  - intros nk items. split; reflexivity.
  - intros pre k post. unfold flatten_dict, flatten_rec.
    rewrite !flatten_fields_app. split; reflexivity.
Qed.
End FlattenClaims.

(** C7. At a top-level field named with the empty string, [flatten_dict]
    leaves the separator out: the leaf of [{'': {'a': 1}}] is stored under
    ['a'], where the recursive key scheme (parent, separator, field) gives
    ['.a']; with a second top-level field ['a'] the two leaves collide and
    one is lost. *)
Theorem flatten_dict_empty_name :
  flatten_dict "." default_indicator [("", VDict [("a", VInt 1)])]
  = [("a", VInt 1)] /\
  flatten_spec "." default_indicator [("", VDict [("a", VInt 1)])]
  = [(".a", VInt 1)] /\
  flatten_dict "." default_indicator
    [("", VDict [("a", VInt 1)]); ("a", VInt 2)]
  = [("a", VInt 2)] /\
  flatten_spec "." default_indicator
    [("", VDict [("a", VInt 1)]); ("a", VInt 2)]
  = [(".a", VInt 1); ("a", VInt 2)].
Proof. repeat split; reflexivity. Qed.

(** The docstring's example of [flatten_dict]. *)
Example flatten_dict_docstring :
  flatten_dict "." default_indicator
    [("a", VDict [("b", VDict [("c", VInt 1)])]);
     ("d", VList [VDict [("e", VInt 2)]; VDict [("f", VInt 3)]])]
  = [("a.b.c", VInt 1); ("d#0.e", VInt 2); ("d#1.f", VInt 3)].
Proof. reflexivity. Qed.

(** ** The reconstructor *)

(** C2. [reconstruct_item] takes the index of a key component when the
    field name is longer than one character, not when the component has an
    index: for the key ['ab.c'] of [{'ab': {'c': 1}}] it raises
    [IndexError], and for the key ['d#0.e'] of [{'d': [{'e': 2}]}] it
    returns the list held by ['d'], not the dictionary that holds ['e'].
    Both keys are produced by [flatten_dict]. *)
Theorem reconstruct_item_index_test :
  In "ab.c" (keys (flatten_dict "." default_indicator
                     [("ab", VDict [("c", VInt 1)])])) /\
  reconstruct_item "ab.c" (VDict [("ab", VDict [("c", VInt 1)])]) "." "#"
  = Raise IndexError /\
  In "d#0.e" (keys (flatten_dict "." default_indicator
                      [("d", VList [VDict [("e", VInt 2)]])])) /\
  reconstruct_item "d#0.e" (VDict [("d", VList [VDict [("e", VInt 2)]])])
    "." "#"
  = Ok (VList [VDict [("e", VInt 2)]]).
Proof. repeat split; try reflexivity; simpl; auto. Qed.

(** Where the test happens to agree with the shape of the key, the
    container is found: one-character names of dictionaries, longer names
    of lists. *)
Example reconstruct_item_found :
  reconstruct_item "a.b.c"
    (VDict [("a", VDict [("b", VDict [("c", VInt 1)])])]) "." "#"
  = Ok (VDict [("c", VInt 1)]) /\
  reconstruct_item "sections#1.title"
    (VDict [("sections", VList [VDict [("title", VStr "Child 1")];
                                VDict [("title", VStr "Child 2")]])]) "." "#"
  = Ok (VDict [("title", VStr "Child 2")]).
Proof. split; reflexivity. Qed.

(** ** The pattern matcher *)

Section MatcherFacts.
Variable lib : pylib.
Variable self : DictSearchQuery.

(** A pattern without [/], [?], [*] and brackets is compared literally,
    whatever the library and the flags. *)
Lemma match_plain q k :
  prefix "/" q = false -> is_wildcard q = false ->
  match_ lib self q k = Ok (q =? k).
Proof.
  intros Hr Hw. unfold match_, match_regex, match_wildcards, is_regex.
  rewrite Hr, Hw, andb_false_l, !andb_false_r. reflexivity.
Qed.

End MatcherFacts.

(** The three classifiers on the sample library: a regex matches at the
    start of the key, a glob has to match all of it, a plain pattern is
    compared literally; with a classifier switched off, a pattern of its
    shape goes to the next one. *)
Example match_samples :
  let on := {| query := []; support_wildcards := true; support_regex := true |} in
  let no_regex := {| query := []; support_wildcards := true; support_regex := false |} in
  let no_glob := {| query := []; support_wildcards := false; support_regex := true |} in
  match_ sample_lib on "/a.c/" "abcd" = Ok true /\
  match_ sample_lib on "/b/" "abcd" = Ok false /\
  match_ sample_lib on "a*c" "abcd" = Ok false /\
  match_ sample_lib on "a*d" "abcd" = Ok true /\
  match_ sample_lib on "abcd" "abcd" = Ok true /\
  match_ sample_lib no_regex "/a.c/" "abcd" = Ok false /\
  match_ sample_lib no_regex "/a.c/" "/a.c/" = Ok true /\
  match_ sample_lib no_regex "/a*/" "/aaa/" = Ok true /\
  match_ sample_lib no_glob "a*d" "abcd" = Ok false /\
  match_ sample_lib no_glob "a*d" "a*d" = Ok true.
Proof. cbv zeta. repeat split; reflexivity. Qed.


(** ** The operator table *)

Lemma operator_names lib : keys (OPERATOR_MAP lib) = known_operators.
Proof. reflexivity. Qed.

Lemma operator_unknown lib op :
  ~ In op known_operators -> dict_get (OPERATOR_MAP lib) op = None.
Proof.
  intros H. apply dict_get_none. now rewrite operator_names.
Qed.

(** C6, as the code has it.  The [regex] operator compiles a string query,
    case-insensitively exactly when it starts with [(?i)], and matches it
    at the start of a string leaf; an invalid pattern raises.  A leaf that
    is not a string is handed to [re.match] as it is, which raises
    [TypeError] once the pattern is compiled; nothing renders the leaf as a
    string. *)
Theorem regex_operator lib :
  dict_get (OPERATOR_MAP lib) "regex" = Some (op_regex lib) /\
  (forall s p,
      op_regex lib (VStr s) (QV (VStr p))
      = match re_compile lib (prefix "(?i)" p) p with
        | Some m => Ok (m s)
        | None => Raise ReError
        end) /\
  (forall v p m,
      is_str v = false ->
      re_compile lib (prefix "(?i)" p) p = Some m ->
      op_regex lib v (QV (VStr p)) = Raise TypeError).
Proof.
  split; [reflexivity | split].
  - intros s p. unfold op_regex.
    destruct (re_compile lib (prefix "(?i)" p) p); reflexivity.
  - intros v p m Hv Hc. unfold op_regex. rewrite Hc. simpl.
    destruct v; try reflexivity. discriminate.
Qed.

Lemma regex_operator_witness :
  op_regex sample_lib (VInt 12) (QV (VStr "1.*")) = Raise TypeError.
Proof.
  refine (proj2 (proj2 (regex_operator sample_lib)) (VInt 12) "1.*"
            (Sample.run false false false [(Sample.Lit "1", false);
                                           (Sample.Any, true)]) _ _);
    reflexivity.
Defined.

(** C6, as stated, fails: on the integer leaf [12] the [regex] operator
    raises instead of answering whether ["1.*"] matches its string form,
    and the exception leaves [execute]. *)
Lemma regex_operator_int_leaf :
  operate sample_lib "regex" "a" [("a", VInt 12)] (QV (VStr "1.*"))
  = Raise TypeError /\
  execute sample_lib
    {| query := [("a$regex", QV (VStr "1.*"))];
       support_wildcards := true; support_regex := true |}
    [("a", VInt 12)] "." default_indicator
  = Raise TypeError /\
  operate sample_lib "regex" "a" [("a", VStr "12")] (QV (VStr "1.*"))
  = Ok true.
Proof. repeat split; reflexivity. Qed.

(** The prefix [(?i)] on the sample library. *)
Example regex_operator_case :
  op_regex sample_lib (VStr "A Child") (QV (VStr "(?i).*child")) = Ok true /\
  op_regex sample_lib (VStr "A Child") (QV (VStr ".*child")) = Ok false /\
  op_regex sample_lib (VStr "A Child") (QV (VStr "Child")) = Ok false /\
  op_regex sample_lib (VStr "A Child") (QV (VStr "(")) = Raise ReError /\
  op_regex sample_lib (VStr "A Child") (QV (VInt 1)) = Raise AttributeError.
Proof. repeat split; reflexivity. Qed.

(** C9. An ordering operator applied to a string leaf and an integer query
    value raises [TypeError], and [execute] lets it through: for each of
    [ge], [gt], [le], [lt], whatever the library and the flags, on the
    pattern-key [a$op] and the data [{'a': 'x'}]; and on the wildcard
    pattern-key ['*$gt']. *)
Theorem execute_ordering_raises :
  Forall
    (fun op =>
       In op known_operators /\
       forall lib sw sr,
         execute lib
           {| query := [(("a$" ++ op)%string, QV (VInt 1))];
              support_wildcards := sw; support_regex := sr |}
           [("a", VStr "x")] "." default_indicator
         = Raise TypeError)
    ["ge"; "gt"; "le"; "lt"] /\
  execute sample_lib
    {| query := [("*$gt", QV (VInt 1))];
       support_wildcards := true; support_regex := true |}
    [("a", VStr "x")] "." default_indicator
  = Raise TypeError.
Proof.
  split; [|reflexivity].
  repeat constructor; simpl; auto 20;
    intros lib sw sr; unfold execute; simpl;
    unfold hit; rewrite match_plain by reflexivity; reflexivity.
Qed.

(** ** The constructor and the tool layer *)

(** C3. The constructor has no parameter for the operator separator: the
    keyword [operator_separator] is a [TypeError], so is every call of the
    tool layer's [dict_search], which passes it together with
    [field_separator] and [list_index_indicator].  [execute] splits every
    pattern-key on ['$']: with ['#'] meant as the separator, the pattern-key
    ['a#gt'] is taken whole, with the operator [eq]. *)
Theorem operator_separator_fixed :
  (forall q sep,
      DictSearchQuery_init q [("operator_separator", VStr sep)]
      = Raise TypeError) /\
  (forall lib data q sw sr fs li os rc,
      dict_search lib data q sw sr fs li os rc = Raise TypeError) /\
  split_key "a#gt" = Ok ("a#gt", "eq") /\
  split_key "a$gt" = Ok ("a", "gt") /\
  split_key "a" = Ok ("a", "eq") /\
  (forall lib,
      execute lib
        {| query := [("a#gt", QV (VInt 0))];
           support_wildcards := true; support_regex := true |}
        [("a", VInt 1)] "." default_indicator = Ok []) /\
  (forall lib,
      execute lib
        {| query := [("a$gt", QV (VInt 0))];
           support_wildcards := true; support_regex := true |}
        [("a", VInt 1)] "." default_indicator = Ok [("a", VInt 1)]).
Proof.
  refine (conj _ (conj _ (conj _ (conj _ (conj _ (conj _ _))))));
    reflexivity.
Qed.

(** ** The executor *)

Lemma split_go_nonempty sep s : forall skip cur, split_go sep s skip cur <> [].
Proof.
  induction s as [|c s IH]; intros skip cur; cbn [split_go]; [discriminate|].
  destruct skip; [|apply IH].
  destruct (prefix sep (String c s)); [discriminate | apply IH].
Qed.

(** Splitting a pattern-key never raises. *)
Lemma split_key_total q_key : exists mo, split_key q_key = Ok mo.
Proof.
  unfold split_key, py_split. simpl.
  pose proof (split_go_nonempty "$" q_key 0 "") as Hne.
  destruct (split_go "$" q_key 0 "") as [|main rest]; [congruence|].
  destruct rest as [|op rest]; simpl; eauto.
Qed.

Lemma in_set_add k s x : In x (set_add k s) <-> x = k \/ In x s.
Proof.
  unfold set_add. destruct (existsb (String.eqb k) s) eqn:E.
  - split; [auto|]. intros [->|H]; [|assumption].
    apply existsb_exists in E. destruct E as [y [Hy Hk]].
    apply String.eqb_eq in Hk. now subst.
  - rewrite in_app_iff. simpl. intuition auto.
Qed.

Lemma subset_spec a b : subset a b = true <-> forall x, In x a -> In x b.
Proof.
  unfold subset. rewrite forallb_forall. split; intros H x Hx.
  - apply H in Hx. apply existsb_exists in Hx. destruct Hx as [y [Hy E]].
    apply String.eqb_eq in E. now subst.
  - apply existsb_exists. exists x. split; [auto | apply String.eqb_refl].
Qed.

Lemma in_dict_set_inv {A} (d : dict A) k0 v0 k v :
  In (k, v) (dict_set d k0 v0) -> (k, v) = (k0, v0) \/ In (k, v) d.
Proof.
  induction d as [|[k1 v1] r IH]; simpl.
  - intros [H|[]]. left. now symmetry.
  - destruct (k1 =? k0) eqn:E; simpl.
    + apply String.eqb_eq in E. subst. intros [H|H]; auto.
    + intros [H|H]; auto. destruct (IH H); auto.
Qed.

Lemma in_dict_set_same {A} (d : dict A) k0 v0 : In (k0, v0) (dict_set d k0 v0).
Proof.
  apply dict_get_some_in, dict_get_set_same.
Qed.

Lemma in_dict_set_other {A} (d : dict A) k0 v0 k v :
  k <> k0 -> In (k, v) d -> In (k, v) (dict_set d k0 v0).
Proof.
  intros Hne. induction d as [|[k1 v1] r IH]; simpl; [easy|].
  destruct (k1 =? k0) eqn:E; simpl.
  - apply String.eqb_eq in E. subst. intros [H|H]; [|auto].
    inversion H; subst. congruence.
  - intros [H|H]; auto.
Qed.

(** Two pairs of a dictionary with distinct keys that share the key share
    the value. *)
Lemma nodup_keys_functional {A} (d : dict A) k v v' :
  NoDup (keys d) -> In (k, v) d -> In (k, v') d -> v = v'.
Proof.
  intros Hnd H1 H2.
  apply (dict_get_in d k v Hnd) in H1. apply (dict_get_in d k v' Hnd) in H2.
  congruence.
Qed.

Section ExecuteFacts.
Variable lib : pylib.
Variable self : DictSearchQuery.
Variable flat : dict value.
Hypothesis flat_nodup : NoDup (keys flat).

Lemma within_set d k v : within flat d -> In (k, v) flat -> within flat (dict_set d k v).
Proof.
  intros Hd Hkv k' v' H. apply in_dict_set_inv in H.
  destruct H as [H|H]; [inversion H; subst; assumption | now apply Hd].
Qed.

Lemma in_set_within d k0 v0 k v :
  within flat d -> In (k0, v0) flat ->
  (In (k, v) (dict_set d k0 v0) <-> (k, v) = (k0, v0) \/ In (k, v) d).
Proof.
  intros Hd H0. split; [apply in_dict_set_inv|].
  intros [H|H].
  - inversion H; subst. apply in_dict_set_same.
  - destruct (string_dec k k0) as [->|Hne].
    + rewrite (nodup_keys_functional flat k0 v v0 flat_nodup (Hd _ _ H) H0).
      apply in_dict_set_same.
    + now apply in_dict_set_other.
Qed.

(** The inner loop, when it returns: the pattern-key is recorded if it
    selected a key, and the selected pairs are added. *)
Lemma scan_fields_returns q_key main op q_value items : forall st st',
  scan_fields lib self q_key main op q_value flat items st = Ok st' ->
  within flat items -> within flat (snd st) -> NoDup (keys (snd st)) ->
  (forall k v, In (k, v) items ->
               exists b, hit lib self main op q_value flat k = Ok b) /\
  within flat (snd st') /\ NoDup (keys (snd st')) /\
  (forall x, In x (fst st') <->
     In x (fst st) \/
     (x = q_key /\ exists k v, In (k, v) items /\
                              hit lib self main op q_value flat k = Ok true)) /\
  (forall k v, In (k, v) (snd st') <->
     In (k, v) (snd st) \/
     (In (k, v) items /\ hit lib self main op q_value flat k = Ok true)).
Proof.
  induction items as [|[k0 v0] r IH]; intros st st' Hrun Hi Hs Hnd; simpl in Hrun.
  - inversion Hrun; subst.
    split; [intros k v []|]. split; [assumption|]. split; [assumption|]. split.
    + intros x. split; [auto|]. intros [H|[_ (k & v & [] & _)]]; exact H.
    + intros k v. split; [auto|]. intros [H|[[] _]]; exact H.
  - destruct (hit lib self main op q_value flat k0) as [b|e] eqn:E;
      simpl in Hrun; [|discriminate].
    assert (Hr : within flat r) by (intros k v H; apply Hi; now right).
    assert (H0 : In (k0, v0) flat) by (apply Hi; now left).
    apply IH in Hrun; auto.
    + destruct Hrun as (Hall & Hw & Hn & Hm & Hf).
      split; [|split; [|split; [|split]]]; auto.
      * intros k v [H|H]; [inversion H; subst; eauto | eauto].
      * intros x. rewrite Hm. destruct b; simpl; rewrite ?in_set_add.
        -- split.
           ++ intros [[Hx|H]|[Hx (k & v & Hin & Hk)]]; subst; eauto 8.
           ++ intros [H|[Hx (k & v & [Hin|Hin] & Hk)]]; subst; eauto 8.
        -- split.
           ++ intros [H|[Hx (k & v & Hin & Hk)]]; subst; eauto 8.
           ++ intros [H|[Hx (k & v & [Hin|Hin] & Hk)]]; subst; eauto 8.
              inversion Hin; subst. congruence.
      * intros k v. rewrite Hf. destruct b; simpl.
        -- rewrite (in_set_within (snd st) k0 v0 k v Hs H0). split.
           ++ intros [[H|H]|[Hin Hk]]; auto.
              inversion H; subst. auto.
           ++ intros [H|[[Hin|Hin] Hk]]; auto.
        -- split.
           ++ intros [H|[Hin Hk]]; auto.
           ++ intros [H|[[Hin|Hin] Hk]]; auto.
              inversion Hin; subst. congruence.
    + destruct b; simpl; [now apply within_set | assumption].
    + destruct b; simpl; [now apply keys_set_nodup | assumption].
Qed.

(** The inner loop returns when no test raises. *)
Lemma scan_fields_total q_key main op q_value items : forall st,
  (forall k v, In (k, v) items ->
               exists b, hit lib self main op q_value flat k = Ok b) ->
  exists st', scan_fields lib self q_key main op q_value flat items st = Ok st'.
Proof.
  induction items as [|[k0 v0] r IH]; intros st H; simpl; [eauto|].
  destruct (H k0 v0 (or_introl eq_refl)) as [b ->]. simpl.
  apply IH. intros k v Hin. apply (H k v). now right.
Qed.
End ExecuteFacts.

Section ExecuteContract.
Variable lib : pylib.
Variable self : DictSearchQuery.
Variable flat : dict value.
Hypothesis flat_nodup : NoDup (keys flat).

Lemma within_refl : within flat flat.
Proof. intros k v H. exact H. Qed.

Lemma key_test_split q_key q_value mo k :
  split_key q_key = Ok mo ->
  key_test lib self flat q_key q_value k
  = hit lib self (fst mo) (snd mo) q_value flat k.
Proof. intros H. unfold key_test. now rewrite H. Qed.

(** The outer loop, when it returns. *)
Lemma scan_query_returns qs : forall st st',
  scan_query lib self qs flat st = Ok st' ->
  within flat (snd st) -> NoDup (keys (snd st)) ->
  (forall q_key q_value k v,
      In (q_key, q_value) qs -> In (k, v) flat ->
      exists b, key_test lib self flat q_key q_value k = Ok b) /\
  within flat (snd st') /\ NoDup (keys (snd st')) /\
  (forall x, In x (fst st') <->
     In x (fst st) \/
     exists q_value k v,
       In (x, q_value) qs /\ In (k, v) flat /\
       key_test lib self flat x q_value k = Ok true) /\
  (forall k v, In (k, v) (snd st') <->
     In (k, v) (snd st) \/
     (In (k, v) flat /\
      exists q_key q_value,
        In (q_key, q_value) qs /\
        key_test lib self flat q_key q_value k = Ok true)).
Proof.
  induction qs as [|[qk qv] r IH]; intros st st' Hrun Hs Hnd; simpl in Hrun.
  - inversion Hrun; subst.
    split; [intros ? ? ? ? []|]. split; [assumption|]. split; [assumption|]. split.
    + intros x. split; [auto|]. intros [H|(? & ? & ? & [] & _)]; exact H.
    + intros k v. split; [auto|]. intros [H|[_ (? & ? & [] & _)]]; exact H.
  - destruct (split_key_total qk) as [mo Hmo]. rewrite Hmo in Hrun. simpl in Hrun.
    destruct (scan_fields lib self qk (fst mo) (snd mo) qv flat flat st)
      as [st1|e] eqn:E1; simpl in Hrun; [|discriminate].
    apply (scan_fields_returns lib self flat flat_nodup) in E1;
      auto using within_refl.
    destruct E1 as (Hall1 & Hw1 & Hn1 & Hm1 & Hf1).
    apply IH in Hrun; auto.
    destruct Hrun as (Hall & Hw & Hn & Hm & Hf).
    pose proof (fun k => key_test_split qk qv mo k Hmo) as Hkt.
    split; [|split; [|split; [|split]]]; auto.
    + intros q_key q_value k v [H|H] Hk; [|eauto].
      inversion H; subst. rewrite Hkt. eauto.
    + intros x. rewrite Hm, Hm1. split.
      * intros [[H|[Hx (k & v & Hin & Hk)]]|(q & k & v & Hq & Hin & Hk)];
          subst; auto.
        -- right. exists qv, k, v. rewrite Hkt. simpl. auto.
        -- right. exists q, k, v. simpl. auto.
      * intros [H|(q & k & v & [Hq|Hq] & Hin & Hk)]; auto.
        -- inversion Hq; subst. rewrite Hkt in Hk. left. right. eauto.
        -- right. eauto 8.
    + intros k v. rewrite Hf, Hf1. split.
      * intros [[H|[Hin Hk]]|[Hin (q & w & Hq & Hk)]]; auto.
        -- right. split; auto. exists qk, qv. rewrite Hkt. simpl. auto.
        -- right. split; auto. exists q, w. simpl. auto.
      * intros [H|[Hin (q & w & [Hq|Hq] & Hk)]]; auto.
        -- inversion Hq; subst. rewrite Hkt in Hk. auto.
        -- right. eauto 8.
Qed.

(** The outer loop returns when no test raises. *)
Lemma scan_query_total qs : forall st,
  (forall q_key q_value k v,
      In (q_key, q_value) qs -> In (k, v) flat ->
      exists b, key_test lib self flat q_key q_value k = Ok b) ->
  exists st', scan_query lib self qs flat st = Ok st'.
Proof.
  induction qs as [|[qk qv] r IH]; intros st H; simpl; [eauto|].
  destruct (split_key_total qk) as [mo Hmo]. rewrite Hmo. simpl.
  destruct (scan_fields_total lib self flat qk (fst mo) (snd mo) qv flat st)
    as [st1 ->].
  - intros k v Hin. rewrite <- (key_test_split qk qv mo k Hmo).
    apply (H qk qv k v); [now left | assumption].
  - simpl. apply IH. intros q_key q_value k v Hq. apply H. now right.
Qed.
End ExecuteContract.

(** What [execute] returns, when it returns. *)
Lemma execute_returns lib self data sep ind r :
  execute lib self data sep ind = Ok r ->
  no_raise lib self (flatten_dict sep ind data) /\
  NoDup (keys r) /\
  (all_found lib self (flatten_dict sep ind data) ->
   forall k v, In (k, v) r <->
               In (k, v) (flatten_dict sep ind data) /\
               selected lib self (flatten_dict sep ind data) k) /\
  (~ all_found lib self (flatten_dict sep ind data) -> r = []).
Proof.
  unfold execute. intros Hrun.
  set (flat := flatten_dict sep ind data) in *.
  destruct (scan_query lib self (query self) flat ([], [])) as [st|e] eqn:E;
    simpl in Hrun; [|discriminate].
  apply (scan_query_returns lib self flat (flatten_dict_nodup sep ind data)) in E;
    simpl; [| intros ? ? [] | constructor].
  destruct E as (Hall & Hw & Hn & Hm & Hf). simpl in Hm, Hf.
  assert (Hsub : subset (fst st) (keys (query self)) = true).
  { apply subset_spec. intros x Hx. apply Hm in Hx.
    destruct Hx as [[]|(q & k & v & Hq & _)].
    change x with (fst (x, q)). now apply in_map. }
  assert (Hfound : subset (keys (query self)) (fst st) = true
                   <-> all_found lib self flat).
  { rewrite subset_spec. unfold all_found, found. split; intros H x Hx.
    - apply H, Hm in Hx. destruct Hx as [[]|Hx]. exact Hx.
    - apply Hm. right. now apply H. }
  split; [exact Hall|].
  unfold set_eqb in Hrun. rewrite Hsub in Hrun. simpl in Hrun.
  destruct (subset (keys (query self)) (fst st)) eqn:Hk;
    inversion Hrun; subst.
  - split; [assumption|]. split.
    + intros _ k v. rewrite Hf. unfold selected. split.
      * intros [[]|H]. exact H.
      * auto.
    + intros Hno. exfalso. apply Hno. now apply Hfound.
  - split; [constructor|]. split; [|reflexivity].
    intros Hyes. apply Hfound in Hyes. discriminate.
Qed.

(** [execute] returns when no test raises. *)
Lemma execute_total lib self data sep ind :
  no_raise lib self (flatten_dict sep ind data) ->
  exists r, execute lib self data sep ind = Ok r.
Proof.
  intros H. unfold execute.
  destruct (scan_query_total lib self _ (query self) ([], []) H) as [st ->].
  simpl. destruct (set_eqb (fst st) (keys (query self))); eauto.
Qed.

(** C1, with what the code requires.  When no test of a declared
    pattern-key on a flat key raises, [execute] returns; and whenever it
    returns, the result has distinct keys and is the union of the pairs of
    [flatten_dict(data)] that some declared pattern-key selects (the key
    matches its pattern and the value satisfies its operator) if every
    declared pattern-key selected at least one pair, and the empty
    dictionary otherwise.  When nothing is selected at all it returns the
    empty dictionary without raising. *)
Theorem execute_contract lib self data sep ind :
  (no_raise lib self (flatten_dict sep ind data) ->
   exists r, execute lib self data sep ind = Ok r) /\
  (forall r,
      execute lib self data sep ind = Ok r ->
      NoDup (keys r) /\
      (all_found lib self (flatten_dict sep ind data) ->
       forall k v, In (k, v) r <->
                   In (k, v) (flatten_dict sep ind data) /\
                   selected lib self (flatten_dict sep ind data) k) /\
      (~ all_found lib self (flatten_dict sep ind data) -> r = [])) /\
  ((forall q_key q_value k v,
       In (q_key, q_value) (query self) ->
       In (k, v) (flatten_dict sep ind data) ->
       key_test lib self (flatten_dict sep ind data) q_key q_value k
       = Ok false) ->
   execute lib self data sep ind = Ok []).
Proof.
  split; [apply execute_total | split].
  - intros r Hr. now apply execute_returns in Hr.
  - intros Hno.
    destruct (execute_total lib self data sep ind) as [r Hr].
    { intros q_key q_value k v Hq Hk. exists false. exact (Hno _ _ _ _ Hq Hk). }
    rewrite Hr. f_equal.
    destruct (execute_returns _ _ _ _ _ _ Hr) as (_ & _ & Hyes & Hnot).
    destruct r as [|[k v] r']; [reflexivity|].
    apply Hnot. intros Hall.
    destruct (proj1 (Hyes Hall k v) (or_introl eq_refl))
      as [Hin (q_key & q_value & Hq & Hk)].
    rewrite (Hno _ _ _ _ Hq Hin) in Hk. discriminate.
Qed.

Lemma execute_contract_witness :
  exists r,
    execute sample_lib
      {| query := [("a.b.c", QV (VInt 1))];
         support_wildcards := true; support_regex := true |}
      [("a", VDict [("b", VDict [("c", VInt 1)])]);
       ("d", VList [VDict [("e", VInt 2)]; VDict [("f", VInt 3)]])]
      "." default_indicator = Ok r.
Proof.
  apply (proj1 (execute_contract sample_lib
                  {| query := [("a.b.c", QV (VInt 1))];
                     support_wildcards := true; support_regex := true |}
                  [("a", VDict [("b", VDict [("c", VInt 1)])]);
                   ("d", VList [VDict [("e", VInt 2)]; VDict [("f", VInt 3)]])]
                  "." default_indicator)).
  intros q_key q_value k v Hq Hk. simpl in Hq.
  destruct Hq as [Hq|[]]. inversion Hq; subst.
  change (flatten_dict "." default_indicator
            [("a", VDict [("b", VDict [("c", VInt 1)])]);
             ("d", VList [VDict [("e", VInt 2)]; VDict [("f", VInt 3)]])])
    with [("a.b.c", VInt 1); ("d#0.e", VInt 2); ("d#1.f", VInt 3)] in *.
  simpl in Hk. destruct Hk as [Hk|[Hk|[Hk|[]]]]; inversion Hk; subst;
    eexists; reflexivity.
Defined.

(** C1, as stated, fails: the key ['a'] matches the pattern-key ['a$gt']
    and its value ['x'] does not satisfy [> 1], so the claim has [execute]
    return the empty dictionary; the comparison raises [TypeError] and
    [execute] returns nothing. *)
Lemma execute_contract_raises :
  execute sample_lib
    {| query := [("a$gt", QV (VInt 1))];
       support_wildcards := true; support_regex := true |}
    [("a", VStr "x")] "." default_indicator
  = Raise TypeError /\
  ~ (exists r,
       execute sample_lib
         {| query := [("a$gt", QV (VInt 1))];
            support_wildcards := true; support_regex := true |}
         [("a", VStr "x")] "." default_indicator = Ok r).
Proof.
  split; [reflexivity|]. intros [r H]. discriminate H.
Qed.

(** The examples of the specification and of the test suite. *)
Example execute_examples :
  let d := [("a", VDict [("b", VDict [("c", VInt 1)])]);
            ("d", VList [VDict [("e", VInt 2)]; VDict [("f", VInt 3)]])] in
  let run q := execute sample_lib
                 {| query := q; support_wildcards := true;
                    support_regex := true |} d "." default_indicator in
  run [("a.b.c", QV (VInt 1))] = Ok [("a.b.c", VInt 1)] /\
  run [("a.b.c", QV (VInt 1)); ("x.y", QV (VInt 9))] = Ok [] /\
  run [("*", QV (VInt 1))] = Ok [("a.b.c", VInt 1)] /\
  run [("/.*/", QV (VInt 1))] = Ok [("a.b.c", VInt 1)] /\
  run [("d*$ge", QV (VInt 2))] = Ok [("d#0.e", VInt 2); ("d#1.f", VInt 3)] /\
  run [] = Ok [].
Proof. cbv zeta. repeat split; reflexivity. Qed.

Lemma and_then_false m : and_then m (Ok false) <> Ok true.
Proof. destruct m as [[|]|e]; discriminate. Qed.

(** C4, with what the code requires.  For an operator name outside the
    table [operate] returns false without raising; a pattern-key carrying
    such an operator selects no flat key, so a query that declares it never
    returns a non-empty dictionary: whenever [execute] returns, it returns
    the empty one, and it returns when no test of the query raises. *)
Theorem unknown_operator_fails_closed lib self :
  (forall op field data q,
      ~ In op known_operators -> operate lib op field data q = Ok false) /\
  (forall q_key q_value main op data sep ind,
      In (q_key, q_value) (query self) ->
      split_key q_key = Ok (main, op) ->
      ~ In op known_operators ->
      (forall q k,
          key_test lib self (flatten_dict sep ind data) q_key q k <> Ok true) /\
      (forall r, execute lib self data sep ind = Ok r -> r = []) /\
      (no_raise lib self (flatten_dict sep ind data) ->
       execute lib self data sep ind = Ok [])).
Proof.
  assert (Hop : forall op field data q,
             ~ In op known_operators -> operate lib op field data q = Ok false).
  { intros op field data q H. unfold operate.
    rewrite (operator_unknown lib op H). now destruct (dict_get data field). }
  split; [exact Hop|].
  intros q_key q_value main op data sep ind Hq Hs Hun.
  assert (Hkt : forall q k,
             key_test lib self (flatten_dict sep ind data) q_key q k <> Ok true).
  { intros q k. rewrite (key_test_split _ _ _ _ _ _ _ Hs). simpl.
    unfold hit. rewrite Hop by assumption. apply and_then_false. }
  assert (Hret : forall r, execute lib self data sep ind = Ok r -> r = []).
  { intros r Hr.
    destruct (execute_returns _ _ _ _ _ _ Hr) as (_ & _ & _ & Hnot).
    apply Hnot. intros Hall.
    destruct (Hall q_key) as (q & k & v & _ & _ & Hk).
    - change q_key with (fst (q_key, q_value)). now apply in_map.
    - exact (Hkt q k Hk). }
  split; [exact Hkt | split; [exact Hret|]].
  intros Hno. destruct (execute_total _ _ _ _ _ Hno) as [r Hr].
  now rewrite Hr, (Hret r Hr).
Qed.

Lemma unknown_operator_fails_closed_witness :
  execute sample_lib
    {| query := [("a$bogus", QV (VInt 1))];
       support_wildcards := true; support_regex := true |}
    [("a", VInt 1)] "." default_indicator = Ok [].
Proof.
  refine (proj2 (proj2 (proj2 (unknown_operator_fails_closed sample_lib
            {| query := [("a$bogus", QV (VInt 1))];
               support_wildcards := true; support_regex := true |})
            "a$bogus" (QV (VInt 1)) "a" "bogus" [("a", VInt 1)] "."
            default_indicator _ _ _)) _).
  - simpl. now left.
  - reflexivity.
  - simpl. intros H.
    repeat (destruct H as [H|H]; [discriminate H|]). exact H.
  - intros q_key q_value k v Hq Hk. simpl in Hq, Hk.
    destruct Hq as [Hq|[]]. destruct Hk as [Hk|[]].
    inversion Hq; inversion Hk; subst. eexists. reflexivity.
Defined.

(** C4, as stated, fails on its last part: a query that declares an
    unknown operator next to a pattern-key whose comparison raises does not
    return the empty dictionary; [execute] raises. *)
Lemma unknown_operator_raises :
  execute sample_lib
    {| query := [("a$bogus", QV (VInt 1)); ("b$gt", QV (VInt 1))];
       support_wildcards := true; support_regex := true |}
    [("a", VInt 1); ("b", VStr "x")] "." default_indicator
  = Raise TypeError /\
  ~ In "bogus" known_operators /\
  execute sample_lib
    {| query := [("a$bogus", QV (VInt 1)); ("b$gt", QV (VInt 1))];
       support_wildcards := true; support_regex := true |}
    [("a", VInt 1); ("b", VStr "x")] "." default_indicator
  <> Ok [].
Proof.
  split; [reflexivity | split; [|discriminate]].
  simpl. intros H.
  repeat (destruct H as [H|H]; [discriminate H|]). exact H.
Qed.

(** ** The tree store *)

(** C10, with what the code does.  Saving under an id whose entry is a
    non-empty dictionary keeps that entry's [created_at] and
    [cursor_path] (the current time and the empty path where the entry
    has none), keeps its [schema] when none is supplied and takes the
    supplied one otherwise, and replaces [data], [children_field],
    [label_field], [count], [top_labels] and [updated_at].  Saving
    without an id stores the entry under the generated id; saving under
    an id the store has nothing for (no entry, an empty dictionary, or in
    a file store any false value) stores it under that very id; in both
    cases [created_at] is the current time and [cursor_path] is empty.
    When what the store holds under the id is not a dictionary, a
    directory store raises [ValueError] and a file store raises
    [AttributeError] if the value is true.  Apart from the exceptions the
    same holds for a directory store and a file store. *)
Theorem save_tree_frame e is_dir data cf lf schema store :
  (forall t ex,
      dict_get store t = Some (VDict ex) -> ex <> [] ->
      exists meta entry,
        save_tree e is_dir data cf lf (Some t) schema store
        = Ok (meta, dict_set store t (VDict entry)) /\
        dict_get entry "tree_id" = Some (VStr t) /\
        dict_get entry "created_at"
        = Some (get_default ex "created_at" (VStr (utc_now e))) /\
        dict_get entry "cursor_path"
        = Some (get_default ex "cursor_path" (VList [])) /\
        (schema = VNone ->
         dict_get entry "schema" = Some (get_default ex "schema" VNone)) /\
        (schema <> VNone -> dict_get entry "schema" = Some schema) /\
        replaced e data cf lf entry) /\
  (exists meta entry,
      save_tree e is_dir data cf lf None schema store
      = Ok (meta, dict_set store (uuid4 e) (VDict entry)) /\
      dict_get entry "tree_id" = Some (VStr (uuid4 e)) /\
      dict_get entry "created_at" = Some (VStr (utc_now e)) /\
      dict_get entry "cursor_path" = Some (VList []) /\
      dict_get entry "schema" = Some schema /\
      replaced e data cf lf entry) /\
  (forall t,
      dict_get store t = None \/
      dict_get store t = Some (VDict []) \/
      (is_dir = false /\
       exists v, dict_get store t = Some v /\ truthy v = false) ->
      exists meta entry,
        save_tree e is_dir data cf lf (Some t) schema store
        = Ok (meta, dict_set store t (VDict entry)) /\
        dict_get entry "tree_id" = Some (VStr t) /\
        dict_get entry "created_at" = Some (VStr (utc_now e)) /\
        dict_get entry "cursor_path" = Some (VList []) /\
        dict_get entry "schema" = Some schema /\
        replaced e data cf lf entry) /\
  (forall t v,
      dict_get store t = Some v -> is_dict v = false ->
      (is_dir = true ->
       save_tree e is_dir data cf lf (Some t) schema store
       = Raise ValueError) /\
      (is_dir = false -> truthy v = true ->
       save_tree e is_dir data cf lf (Some t) schema store
       = Raise AttributeError)).
Proof.
  assert (New : forall t,
    find_existing is_dir store t = Ok None ->
    exists meta entry,
      save_tree e is_dir data cf lf (Some t) schema store
      = Ok (meta, dict_set store t (VDict entry)) /\
      dict_get entry "tree_id" = Some (VStr t) /\
      dict_get entry "created_at" = Some (VStr (utc_now e)) /\
      dict_get entry "cursor_path" = Some (VList []) /\
      dict_get entry "schema" = Some schema /\
      replaced e data cf lf entry).
  { intros t H. unfold save_tree. rewrite H. simpl.
    do 2 eexists. split; [reflexivity|].
    unfold replaced. repeat split; reflexivity. }
  split; [|split; [|split]].
  - intros t ex Hex Hne.
    unfold save_tree, find_existing. rewrite Hex.
    destruct ex as [|kv ex']; [congruence|].
    set (x := kv :: ex') in *.
    simpl. do 2 eexists. split; [reflexivity|].
    unfold replaced. repeat split; try reflexivity.
    + intros ->. reflexivity.
    + intros Hs. destruct schema; try reflexivity. now elim Hs.
  - unfold save_tree. simpl. do 2 eexists. split; [reflexivity|].
    unfold replaced. repeat split; reflexivity.
  - intros t H. apply New. unfold find_existing.
    destruct H as [-> | [-> | (-> & v & -> & Hv)]]; try reflexivity.
    destruct v as [| | | | |d]; simpl in Hv |- *; try now rewrite Hv.
    + reflexivity.
    + now destruct d.
  - intros t v Hv Hd. unfold save_tree, find_existing. rewrite Hv.
    destruct v; try discriminate; split; intros ->; try reflexivity;
      intros Ht; simpl in Ht |- *; try discriminate; now rewrite ?Ht.
Qed.

Lemma save_tree_frame_witness :
  exists meta entry,
    save_tree {| utc_now := "2024-02-02T00:00:00+00:00"; uuid4 := "u-2" |} true
      (VDict [("title", VStr "new"); ("sections", VList [VDict []])])
      "sections" (Some "title") (Some "t-1") VNone
      [("t-1", VDict [("tree_id", VStr "t-1");
                      ("data", VDict [("title", VStr "old")]);
                      ("cursor_path", VList [VInt 0]);
                      ("schema", VDict [("type", VStr "object")]);
                      ("created_at", VStr "2024-01-01T00:00:00+00:00")])]
    = Ok (meta, [("t-1", VDict entry)]) /\
    dict_get entry "created_at" = Some (VStr "2024-01-01T00:00:00+00:00") /\
    dict_get entry "cursor_path" = Some (VList [VInt 0]) /\
    dict_get entry "schema" = Some (VDict [("type", VStr "object")]) /\
    dict_get entry "data"
    = Some (VDict [("title", VStr "new"); ("sections", VList [VDict []])]) /\
    dict_get entry "count" = Some (VInt 2).
Proof.
  destruct (proj1 (save_tree_frame
              {| utc_now := "2024-02-02T00:00:00+00:00"; uuid4 := "u-2" |} true
              (VDict [("title", VStr "new"); ("sections", VList [VDict []])])
              "sections" (Some "title") VNone
              [("t-1", VDict [("tree_id", VStr "t-1");
                              ("data", VDict [("title", VStr "old")]);
                              ("cursor_path", VList [VInt 0]);
                              ("schema", VDict [("type", VStr "object")]);
                              ("created_at", VStr "2024-01-01T00:00:00+00:00")])])
              "t-1" _ eq_refl)
    as (meta & entry & Hrun & _ & Hc & Hp & Hs & _ & Hd & _ & _ & Hn & _).
  - discriminate.
  - exists meta, entry. repeat split; auto.
Defined.

(** C10, as stated, fails on a new id and on an id under which the store
    holds no entry.  Saving under a supplied id the store does not have
    assigns no fresh id: the entry is stored under the supplied id, which
    is also the id returned, and nothing is stored under the generated
    one.  Saving under an id that exists in the store but holds a list
    keeps nothing: the call raises. *)
Lemma save_tree_supplied_id :
  (exists meta entry,
      save_tree {| utc_now := "now"; uuid4 := "u-1" |} false
        (VDict [("title", VStr "root")]) "sections" None (Some "mine") VNone
        []
      = Ok (meta, [("mine", VDict entry)]) /\
      dict_get meta "tree_id" = Some (VStr "mine") /\
      dict_get entry "tree_id" = Some (VStr "mine")) /\
  "mine" <> uuid4 {| utc_now := "now"; uuid4 := "u-1" |} /\
  save_tree {| utc_now := "now"; uuid4 := "u-1" |} false
    (VDict [("title", VStr "root")]) "sections" None (Some "t") VNone
    [("t", VList [VInt 1])]
  = Raise AttributeError /\
  save_tree {| utc_now := "now"; uuid4 := "u-1" |} true
    (VDict [("title", VStr "root")]) "sections" None (Some "t") VNone
    [("t", VList [VInt 1])]
  = Raise ValueError.
Proof.
  split; [|split; [discriminate | split; reflexivity]].
  do 2 eexists. split; [reflexivity|]. split; reflexivity.
Qed.

(** A file store holding something that is not an entry under the id, and
    an entry without [created_at]: the first raises, the second is stamped
    with the current time. *)
Example save_tree_odd_entries :
  let e := {| utc_now := "now"; uuid4 := "u" |} in
  save_tree e false VNone "c" None (Some "t") VNone [("t", VList [VInt 1])]
  = Raise AttributeError /\
  save_tree e true VNone "c" None (Some "t") VNone [("t", VList [VInt 1])]
  = Raise ValueError /\
  (exists meta,
      save_tree e false VNone "c" None (Some "t") VNone
        [("t", VDict [("tree_id", VStr "t")])]
      = Ok (meta, [("t", VDict (make_entry "t" VNone "c" None 0 []
                                  (VList []) VNone (VStr "now") "now"))])).
Proof.
  cbv zeta. split; [reflexivity | split; [reflexivity|]].
  eexists. reflexivity.
Qed.

(** ** More on the flattener *)

Lemma dict_set_fresh {A} (d : dict A) k v :
  ~ In k (keys d) -> dict_set d k v = (d ++ [(k, v)])%list.
Proof.
  unfold keys. induction d as [|[k0 v0] r IH]; simpl; intros H; [reflexivity|].
  destruct (k0 =? k) eqn:E.
  - apply String.eqb_eq in E. subst. exfalso. auto.
  - rewrite IH; auto.
Qed.

(** Updating with a dictionary none of whose keys is present appends it. *)
Lemma dict_update_fresh {A} (e : dict A) : forall d,
  NoDup (keys e) -> (forall k, In k (keys e) -> ~ In k (keys d)) ->
  dict_update d e = (d ++ e)%list.
Proof.
  induction e as [|[k v] r IH]; simpl; intros d Hnd Hfresh.
  - now rewrite app_nil_r.
  - inversion Hnd as [|? ? Hn Hr]; subst.
    rewrite dict_set_fresh by (apply Hfresh; now left).
    rewrite IH; auto.
    + now rewrite <- app_assoc.
    + intros k' Hin Hin'. unfold keys in Hin'.
      rewrite map_app, in_app_iff in Hin'. simpl in Hin'.
      destruct Hin' as [H|[H|[]]].
      * apply (Hfresh k'); [now right | exact H].
      * subst. contradiction.
Qed.

Lemma dict_update_nil {A} (e : dict A) :
  NoDup (keys e) -> dict_update [] e = e.
Proof.
  intros H. rewrite dict_update_fresh; auto.
Qed.

Lemma leafy_set d k v : leafy d -> is_leaf v = true -> leafy (dict_set d k v).
Proof.
  intros Hd Hv k' v' H. apply in_dict_set_inv in H.
  destruct H as [H|H]; [inversion H; now subst | eapply Hd; eauto].
Qed.

Lemma leafy_update e : forall d, leafy d -> leafy e -> leafy (dict_update d e).
Proof.
  induction e as [|[k v] r IH]; simpl; intros d Hd He; [assumption|].
  apply IH.
  - apply leafy_set; [assumption|]. apply (He k v). now left.
  - intros k' v' H. apply (He k' v'). now right.
Qed.

Section FlattenMore.
Variable sep : string.
Variable ind : nat -> string.

Lemma flatten_value_leafy v : forall nk items,
  leafy items -> leafy (flatten_value sep ind v nk items).
Proof.
  induction v as [| b | n | s | l IHl | kvs IHd] using value_ind_nested;
    intros nk items Hi; try (apply leafy_set; [assumption | reflexivity]).
  - rewrite flatten_value_list. destruct (forallb is_dict l) eqn:E.
    + revert items Hi. generalize 0%nat as i.
      induction l as [|x r IH]; intros i items Hi; simpl; [assumption|].
      inversion IHl as [|? ? Hx Hr]; subst.
      simpl in E. apply andb_true_iff in E. destruct E as [_ E].
      destruct x; try (now apply IH).
      apply IH; auto.
      change (leafy (flatten_value sep ind (VDict kvs) (nk ++ ind i) items)).
      now apply Hx.
    + apply leafy_set; [assumption|]. simpl. now rewrite E.
  - rewrite flatten_value_dict. apply leafy_update; [assumption|].
    unfold flatten_rec.
    assert (G : forall acc, leafy acc -> leafy (flatten_fields sep ind kvs nk acc)).
    { induction kvs as [|[k v] r IH]; intros acc Ha; simpl; [assumption|].
      inversion IHd as [|? ? Hx Hr]; subst. simpl in Hx.
      apply IH; auto. }
    apply G. intros k v [].
Qed.

Lemma flatten_fields_leafy kvs : forall parent items,
  leafy items -> leafy (flatten_fields sep ind kvs parent items).
Proof.
  induction kvs as [|[k v] r IH]; intros parent items H; simpl; [assumption|].
  apply IH. now apply flatten_value_leafy.
Qed.

(** X1. Every value [flatten_dict] stores is a leaf: never a dictionary,
    and never a list all of whose elements are dictionaries (so never an
    empty list); and no key is stored twice. *)
Theorem flatten_dict_leaves data :
  NoDup (keys (flatten_dict sep ind data)) /\
  forall k v, In (k, v) (flatten_dict sep ind data) -> is_leaf v = true.
Proof.
  split; [apply flatten_dict_nodup|].
  apply flatten_fields_leafy. intros k v [].
Qed.

Lemma flatten_value_of_leaf v nk items :
  is_leaf v = true -> flatten_value sep ind v nk items = dict_set items nk v.
Proof.
  destruct v; try reflexivity; simpl; [|discriminate].
  intros H. apply negb_true_iff in H. now rewrite H.
Qed.

Lemma flatten_fields_of_leaves d : forall items,
  leafy d -> flatten_fields sep ind d "" items = dict_update items d.
Proof.
  induction d as [|[k v] r IH]; intros items H; simpl; [reflexivity|].
  rewrite flatten_value_of_leaf by (apply (H k v); now left).
  apply IH. intros k' v' Hin. apply (H k' v'). now right.
Qed.

(** The flattener adds to the accumulated dictionary what it builds from
    the empty one. *)
Lemma flatten_value_acc v nk items :
  flatten_value sep ind v nk items
  = dict_update items (flatten_value sep ind v nk []).
Proof.
  destruct v; try reflexivity.
  - rewrite !flatten_value_list. destruct (forallb is_dict l); [|reflexivity].
    generalize 0%nat as i. revert items.
    induction l as [|x r IH]; intros items i; simpl; [reflexivity|].
    destruct x; try apply IH.
    rewrite IH. rewrite (IH (dict_update [] _)).
    rewrite dict_update_nil by (apply flatten_fields_nodup; constructor).
    rewrite dict_update_update; [reflexivity|].
    apply flatten_fields_nodup. constructor.
  - rewrite !flatten_value_dict.
    rewrite dict_update_update; [reflexivity | constructor].
Qed.

Lemma flatten_fields_acc kvs : forall parent items,
  flatten_fields sep ind kvs parent items
  = dict_update items (flatten_fields sep ind kvs parent []).
Proof.
  induction kvs as [|[k v] r IH]; intros parent items; simpl; [reflexivity|].
  rewrite IH, (IH parent (flatten_value _ _ _ _ [])).
  rewrite dict_update_update by (apply flatten_value_nodup; constructor).
  now rewrite <- flatten_value_acc.
Qed.
End FlattenMore.

(** X2. Flattening is idempotent: a flattened dictionary flattens to
    itself, whatever separator and indicator the second pass uses. *)
Theorem flatten_dict_idempotent sep ind sep' ind' data :
  flatten_dict sep' ind' (flatten_dict sep ind data)
  = flatten_dict sep ind data.
Proof.
  pose proof (flatten_dict_nodup sep ind data) as Hnd.
  assert (Hl : leafy (flatten_dict sep ind data))
    by (apply flatten_fields_leafy; intros k v []).
  unfold flatten_dict at 1. unfold flatten_rec.
  rewrite flatten_fields_of_leaves by exact Hl.
  now apply dict_update_nil.
Qed.

(** X3. Flattening composes with concatenation of fields: the flattening
    of the fields [a] followed by the fields [b] is the flattening of [a]
    updated with the flattening of [b]. *)
Theorem flatten_dict_app sep ind a b :
  flatten_dict sep ind (a ++ b)%list
  = dict_update (flatten_dict sep ind a) (flatten_dict sep ind b).
Proof.
  unfold flatten_dict, flatten_rec.
  rewrite flatten_fields_app. apply flatten_fields_acc.
Qed.

(** The leaf map at an input with nested dictionaries and a list of
    dictionaries. *)
Lemma flatten_dict_leaf_map_witness :
  flatten_dict "." default_indicator
    [("a", VDict [("b", VDict [("c", VInt 1)])]);
     ("d", VList [VDict [("e", VInt 2)]; VDict [("f", VInt 3)]])]
  = flatten_spec "." default_indicator
      [("a", VDict [("b", VDict [("c", VInt 1)])]);
       ("d", VList [VDict [("e", VInt 2)]; VDict [("f", VInt 3)]])].
Proof.
  apply (flatten_dict_leaf_map "." default_indicator).
  repeat constructor; simpl; discriminate.
Defined.

(** ** Splitting *)

Lemma append_empty_r (s : string) : (s ++ "")%string = s.
Proof. induction s as [|c s IH]; simpl; [reflexivity | now rewrite IH]. Qed.

Lemma append_assoc_str (a b c : string) :
  ((a ++ b) ++ c)%string = (a ++ (b ++ c))%string.
Proof. induction a as [|x a IH]; simpl; [reflexivity | now rewrite IH]. Qed.

Lemma prefix_empty (s : string) : prefix "" s = true.
Proof. now destruct s. Qed.

Lemma prefix_char c c' s :
  prefix (String c "") (String c' s) = Ascii.eqb c c'.
Proof.
  simpl. destruct (ascii_dec c c') as [->|H].
  - now rewrite prefix_empty, Ascii.eqb_refl.
  - symmetry. now apply Ascii.eqb_neq.
Qed.

(** A string without the separating character is one piece. *)
Lemma split_char_none c s : forall cur,
  char_in c s = false ->
  split_go (String c "") s 0 cur = [(cur ++ s)%string].
Proof.
  induction s as [|c' s IH]; intros cur H.
  - simpl. now rewrite append_empty_r.
  - simpl in H. apply orb_false_iff in H. destruct H as [Hc Hs].
    cbn [split_go]. rewrite prefix_char, Hc, IH by assumption.
    now rewrite append_assoc_str.
Qed.

(** The first piece ends at the first separating character. *)
Lemma split_char_cons c a : forall rest cur,
  char_in c a = false ->
  split_go (String c "") (a ++ String c rest) 0 cur
  = (cur ++ a)%string :: split_go (String c "") rest 0 "".
Proof.
  induction a as [|c' a IH]; intros rest cur H.
  - simpl append. cbn [split_go]. rewrite prefix_char, Ascii.eqb_refl.
    now rewrite append_empty_r.
  - simpl in H. apply orb_false_iff in H. destruct H as [Hc Ha].
    simpl append. cbn [split_go]. rewrite prefix_char, Hc, IH by assumption.
    now rewrite append_assoc_str.
Qed.

Lemma split_key_plain k :
  char_in "$" k = false -> split_key k = Ok (k, "eq").
Proof.
  intros H. unfold split_key, py_split. cbn [bind].
  now rewrite (split_char_none "$" k "" H).
Qed.

(** X5. How a pattern-key is read: without ['$'] it is the pattern itself,
    with the operator [eq]; [main$op] gives the pattern [main] and the
    operator [op]; whatever follows a second ['$'] is ignored. *)
Theorem split_key_parts :
  (forall k, char_in "$" k = false -> split_key k = Ok (k, "eq")) /\
  (forall main op,
      char_in "$" main = false -> char_in "$" op = false ->
      split_key (main ++ "$" ++ op) = Ok (main, op) /\
      forall rest,
        split_key (main ++ "$" ++ op ++ "$" ++ rest) = Ok (main, op)).
Proof.
  split.
  - exact split_key_plain.
  - intros main op Hm Ho. split; [|intros rest];
      unfold split_key, py_split; cbn [bind].
    + change (main ++ "$" ++ op)%string with (main ++ String "$" op)%string.
      rewrite (split_char_cons "$" main op "" Hm).
      now rewrite (split_char_none "$" op "" Ho).
    + change (main ++ "$" ++ op ++ "$" ++ rest)%string
        with (main ++ String "$" (op ++ String "$" rest))%string.
      rewrite (split_char_cons "$" main _ "" Hm).
      rewrite (split_char_cons "$" op rest "" Ho).
      pose proof (split_go_nonempty "$" rest 0 "") as Hne.
      destruct (split_go "$" rest 0 ""); [congruence | reflexivity].
Qed.

Lemma split_key_parts_witness :
  split_key "title$regex$x" = Ok ("title", "regex").
Proof.
  exact (proj2 (proj2 split_key_parts "title" "regex" eq_refl eq_refl) "x").
Defined.

(** ** More on the executor *)

Lemma scan_query_empty lib self qs : forall st,
  scan_query lib self qs [] st = Ok st.
Proof.
  induction qs as [|[qk qv] r IH]; intros st; simpl; [reflexivity|].
  destruct (split_key_total qk) as [mo ->]. simpl. apply IH.
Qed.

(** X6. The empty cases of [execute]: on data that flattens to nothing
    (the empty dictionary, or one holding only empty containers) every
    query returns the empty dictionary and no pattern is compiled, so
    nothing can raise; and the empty query returns the empty dictionary on
    every data. *)
Theorem execute_empty lib self data sep ind :
  (flatten_dict sep ind data = [] -> execute lib self data sep ind = Ok []) /\
  (query self = [] -> execute lib self data sep ind = Ok []).
Proof.
  split; intros H; unfold execute; rewrite H.
  - rewrite scan_query_empty. simpl.
    now destruct (set_eqb [] (keys (query self))).
  - reflexivity.
Qed.

Lemma execute_empty_witness :
  execute sample_lib
    {| query := [("/(/", QV (VInt 1))];
       support_wildcards := true; support_regex := true |}
    [("a", VDict []); ("b", VList [])] "." default_indicator = Ok [].
Proof.
  apply (proj1 (execute_empty sample_lib _ _ _ _)). reflexivity.
Defined.

(** X7. Whatever [execute] returns is a part of the flattened data: its
    keys are distinct, and every pair of it is a pair of
    [flatten_dict(data)], with the value stored there. *)
Theorem execute_within_flatten lib self data sep ind r :
  execute lib self data sep ind = Ok r ->
  NoDup (keys r) /\
  forall k v, In (k, v) r ->
              dict_get (flatten_dict sep ind data) k = Some v.
Proof.
  unfold execute. intros Hrun.
  set (flat := flatten_dict sep ind data) in *.
  assert (Hnd : NoDup (keys flat)) by apply flatten_dict_nodup.
  destruct (scan_query lib self (query self) flat ([], [])) as [st|e] eqn:E;
    simpl in Hrun; [|discriminate].
  apply (scan_query_returns lib self flat Hnd) in E;
    simpl; [| intros ? ? [] | constructor].
  destruct E as (_ & Hw & Hn & _ & _).
  destruct (set_eqb (fst st) (keys (query self))); inversion Hrun; subst.
  - split; [assumption|]. intros k v H. apply dict_get_in; auto.
  - split; [constructor | intros k v []].
Qed.

Lemma execute_within_flatten_witness :
  NoDup (keys [("a.b.c", VInt 1)]) /\
  forall k v, In (k, v) [("a.b.c", VInt 1)] ->
    dict_get (flatten_dict "." default_indicator
                [("a", VDict [("b", VDict [("c", VInt 1)])]);
                 ("d", VList [VDict [("e", VInt 2)]; VDict [("f", VInt 3)]])])
      k = Some v.
Proof.
  apply (execute_within_flatten sample_lib
           {| query := [("*", QV (VInt 1))];
              support_wildcards := true; support_regex := true |}
           _ "." default_indicator).
  reflexivity.
Defined.

(** A pattern-key that is a plain name, with the operator [eq]: the inner
    loop finds the key, if it is there, and compares its value. *)
Lemma scan_fields_plain lib self k w flat items : forall st,
  prefix "/" k = false -> is_wildcard k = false ->
  NoDup (keys items) ->
  (forall k' v', In (k', v') items -> dict_get flat k' = Some v') ->
  scan_fields lib self k k "eq" (QV w) flat items st
  = Ok (match dict_get items k with
        | Some v => if py_eq v w
                    then (set_add k (fst st), dict_set (snd st) k v)
                    else st
        | None => st
        end).
Proof.
  intros st Hr Hw. revert st.
  induction items as [|[k0 v0] r IH]; intros st Hnd Hin; simpl; [reflexivity|].
  inversion Hnd as [|? ? Hn Hr']; subst.
  unfold hit. rewrite match_plain by assumption.
  rewrite (String.eqb_sym k0 k).
  destruct (k =? k0) eqn:E; simpl.
  - apply String.eqb_eq in E. subst k0.
    unfold operate. rewrite (Hin k v0 (or_introl eq_refl)). simpl.
    rewrite IH; auto.
    + assert (Hnone : dict_get r k = None) by now apply dict_get_none.
      rewrite Hnone. now destruct (py_eq v0 w).
    + intros k' v' H. apply Hin. now right.
  - apply IH; auto. intros k' v' H. apply Hin. now right.
Qed.

(** X8. A query with one plain pattern-key (no ['$'], no leading ['/'], no
    wildcard character) is a lookup with an equality test: it returns the
    pair of that key in the flattened data when the key is there and its
    value equals the expected one, and the empty dictionary otherwise,
    whatever the library and the flags; it never raises. *)
Theorem execute_plain_key lib sw sr k w data sep ind :
  char_in "$" k = false -> prefix "/" k = false -> is_wildcard k = false ->
  execute lib {| query := [(k, QV w)];
                 support_wildcards := sw; support_regex := sr |}
    data sep ind
  = Ok (match dict_get (flatten_dict sep ind data) k with
        | Some v => if py_eq v w then [(k, v)] else []
        | None => []
        end).
Proof.
  intros Hd Hr Hw. unfold execute. cbn [query scan_query].
  rewrite (split_key_plain k Hd). cbn [bind fst snd].
  rewrite scan_fields_plain; auto.
  - cbn [bind fst snd].
    destruct (dict_get (flatten_dict sep ind data) k) as [v|]; simpl.
    + destruct (py_eq v w); simpl.
      * unfold set_eqb, subset. simpl. now rewrite String.eqb_refl.
      * reflexivity.
    + reflexivity.
  - apply flatten_dict_nodup.
  - intros k' v' H. apply dict_get_in; [apply flatten_dict_nodup | exact H].
Qed.

Lemma execute_plain_key_witness :
  execute sample_lib
    {| query := [("d#1.f", QV (VInt 3))];
       support_wildcards := true; support_regex := true |}
    [("a", VDict [("b", VDict [("c", VInt 1)])]);
     ("d", VList [VDict [("e", VInt 2)]; VDict [("f", VInt 3)]])]
    "." default_indicator
  = Ok [("d#1.f", VInt 3)].
Proof.
  exact (execute_plain_key sample_lib true true "d#1.f" (VInt 3)
           [("a", VDict [("b", VDict [("c", VInt 1)])]);
            ("d", VList [VDict [("e", VInt 2)]; VDict [("f", VInt 3)]])]
           "." default_indicator eq_refl eq_refl eq_refl).
Defined.

(** ** The ordering operators *)

Lemma order_Z_complement o a b :
  order_Z (complement o) a b = negb (order_Z o a b).
Proof.
  destruct o; simpl.
  - apply Z.leb_antisym.
  - apply Z.ltb_antisym.
  - apply Z.leb_antisym.
  - apply Z.ltb_antisym.
Qed.

Lemma str_leb_ltb a b : String.leb a b = negb (String.ltb b a).
Proof.
  unfold String.leb, String.ltb. rewrite (String.compare_antisym a b).
  now destruct (String.compare b a).
Qed.

Lemma order_str_complement o a b :
  order_str (complement o) a b = negb (order_str o a b).
Proof.
  destruct o; simpl; rewrite str_leb_ltb; try reflexivity;
    now rewrite negb_involutive.
Qed.

Lemma py_order_complement v : forall w o,
  py_order (complement o) v w = neg_result (py_order o v w) /\
  forall o', returns (py_order o v w) = returns (py_order o' v w).
Proof.
  induction v as [| b | n | s | l IHl | kvs IHd] using value_ind_nested;
    intros w o.
  - destruct w; simpl; auto.
  - destruct w; simpl; auto; now rewrite order_Z_complement.
  - destruct w; simpl; auto; now rewrite order_Z_complement.
  - destruct w; simpl; auto. now rewrite order_str_complement.
  - destruct w as [| | | | m |]; try (simpl; auto; fail).
    revert m. induction l as [|x l' IH]; intros m.
    + destruct m; simpl; split; auto;
        unfold order_nat; now rewrite order_Z_complement.
    + inversion IHl as [|? ? Hx Hl']; subst.
      destruct m as [|y m'].
      * simpl; split; auto. unfold order_nat. now rewrite order_Z_complement.
      * specialize (IH Hl' m'). specialize (Hx y o).
        simpl. simpl in IH. destruct (py_eq x y); [exact IH | exact Hx].
  - destruct w; simpl; auto.
Qed.

(** X9. On values that hold no floating-point number (that is, on every
    [value]: [None], booleans, integers, strings, lists and dictionaries
    of these) the ordering operators agree with each other: [ge] answers
    the opposite of [lt] and [le] the opposite of [gt] wherever they
    answer, and all four raise on exactly the same pairs.  A [float] is
    outside this statement: with [nan] both [>=] and [<] are false. *)
Theorem ordering_operators_complement o v q :
  op_order (complement o) v q = neg_result (op_order o v q) /\
  forall o', returns (op_order o v q) = returns (op_order o' v q).
Proof.
  destruct q as [w| |]; simpl; auto. apply py_order_complement.
Qed.

(** ** More on the reconstructor *)

(** A string in which the separator does not occur is one piece. *)
Lemma split_none sep s : forall cur,
  substr_in sep s = false ->
  split_go sep s 0 cur = [(cur ++ s)%string].
Proof.
  induction s as [|c s IH]; intros cur H.
  - simpl. now rewrite append_empty_r.
  - cbn [substr_in] in H. apply orb_false_iff in H. destruct H as [Hp Hs].
    cbn [split_go]. rewrite Hp, IH by assumption.
    now rewrite append_assoc_str.
Qed.

(** The pieces of a string that ends with a separating character and a
    last piece. *)
Lemma split_char_last c x p : forall cur,
  char_in c x = false ->
  split_go (String c "") (p ++ String c x) 0 cur
  = (split_go (String c "") p 0 cur ++ [x])%list.
Proof.
  intros cur Hx. revert cur.
  induction p as [|c' p IH]; intros cur.
  - simpl append. cbn [split_go]. rewrite prefix_char, Ascii.eqb_refl.
    cbn [String.length Nat.sub]. now rewrite (split_char_none c x "" Hx).
  - simpl append. cbn [split_go]. rewrite !prefix_char.
    destruct (Ascii.eqb c c'); cbn [String.length Nat.sub];
      now rewrite IH.
Qed.

(** X10. [reconstruct_item] never looks at the last component of the key:
    it is dropped before the descent, so two keys that differ only after
    the last separator give the same result, an existing leaf or not; a
    key in which the separator does not occur gives back the item as it
    is; and an empty separator is a [ValueError]. *)
Theorem reconstruct_item_last_component :
  (forall c p x y item ind,
      char_in c x = false -> char_in c y = false ->
      reconstruct_item (p ++ String c x) item (String c "") ind
      = reconstruct_item (p ++ String c y) item (String c "") ind) /\
  (forall key item sep ind,
      substr_in sep key = false ->
      reconstruct_item key item sep ind = Ok item) /\
  (forall key item ind,
      reconstruct_item key item "" ind = Raise ValueError).
Proof.
  split; [|split].
  - intros c p x y item ind Hx Hy.
    unfold reconstruct_item, py_split. cbn [bind].
    rewrite (split_char_last c x p "" Hx), (split_char_last c y p "" Hy).
    unfold drop_last. now rewrite !removelast_last.
  - intros key item sep ind H.
    unfold reconstruct_item, py_split.
    destruct sep as [|c sep']; [now destruct key|].
    cbn [bind]. now rewrite (split_none _ key "" H).
  - reflexivity.
Qed.

Lemma reconstruct_item_last_component_witness :
  reconstruct_item "a.b" (VDict [("a", VDict [("b", VInt 1)])]) "." "#"
  = reconstruct_item "a.zzz" (VDict [("a", VDict [("b", VInt 1)])]) "." "#".
Proof.
  exact (proj1 reconstruct_item_last_component "."%char "a" "b" "zzz"
           (VDict [("a", VDict [("b", VInt 1)])]) "#" eq_refl eq_refl).
Defined.

(** X11. A key whose first component is a name of two or more characters
    ([len] of the name, its characters counted, not its bytes) without
    the index indicator makes [reconstruct_item] raise [IndexError],
    whatever the item: the index is read from the second part of the
    component, which such a component does not have. *)
Theorem reconstruct_item_long_name c comp rest item ind :
  char_in c comp = false ->
  substr_in ind comp = false ->
  (1 < py_len comp)%nat ->
  reconstruct_item (comp ++ String c rest) item (String c "") ind
  = Raise IndexError.
Proof.
  intros Hc Hi Hlen.
  unfold reconstruct_item, py_split. cbn [bind].
  rewrite (split_char_cons c comp rest "" Hc). cbn [append].
  pose proof (split_go_nonempty (String c "") rest 0 "") as Hne.
  destruct (split_go (String c "") rest 0 "") as [|x l]; [congruence|].
  unfold drop_last. cbn [removelast].
  assert (E : reconstruct_loop (comp :: removelast (x :: l)) item ind
              = Raise IndexError).
  { cbn [reconstruct_loop]. unfold py_split.
    destruct ind as [|i ind']; [now destruct comp|].
    cbn [bind]. rewrite (split_none _ comp "" Hi). cbn [append].
    cbn [index_list nth_error bind].
    apply Nat.ltb_lt in Hlen. rewrite Hlen. reflexivity. }
  destruct l; exact E.
Qed.

(** A name of one character that takes two bytes is a one-character
    name: for the name made of the bytes 195 and 169 the index is not
    read and the container is found. *)
Example reconstruct_item_one_character :
  py_len (String "195" (String "169" "")) = 1%nat /\
  reconstruct_item (String "195" (String "169" ".c"))
    (VDict [(String "195" (String "169" ""), VDict [("c", VInt 1)])])
    "." "#"
  = Ok (VDict [("c", VInt 1)]).
Proof. split; reflexivity. Qed.

Lemma reconstruct_item_long_name_witness :
  reconstruct_item "title.text" (VDict [("title", VDict [("text", VStr "x")])])
    "." "#" = Raise IndexError.
Proof.
  apply (reconstruct_item_long_name "."%char "title" "text"); [reflexivity| reflexivity|].
  apply Nat.ltb_lt. reflexivity.
Defined.

(** ** Reading the store back *)

Lemma dict_get_del {A} (d : dict A) k k' :
  dict_get (dict_del d k) k' = if k =? k' then None else dict_get d k'.
Proof.
  induction d as [|[k0 v0] r IH]; simpl.
  - now destruct (k =? k').
  - destruct (k0 =? k) eqn:E.
    + apply String.eqb_eq in E. subst k0. rewrite IH.
      now destruct (k =? k').
    + simpl. rewrite IH. destruct (k =? k') eqn:E'; [|reflexivity].
      apply String.eqb_eq in E'. subst k'. now rewrite E.
Qed.

Lemma dict_del_absent {A} (d : dict A) k : ~ In k (keys d) -> dict_del d k = d.
Proof.
  unfold keys. induction d as [|[k0 v0] r IH]; simpl; intros H; [reflexivity|].
  destruct (k0 =? k) eqn:E.
  - apply String.eqb_eq in E. subst. exfalso. auto.
  - rewrite IH; auto.
Qed.

Lemma dict_mem_in {A} (d : dict A) k : dict_mem d k = true <-> In k (keys d).
Proof.
  unfold dict_mem. destruct (dict_get d k) eqn:E.
  - split; [intros _|reflexivity].
    apply dict_get_some_in in E. change k with (fst (k, a)). now apply in_map.
  - split; [discriminate|]. intros H. now apply dict_get_none in E.
Qed.

(** A non-empty dictionary stored under the id is the entry loaded. *)
Lemma load_entry_dict is_dir bad store t d :
  dict_get store t = Some (VDict d) -> d <> [] ->
  load_entry is_dir bad store t = Ok d.
Proof.
  intros H Hd. unfold load_entry. rewrite H.
  destruct is_dir; [reflexivity|]. destruct d; [congruence | reflexivity].
Qed.

(** Hydrating an entry that [save_tree] wrote changes nothing. *)
Lemma with_meta_written id data cf lf n labels cursor schema created now :
  _with_meta (make_entry id data cf lf n labels cursor schema created now)
  = Ok (make_entry id data cf lf n labels cursor schema created now).
Proof.
  unfold _with_meta, make_entry, get_default. simpl.
  destruct (negb (is_none data) && negb (cf =? "")); reflexivity.
Qed.

(** What [save_tree] returns when it returns. *)
Lemma save_tree_written e is_dir data cf lf tid schema store meta store' :
  save_tree e is_dir data cf lf tid schema store = Ok (meta, store') ->
  exists cursor schema' created,
    let n := _count_nodes data cf in
    let labels := _top_labels data cf lf in
    let id := saved_id e tid in
    meta = make_meta id n labels cursor schema' created (utc_now e) /\
    store' = dict_set store id
               (VDict (make_entry id data cf lf n labels cursor schema'
                         created (utc_now e))).
Proof.
  unfold save_tree. intros H.
  destruct tid as [t|]; simpl in H.
  - destruct (find_existing is_dir store t) as [[ex|]|err]; simpl in H;
      inversion H; subst; do 3 eexists; split; reflexivity.
  - inversion H; subst. do 3 eexists; split; reflexivity.
Qed.

(** X12. What is saved can be read back: after [save_tree] returns,
    [get_tree] under the returned id gives the entry just written, which
    holds the data, the children and label fields as passed, and agrees
    with the returned metadata on every field of it; without the data it
    gives the same entry less its ["data"].  This holds for a directory
    store and for a file store. *)
Theorem save_then_get e is_dir data cf lf tid schema store meta store' :
  save_tree e is_dir data cf lf tid schema store = Ok (meta, store') ->
  dict_get meta "tree_id" = Some (VStr (saved_id e tid)) /\
  exists entry,
    get_tree is_dir store' (saved_id e tid) true = Ok entry /\
    get_tree is_dir store' (saved_id e tid) false
    = Ok (dict_without ["data"] entry) /\
    dict_get (dict_without ["data"] entry) "data" = None /\
    dict_get entry "data" = Some data /\
    dict_get entry "children_field" = Some (VStr cf) /\
    dict_get entry "label_field" = Some (opt_str lf) /\
    Forall (fun k => dict_get entry k = dict_get meta k)
      (keys meta).
Proof.
  intros H. apply save_tree_written in H.
  destruct H as (cursor & schema' & created & Hm & Hs). cbv zeta in Hm, Hs.
  subst meta store'. split; [reflexivity|].
  eexists. unfold get_tree.
  rewrite (load_entry_dict is_dir AttributeError _ _ _
             (dict_get_set_same store _ _)) by discriminate.
  cbn [bind]. rewrite with_meta_written. cbn [bind].
  split; [reflexivity|]. split; [reflexivity|].
  repeat split; try reflexivity.
  repeat constructor.
Qed.

Lemma save_then_get_witness :
  exists entry,
    get_tree false
      [("u-1", VDict (make_entry "u-1" (VDict [("title", VStr "root")])
                        "sections" (Some "title") 1 [] (VList []) VNone
                        (VStr "t0") "t0"))]
      "u-1" true = Ok entry /\
    dict_get entry "data" = Some (VDict [("title", VStr "root")]).
Proof.
  destruct (save_then_get {| utc_now := "t0"; uuid4 := "u-1" |} false
              (VDict [("title", VStr "root")]) "sections" (Some "title")
              None VNone [] _ _ eq_refl)
    as (_ & entry & Hget & _ & _ & Hdata & _).
  exists entry. split; [exact Hget | exact Hdata].
Defined.

(** X13. Saving, moving the cursor of, or deleting one tree leaves every
    other tree of the store as it was: what is stored under another id is
    the same before and after. *)
Theorem store_frame is_dir store t t' :
  t' <> t ->
  (forall e data cf lf tid schema meta store',
      saved_id e tid = t ->
      save_tree e is_dir data cf lf tid schema store = Ok (meta, store') ->
      dict_get store' t' = dict_get store t') /\
  (forall cursor answer store',
      set_cursor is_dir store t cursor = Ok (answer, store') ->
      dict_get store' t' = dict_get store t') /\
  dict_get (snd (delete_tree store t)) t' = dict_get store t'.
Proof.
  intros Hne. split; [|split].
  - intros e data cf lf tid schema meta store' Hid H.
    apply save_tree_written in H.
    destruct H as (cursor & schema' & created & _ & Hs). cbv zeta in Hs.
    subst store'. rewrite Hid. apply dict_get_set_other. congruence.
  - intros cursor answer store' H. unfold set_cursor in H.
    destruct (load_entry is_dir TypeError store t); simpl in H; inversion H.
    apply dict_get_set_other. congruence.
  - unfold delete_tree. destruct (dict_mem store t); simpl; [|reflexivity].
    rewrite dict_get_del.
    assert (E : (t =? t') = false) by (apply String.eqb_neq; congruence).
    now rewrite E.
Qed.

Lemma store_frame_witness :
  dict_get (snd (delete_tree [("a", VDict [("tree_id", VStr "a")]);
                              ("b", VDict [("tree_id", VStr "b")])] "a")) "b"
  = Some (VDict [("tree_id", VStr "b")]).
Proof.
  refine (proj2 (proj2 (store_frame true
            [("a", VDict [("tree_id", VStr "a")]);
             ("b", VDict [("tree_id", VStr "b")])] "a" "b" _))).
  discriminate.
Defined.

Lemma dict_set_nonempty {A} (d : dict A) k v : dict_set d k v <> [].
Proof.
  intros H. apply (f_equal (fun x => dict_get x k)) in H.
  rewrite dict_get_set_same in H. discriminate.
Qed.

(** An entry that is loaded is the dictionary stored under the id. *)
Lemma load_entry_ok is_dir bad store t d :
  load_entry is_dir bad store t = Ok d -> dict_get store t = Some (VDict d).
Proof.
  unfold load_entry.
  destruct (dict_get store t) as [v|]; [|discriminate].
  destruct v as [| b | n | s | l | kvs]; destruct is_dir; simpl;
    try discriminate;
    try (match goal with
         | |- (if ?c then _ else _) = _ -> _ => destruct c; discriminate
         end).
  - intros H. now inversion H.
  - destruct kvs; [discriminate|]. intros H. now inversion H.
Qed.

(** X14. The cursor that is set is the cursor that is read: after
    [set_cursor] returns, [get_cursor] gives the path just stored; the
    answer names the tree and the path; and every other field of the entry
    is as it was. *)
Theorem set_then_get_cursor is_dir store t cursor answer store' :
  set_cursor is_dir store t cursor = Ok (answer, store') ->
  get_cursor is_dir store' t = Ok cursor /\
  answer = [("tree_id", VStr t); ("cursor_path", cursor)] /\
  exists entry entry',
    dict_get store t = Some (VDict entry) /\
    dict_get store' t = Some (VDict entry') /\
    forall k, k <> "cursor_path" -> dict_get entry' k = dict_get entry k.
Proof.
  unfold set_cursor. intros H.
  destruct (load_entry is_dir TypeError store t) as [entry|err] eqn:E;
    simpl in H; inversion H; subst; clear H.
  unfold get_cursor.
  rewrite (load_entry_dict is_dir AttributeError _ _ _
             (dict_get_set_same store _ _)).
  - cbn [bind]. unfold get_default. rewrite dict_get_set_same.
    split; [reflexivity | split; [reflexivity|]].
    exists entry, (dict_set entry "cursor_path" cursor).
    split; [|split].
    + now apply (load_entry_ok is_dir TypeError).
    + apply dict_get_set_same.
    + intros k Hk. apply dict_get_set_other. congruence.
  - apply dict_set_nonempty.
Qed.

Lemma set_then_get_cursor_witness :
  get_cursor true
    [("a", VDict [("tree_id", VStr "a"); ("cursor_path", VList [VInt 1])])]
    "a" = Ok (VList [VInt 1]).
Proof.
  apply (proj1 (set_then_get_cursor true
                  [("a", VDict [("tree_id", VStr "a")])] "a"
                  (VList [VInt 1]) _ _ eq_refl)).
Defined.

Lemma find_existing_dict is_dir store t d :
  dict_get store t = Some (VDict d) -> d <> [] ->
  find_existing is_dir store t = Ok (Some d).
Proof.
  intros H Hd. unfold find_existing. rewrite H.
  destruct d; [congruence | reflexivity].
Qed.

(** X15. The cursor survives a save and starts empty: after [set_cursor]
    returns, saving new data under the same id succeeds and [get_cursor]
    still gives the path that was set, which the returned metadata also
    shows; after a save without an id, or under an id the store does not
    have, [get_cursor] gives the empty path. *)
Theorem cursor_across_save e is_dir data cf lf schema store :
  (forall t cursor answer s1,
      set_cursor is_dir store t cursor = Ok (answer, s1) ->
      exists meta s2,
        save_tree e is_dir data cf lf (Some t) schema s1 = Ok (meta, s2) /\
        get_cursor is_dir s2 t = Ok cursor /\
        dict_get meta "cursor_path" = Some cursor) /\
  (forall tid,
      tid = None \/ (exists t, tid = Some t /\ dict_get store t = None) ->
      exists meta s2,
        save_tree e is_dir data cf lf tid schema store = Ok (meta, s2) /\
        get_cursor is_dir s2 (saved_id e tid) = Ok (VList []) /\
        dict_get meta "cursor_path" = Some (VList [])).
Proof.
  split.
  - intros t cursor answer s1 H. unfold set_cursor in H.
    destruct (load_entry is_dir TypeError store t) as [entry|err] eqn:E;
      simpl in H; inversion H; subst; clear H.
    unfold save_tree.
    rewrite (find_existing_dict is_dir _ t _ (dict_get_set_same store _ _))
      by apply dict_set_nonempty.
    assert (G : get_default (dict_set entry "cursor_path" cursor)
                  "cursor_path" (VList []) = cursor)
      by (unfold get_default; now rewrite dict_get_set_same).
    cbn [bind]. rewrite G.
    do 2 eexists. split; [reflexivity|]. split; [|reflexivity].
    unfold get_cursor.
    rewrite (load_entry_dict is_dir AttributeError _ _ _
               (dict_get_set_same _ _ _)) by discriminate.
    reflexivity.
  - intros tid Hnew.
    assert (S : save_tree e is_dir data cf lf tid schema store
                = Ok (make_meta (saved_id e tid) (_count_nodes data cf)
                        (_top_labels data cf lf) (VList []) schema
                        (VStr (utc_now e)) (utc_now e),
                      dict_set store (saved_id e tid)
                        (VDict (make_entry (saved_id e tid) data cf lf
                                  (_count_nodes data cf)
                                  (_top_labels data cf lf) (VList []) schema
                                  (VStr (utc_now e)) (utc_now e))))).
    { destruct Hnew as [->|(t & -> & Hno)]; unfold save_tree; [reflexivity|].
      unfold find_existing. rewrite Hno. reflexivity. }
    do 2 eexists. split; [exact S|]. split; [|reflexivity].
    unfold get_cursor.
    rewrite (load_entry_dict is_dir AttributeError _ _ _
               (dict_get_set_same _ _ _)) by discriminate.
    reflexivity.
Qed.

Lemma cursor_across_save_witness :
  exists meta s2,
    save_tree {| utc_now := "t1"; uuid4 := "u" |} false
      (VDict [("title", VStr "new")]) "sections" None (Some "a") VNone
      [("a", VDict [("tree_id", VStr "a"); ("cursor_path", VList [VInt 2])])]
    = Ok (meta, s2) /\
    get_cursor false s2 "a" = Ok (VList [VInt 2]) /\
    dict_get meta "cursor_path" = Some (VList [VInt 2]).
Proof.
  apply (proj1 (cursor_across_save {| utc_now := "t1"; uuid4 := "u" |} false
                  (VDict [("title", VStr "new")]) "sections" None VNone
                  [("a", VDict [("tree_id", VStr "a")])])
           "a" (VList [VInt 2]) _ _ eq_refl).
Defined.

(** X16. A deleted tree is gone: [delete_tree] reports whether the id was
    in the store; afterwards [get_tree], [get_cursor] and [set_cursor]
    raise [KeyError] for it in either kind of store, a second
    [delete_tree] reports [False] and changes nothing, and deleting an id
    the store does not have leaves the store as it is. *)
Theorem delete_tree_effect store t :
  fst (delete_tree store t)
  = [("deleted", VBool (dict_mem store t)); ("tree_id", VStr t)] /\
  (forall is_dir include_data,
      get_tree is_dir (snd (delete_tree store t)) t include_data
      = Raise KeyError) /\
  (forall is_dir, get_cursor is_dir (snd (delete_tree store t)) t
                  = Raise KeyError) /\
  (forall is_dir cursor,
      set_cursor is_dir (snd (delete_tree store t)) t cursor
      = Raise KeyError) /\
  delete_tree (snd (delete_tree store t)) t
  = ([("deleted", VBool false); ("tree_id", VStr t)],
     snd (delete_tree store t)) /\
  (dict_mem store t = false -> snd (delete_tree store t) = store).
Proof.
  assert (Hgone : dict_get (snd (delete_tree store t)) t = None).
  { unfold delete_tree. destruct (dict_mem store t) eqn:E; simpl.
    - now rewrite dict_get_del, String.eqb_refl.
    - unfold dict_mem in E. now destruct (dict_get store t). }
  split; [|split; [|split; [|split; [|split]]]].
  - unfold delete_tree. now destruct (dict_mem store t).
  - intros is_dir b. unfold get_tree, load_entry. now rewrite Hgone.
  - intros is_dir. unfold get_cursor, load_entry. now rewrite Hgone.
  - intros is_dir c. unfold set_cursor, load_entry. now rewrite Hgone.
  - unfold delete_tree at 1. unfold dict_mem. now rewrite Hgone.
  - intros H. unfold delete_tree. now rewrite H.
Qed.

(** X17. Deleting undoes a save under a new id: when the store does not
    have the id, saving under it and then deleting it gives back the store
    exactly; so does saving without an id, when the generated id is new. *)
Theorem save_then_delete e is_dir data cf lf tid schema store meta store' :
  ~ In (saved_id e tid) (keys store) ->
  save_tree e is_dir data cf lf tid schema store = Ok (meta, store') ->
  delete_tree store' (saved_id e tid)
  = ([("deleted", VBool true); ("tree_id", VStr (saved_id e tid))], store).
Proof.
  intros Hnew H. apply save_tree_written in H.
  destruct H as (cursor & schema' & created & _ & Hs). cbv zeta in Hs.
  subst store'. unfold delete_tree, dict_mem.
  rewrite dict_get_set_same. f_equal.
  rewrite dict_set_fresh by assumption.
  induction store as [|[k v] r IH]; simpl.
  - now rewrite String.eqb_refl.
  - destruct (k =? saved_id e tid) eqn:E.
    + apply String.eqb_eq in E. exfalso. apply Hnew. now left.
    + f_equal. apply IH. intros Hin. apply Hnew. now right.
Qed.

Lemma save_then_delete_witness :
  delete_tree
    [("a", VDict [("tree_id", VStr "a")]);
     ("b", VDict (make_entry "b" VNone "c" None 0 [] (VList []) VNone
                    (VStr "t1") "t1"))] "b"
  = ([("deleted", VBool true); ("tree_id", VStr "b")],
     [("a", VDict [("tree_id", VStr "a")])]).
Proof.
  apply (save_then_delete {| utc_now := "t1"; uuid4 := "u" |} true VNone "c"
           None (Some "b") VNone [("a", VDict [("tree_id", VStr "a")])]
           (make_meta "b" 0 [] (VList []) VNone (VStr "t1") "t1")).
  - simpl. intros [H|[]]. discriminate.
  - reflexivity.
Defined.

Lemma flatten_dict_leaves_witness :
  is_leaf (VList [VInt 1; VDict []]) = true.
Proof.
  apply (proj2 (flatten_dict_leaves "." default_indicator
                  [("a", VList [VInt 1; VDict []])]) "a").
  simpl. now left.
Defined.

Lemma delete_tree_effect_witness :
  snd (delete_tree [("a", VNone)] "b") = [("a", VNone)].
Proof.
  apply (proj2 (proj2 (proj2 (proj2 (proj2
           (delete_tree_effect [("a", VNone)] "b")))))).
  reflexivity.
Defined.

(** ** The metadata *)

Lemma dict_set_same_value {A} (d : dict A) k v :
  dict_get d k = Some v -> dict_set d k v = d.
Proof.
  induction d as [|[k0 v0] r IH]; simpl; [discriminate|].
  destruct (k0 =? k) eqn:E.
  - intros H. now inversion H.
  - intros H. now rewrite IH.
Qed.

Lemma labels_count l lf :
  (List.length
     (flat_map (fun child =>
                  match child with
                  | VDict c => match dict_get c lf with
                               | Some label => [label]
                               | None => []
                               end
                  | _ => []
                  end) l)
   <= List.length (filter is_dict l))%nat.
Proof.
  induction l as [|x r IH]; simpl; [lia|].
  destruct x; simpl; try exact IH.
  rewrite length_app. destruct (dict_get kvs lf); simpl; lia.
Qed.

Lemma count_children_dicts l cf :
  (List.length (filter is_dict l)
   <= (fix total (l : list value) : nat :=
         match l with
         | [] => O
         | child :: l' => (_count_nodes child cf + total l')%nat
         end) l)%nat.
Proof.
  induction l as [|x r IH]; simpl; [lia|].
  destruct x; simpl; lia.
Qed.

Lemma count_nodes_dict kvs cf :
  _count_nodes (VDict kvs) cf
  = S (match dict_get kvs cf with
       | Some (VList l) =>
           (fix total (l : list value) : nat :=
              match l with
              | [] => O
              | child :: l' => (_count_nodes child cf + total l')%nat
              end) l
       | _ => O
       end).
Proof.
  simpl. f_equal.
  induction kvs as [|[k v] r IH]; simpl; [reflexivity|].
  destruct (k =? cf); [reflexivity | exact IH].
Qed.

(** X18. The two summaries [save_tree] stores are consistent: the node
    count of a dictionary is at least one more than the number of its top
    labels (every labelled child is a node), and what is not a dictionary
    has count zero and no top labels. *)
Theorem count_bounds_labels item cf lf :
  (is_dict item = true ->
   (List.length (_top_labels item cf lf) < _count_nodes item cf)%nat) /\
  (is_dict item = false ->
   _count_nodes item cf = O /\ _top_labels item cf lf = []).
Proof.
  split; intros H.
  - destruct item as [| | | | |kvs]; try discriminate.
    rewrite count_nodes_dict. unfold _top_labels.
    destruct lf as [lf|]; [|simpl; lia].
    destruct (lf =? ""); [simpl; lia|].
    destruct (dict_get kvs cf) as [[| | | | l |]|]; simpl; try lia.
    pose proof (labels_count l lf). pose proof (count_children_dicts l cf).
    simpl in *. lia.
  - destruct item; try discriminate; split; try reflexivity;
      unfold _top_labels; now destruct lf.
Qed.

Lemma count_bounds_labels_witness :
  (List.length
     (_top_labels
        (VDict [("title", VStr "root");
                ("sections", VList [VDict [("title", VStr "a")];
                                    VDict [("title", VStr "b")]])])
        "sections" (Some "title"))
   < _count_nodes
       (VDict [("title", VStr "root");
               ("sections", VList [VDict [("title", VStr "a")];
                                   VDict [("title", VStr "b")]])])
       "sections")%nat.
Proof.
  apply (proj1 (count_bounds_labels _ "sections" (Some "title"))).
  reflexivity.
Defined.

(** X19. Hydrating is idempotent and only fills in: when [_with_meta]
    returns, running it on its result returns that result again; it never
    changes a field other than [count] and [top_labels], and it leaves a
    [count] or [top_labels] that is present and not null as it is. *)
Theorem with_meta_idempotent entry hydrated :
  _with_meta entry = Ok hydrated ->
  _with_meta hydrated = Ok hydrated /\
  (forall k, k <> "count" -> k <> "top_labels" ->
             dict_get hydrated k = dict_get entry k) /\
  (forall v, dict_get entry "count" = Some v -> v <> VNone ->
             dict_get hydrated "count" = Some v) /\
  (forall v, dict_get entry "top_labels" = Some v -> v <> VNone ->
             dict_get hydrated "top_labels" = Some v).
Proof.
  unfold _with_meta. intros H.
  set (data := get_default entry "data" VNone) in *.
  set (cf := get_default entry "children_field" VNone) in *.
  set (lf := get_default entry "label_field" VNone) in *.
  set (c0 := get_default entry "count" VNone) in *.
  set (l0 := get_default entry "top_labels" VNone) in *.
  match type of H with
  | bind ?m _ = _ => destruct m as [[c l]|err] eqn:E; simpl in H; [|discriminate]
  end.
  assert (Hh : hydrated
               = if is_none l
                 then if is_none c then entry else dict_set entry "count" c
                 else dict_set (if is_none c then entry
                                else dict_set entry "count" c) "top_labels" l)
    by (now inversion H).
  clear H.
  assert (Hc : is_none c0 = false -> c = c0).
  { intros Hn. destruct (negb (is_none data) && truthy cf); simpl in E.
    - rewrite Hn in E. simpl in E.
      destruct (if is_none l0 then _ else _); simpl in E; now inversion E.
    - now inversion E. }
  assert (Hl : is_none l0 = false -> l = l0).
  { intros Hn. destruct (negb (is_none data) && truthy cf); simpl in E.
    - rewrite Hn in E.
      destruct (if is_none c0 then _ else _); simpl in E; now inversion E.
    - now inversion E. }
  assert (Hother : forall k, k <> "count" -> k <> "top_labels" ->
             dict_get hydrated k = dict_get entry k).
  { intros k H1 H2. rewrite Hh.
    destruct (is_none l), (is_none c);
      rewrite ?dict_get_set_other by congruence; reflexivity. }
  assert (Hcount : dict_get hydrated "count"
                   = if is_none c then dict_get entry "count" else Some c).
  { rewrite Hh. destruct (is_none l), (is_none c);
      rewrite ?dict_get_set_other by discriminate;
      rewrite ?dict_get_set_same; reflexivity. }
  assert (Hlabels : dict_get hydrated "top_labels"
                    = if is_none l then dict_get entry "top_labels" else Some l).
  { rewrite Hh. destruct (is_none l), (is_none c);
      rewrite ?dict_get_set_same;
      rewrite ?dict_get_set_other by discriminate; reflexivity. }
  split; [|split; [exact Hother | split]].
  - (* idempotent *)
    assert (Gd : get_default hydrated "data" VNone = data)
      by (unfold get_default, data; now rewrite Hother by discriminate).
    assert (Gc : get_default hydrated "children_field" VNone = cf)
      by (unfold get_default, cf; now rewrite Hother by discriminate).
    assert (Gl : get_default hydrated "label_field" VNone = lf)
      by (unfold get_default, lf; now rewrite Hother by discriminate).
    rewrite Gd, Gc, Gl.
    assert (Gc0 : get_default hydrated "count" VNone = c).
    { unfold get_default. rewrite Hcount. destruct (is_none c) eqn:Nc; [|reflexivity].
      fold (get_default entry "count" VNone). fold c0.
      destruct c; try discriminate.
      destruct (is_none c0) eqn:N0; [now destruct c0 | now rewrite <- Hc]. }
    assert (Gl0 : get_default hydrated "top_labels" VNone = l).
    { unfold get_default. rewrite Hlabels. destruct (is_none l) eqn:Nl; [|reflexivity].
      fold (get_default entry "top_labels" VNone). fold l0.
      destruct l; try discriminate.
      destruct (is_none l0) eqn:N0; [now destruct l0 | now rewrite <- Hl]. }
    rewrite Gc0, Gl0.
    assert (E2 : (if negb (is_none data) && truthy cf
                  then count <- (if is_none c
                                 then n <- count_nodes_any data cf ;;
                                      Ok (VInt (Z.of_nat n))
                                 else Ok c) ;;
                       top_labels <- (if is_none l
                                      then x <- top_labels_any data cf lf ;;
                                           Ok (VList x)
                                      else Ok l) ;;
                       Ok (count, top_labels)
                  else Ok (c, l)) = Ok (c, l)).
    { destruct (negb (is_none data) && truthy cf) eqn:B; [|reflexivity].
      simpl in E.
      destruct (is_none c) eqn:Nc.
      - destruct c; try discriminate.
        destruct (is_none c0) eqn:N0.
        + simpl in E. destruct (count_nodes_any data cf); simpl in E; [|discriminate].
          destruct (if is_none l0 then _ else _); simpl in E; inversion E.
        + rewrite <- (Hc eq_refl) in N0. discriminate.
      - destruct (is_none l) eqn:Nl; [|reflexivity].
        destruct l; try discriminate.
        destruct (is_none l0) eqn:N0.
        + destruct (if is_none c0 then _ else _); simpl in E; [|discriminate].
          destruct (top_labels_any data cf lf); simpl in E; inversion E.
        + rewrite <- (Hl eq_refl) in N0. discriminate. }
    rewrite E2. cbn [bind fst snd]. f_equal.
    destruct (is_none c) eqn:Nc; destruct (is_none l) eqn:Nl; try reflexivity.
    + apply dict_set_same_value. rewrite Hlabels, ?Nl. reflexivity.
    + apply dict_set_same_value. rewrite Hcount, ?Nc. reflexivity.
    + rewrite (dict_set_same_value hydrated "count" c)
        by (rewrite Hcount, ?Nc; reflexivity).
      apply dict_set_same_value. rewrite Hlabels, ?Nl. reflexivity.
  - intros v Hv Hn. rewrite Hcount.
    assert (E0 : c0 = v) by (unfold c0, get_default; now rewrite Hv).
    assert (N : is_none v = false) by (destruct v; try reflexivity; now elim Hn).
    rewrite Hc by (now rewrite E0). rewrite E0, N. reflexivity.
  - intros v Hv Hn. rewrite Hlabels.
    assert (E0 : l0 = v) by (unfold l0, get_default; now rewrite Hv).
    assert (N : is_none v = false) by (destruct v; try reflexivity; now elim Hn).
    rewrite Hl by (now rewrite E0). rewrite E0, N. reflexivity.
Qed.

Lemma with_meta_idempotent_witness :
  _with_meta
    [("data", VDict [("sections", VList [VDict [("title", VStr "a")]])]);
     ("children_field", VStr "sections"); ("label_field", VStr "title");
     ("count", VInt 2); ("top_labels", VList [VStr "a"])]
  = Ok [("data", VDict [("sections", VList [VDict [("title", VStr "a")]])]);
        ("children_field", VStr "sections"); ("label_field", VStr "title");
        ("count", VInt 2); ("top_labels", VList [VStr "a"])].
Proof.
  apply (proj1 (with_meta_idempotent
                  [("data", VDict [("sections",
                                    VList [VDict [("title", VStr "a")]])]);
                   ("children_field", VStr "sections");
                   ("label_field", VStr "title")] _ eq_refl)).
Defined.

(** ** Schema normalisation *)

Lemma dict_mem_get {A} (d : dict A) k :
  dict_mem d k = match dict_get d k with Some _ => true | None => false end.
Proof. reflexivity. Qed.

(** The three steps of [_normalize_schema] before the children field is
    looked at, and what they establish. *)
Lemma normalize_steps schema :
  let n1 := if dict_mem schema "$schema" then schema
            else dict_set schema "$schema" (VStr default_schema_uri) in
  let n2 := match dict_get n1 "allow_additional" with
            | Some allow =>
                if dict_mem n1 "additionalProperties"
                then dict_del n1 "allow_additional"
                else dict_set (dict_del n1 "allow_additional")
                       "additionalProperties" allow
            | None => n1
            end in
  let n3 := if dict_mem n2 "properties" then n2
            else dict_set n2 "properties" (VDict []) in
  dict_get n3 "$schema"
  = Some (get_default schema "$schema" (VStr default_schema_uri)) /\
  dict_get n3 "allow_additional" = None /\
  dict_get n3 "additionalProperties"
  = match dict_get schema "additionalProperties" with
    | Some a => Some a
    | None => dict_get schema "allow_additional"
    end /\
  dict_get n3 "properties"
  = Some (get_default schema "properties" (VDict [])) /\
  (forall k, k <> "$schema" -> k <> "allow_additional" ->
             k <> "additionalProperties" -> k <> "properties" ->
             dict_get n3 k = dict_get schema k).
Proof.
  cbv zeta. unfold get_default.
  set (n1 := if dict_mem schema "$schema" then schema
             else dict_set schema "$schema" (VStr default_schema_uri)).
  assert (H1 : forall k, dict_get n1 k
                 = if "$schema" =? k
                   then Some (match dict_get schema "$schema" with
                              | Some v => v
                              | None => VStr default_schema_uri
                              end)
                   else dict_get schema k).
  { intros k. unfold n1, dict_mem. destruct (dict_get schema "$schema") eqn:E.
    - destruct ("$schema" =? k) eqn:Ek; [|reflexivity].
      apply String.eqb_eq in Ek. now subst.
    - apply dict_get_set. }
  set (n2 := match dict_get n1 "allow_additional" with
             | Some allow =>
                 if dict_mem n1 "additionalProperties"
                 then dict_del n1 "allow_additional"
                 else dict_set (dict_del n1 "allow_additional")
                        "additionalProperties" allow
             | None => n1
             end).
  assert (H2 : forall k, dict_get n2 k
                 = if "allow_additional" =? k then None
                   else if "additionalProperties" =? k
                        then match dict_get n1 "additionalProperties" with
                             | Some a => Some a
                             | None => dict_get n1 "allow_additional"
                             end
                        else dict_get n1 k).
  { intros k. unfold n2, dict_mem.
    destruct (dict_get n1 "allow_additional") as [allow|] eqn:Ea.
    - destruct (dict_get n1 "additionalProperties") as [a|] eqn:Ep.
      + rewrite dict_get_del.
        destruct ("allow_additional" =? k) eqn:E1; [reflexivity|].
        destruct ("additionalProperties" =? k) eqn:E2; [|reflexivity].
        apply String.eqb_eq in E2. now subst.
      + rewrite dict_get_set, dict_get_del.
        destruct ("additionalProperties" =? k) eqn:E2.
        * apply String.eqb_eq in E2. subst. reflexivity.
        * now destruct ("allow_additional" =? k).
    - destruct ("allow_additional" =? k) eqn:E1.
      + apply String.eqb_eq in E1. now subst.
      + destruct ("additionalProperties" =? k) eqn:E2; [|reflexivity].
        apply String.eqb_eq in E2. subst.
        now destruct (dict_get n1 "additionalProperties"). }
  set (n3 := if dict_mem n2 "properties" then n2
             else dict_set n2 "properties" (VDict [])).
  assert (H3 : forall k, dict_get n3 k
                 = if "properties" =? k
                   then Some (match dict_get n2 "properties" with
                              | Some v => v
                              | None => VDict []
                              end)
                   else dict_get n2 k).
  { intros k. unfold n3, dict_mem. destruct (dict_get n2 "properties") eqn:E.
    - destruct ("properties" =? k) eqn:Ek; [|reflexivity].
      apply String.eqb_eq in Ek. now subst.
    - apply dict_get_set. }
  repeat split.
  - rewrite ?H3, ?H2, ?H1. reflexivity.
  - rewrite ?H3, ?H2, ?H1. reflexivity.
  - rewrite ?H3, ?H2, ?H1. reflexivity.
  - rewrite ?H3, ?H2, ?H1. reflexivity.
  - intros k K1 K2 K3 K4.
    assert (E1 : ("$schema" =? k) = false) by (apply String.eqb_neq; congruence).
    assert (E2 : ("allow_additional" =? k) = false)
      by (apply String.eqb_neq; congruence).
    assert (E3 : ("additionalProperties" =? k) = false)
      by (apply String.eqb_neq; congruence).
    assert (E4 : ("properties" =? k) = false)
      by (apply String.eqb_neq; congruence).
    rewrite (H3 k), E4. rewrite (H2 k), E2, E3. rewrite (H1 k), E1.
    reflexivity.
Qed.

Lemma normal_schema_fixed n cf :
  normal_schema n cf -> _normalize_schema n cf = Ok n.
Proof.
  intros (H1 & H2 & props & H3 & H4). unfold _normalize_schema.
  rewrite H1, H2.
  assert (M : dict_mem n "properties" = true) by (unfold dict_mem; now rewrite H3).
  rewrite M. unfold get_default. rewrite H3, H4. reflexivity.
Qed.

(** What [_normalize_schema] returns, when it returns. *)
Lemma normalize_schema_returns schema cf n :
  _normalize_schema schema cf = Ok n ->
  dict_get n "$schema"
  = Some (get_default schema "$schema" (VStr default_schema_uri)) /\
  dict_get n "allow_additional" = None /\
  dict_get n "additionalProperties"
  = match dict_get schema "additionalProperties" with
    | Some a => Some a
    | None => dict_get schema "allow_additional"
    end /\
  (forall k, k <> "$schema" -> k <> "allow_additional" ->
             k <> "additionalProperties" -> k <> "properties" ->
             dict_get n k = dict_get schema k) /\
  normal_schema n cf.
Proof.
  pose proof (normalize_steps schema) as S. cbv zeta in S.
  unfold _normalize_schema.
  set (n3 := if dict_mem _ "properties" then _ else _) in *.
  destruct S as (S1 & S2 & S3 & S4 & S5).
  assert (Gn : get_default n3 "properties" (VDict [])
               = get_default schema "properties" (VDict []))
    by (unfold get_default at 1; now rewrite S4).
  intros H. rewrite !Gn in H.
  destruct (py_in (VStr cf) (get_default schema "properties" (VDict [])))
    as [present|err] eqn:P; simpl in H; [|discriminate].
  destruct present.
  - assert (Hn : n = n3) by (now inversion H). rewrite Hn.
    split; [exact S1|]. split; [exact S2|]. split; [exact S3|].
    split; [exact S5|]. split; [|split].
    + unfold dict_mem. now rewrite S1.
    + exact S2.
    + exists (get_default schema "properties" (VDict [])). auto.
  - destruct (get_default schema "properties" (VDict []))
      as [| b | z | s | l | p] eqn:G; simpl in H; try discriminate.
    assert (Hn : n = dict_set n3 "properties"
                       (VDict (dict_set p cf children_schema)))
      by (now inversion H).
    rewrite Hn. rewrite !dict_get_set_other by discriminate.
    split; [exact S1|]. split; [exact S2|]. split; [exact S3|].
    split; [|split; [|split]].
    + intros k K1 K2 K3 K4. rewrite dict_get_set_other by congruence. auto.
    + unfold dict_mem. rewrite dict_get_set_other by discriminate.
      now rewrite S1.
    + rewrite dict_get_set_other by discriminate. exact S2.
    + eexists. split; [apply dict_get_set_same|].
      simpl. unfold dict_mem. now rewrite dict_get_set_same.
Qed.

(** X20. What [_normalize_schema] returns: the result has ["$schema"] (the
    given one, or the 2020-12 default), has no ["allow_additional"], has
    ["additionalProperties"] equal to the given one, or else to the given
    ["allow_additional"]; every other key except ["properties"] is as
    given; and ["properties"] is present and contains the children field.
    When the given ["properties"] is a dictionary, or is missing, the
    call returns, every property already there is kept, and a children
    field already described is left as it is. *)
Theorem normalize_schema_result schema cf :
  (forall n,
      _normalize_schema schema cf = Ok n ->
      dict_get n "$schema"
      = Some (get_default schema "$schema" (VStr default_schema_uri)) /\
      dict_get n "allow_additional" = None /\
      dict_get n "additionalProperties"
      = match dict_get schema "additionalProperties" with
        | Some a => Some a
        | None => dict_get schema "allow_additional"
        end /\
      (forall k, k <> "$schema" -> k <> "allow_additional" ->
                 k <> "additionalProperties" -> k <> "properties" ->
                 dict_get n k = dict_get schema k) /\
      exists properties,
        dict_get n "properties" = Some properties /\
        py_in (VStr cf) properties = Ok true) /\
  (forall p,
      get_default schema "properties" (VDict []) = VDict p ->
      exists n p',
        _normalize_schema schema cf = Ok n /\
        dict_get n "properties" = Some (VDict p') /\
        dict_get p' cf
        = Some (match dict_get p cf with
                | Some described => described
                | None => children_schema
                end) /\
        forall k, k <> cf -> dict_get p' k = dict_get p k).
Proof.
  split.
  - intros n H. apply normalize_schema_returns in H.
    destruct H as (H1 & H2 & H3 & H4 & _ & _ & H5). auto.
  - pose proof (normalize_steps schema) as S. cbv zeta in S.
    unfold _normalize_schema.
    set (n3 := if dict_mem _ "properties" then _ else _) in *.
    destruct S as (S1 & S2 & S3 & S4 & S5).
    assert (Gn : get_default n3 "properties" (VDict [])
                 = get_default schema "properties" (VDict []))
      by (unfold get_default at 1; now rewrite S4).
    intros p G. rewrite !Gn, G. simpl.
    unfold dict_mem. destruct (dict_get p cf) as [described|] eqn:E.
    + exists n3, p. split; [reflexivity|]. rewrite S4, G. auto.
    + eexists. exists (dict_set p cf children_schema).
      split; [reflexivity|]. split; [apply dict_get_set_same|].
      split; [apply dict_get_set_same|].
      intros k K. apply dict_get_set_other. congruence.
Qed.

Lemma normalize_schema_result_witness :
  exists n p',
    _normalize_schema
      [("type", VStr "object"); ("allow_additional", VBool false);
       ("properties", VDict [("title", VDict [("type", VStr "string")])])]
      "sections" = Ok n /\
    dict_get n "properties" = Some (VDict p') /\
    dict_get p' "sections" = Some children_schema /\
    forall k, k <> "sections" ->
              dict_get p' k
              = dict_get [("title", VDict [("type", VStr "string")])] k.
Proof.
  apply (proj2 (normalize_schema_result
                  [("type", VStr "object"); ("allow_additional", VBool false);
                   ("properties",
                    VDict [("title", VDict [("type", VStr "string")])])]
                  "sections")
           [("title", VDict [("type", VStr "string")])]).
  reflexivity.
Defined.

(** X21. Normalising is idempotent: whenever [_normalize_schema] returns
    a schema, normalising that schema again for the same children field
    returns it unchanged. *)
Theorem normalize_schema_idempotent schema cf n :
  _normalize_schema schema cf = Ok n ->
  _normalize_schema n cf = Ok n.
Proof.
  intros H. apply normal_schema_fixed.
  now apply (normalize_schema_returns schema cf).
Qed.

Lemma normalize_schema_idempotent_witness :
  _normalize_schema [("type", VStr "object")] "sections"
  = Ok [("type", VStr "object"); ("$schema", VStr default_schema_uri);
        ("properties", VDict [("sections", children_schema)])] /\
  _normalize_schema
    [("type", VStr "object"); ("$schema", VStr default_schema_uri);
     ("properties", VDict [("sections", children_schema)])] "sections"
  = Ok [("type", VStr "object"); ("$schema", VStr default_schema_uri);
        ("properties", VDict [("sections", children_schema)])].
Proof.
  split; [reflexivity|].
  apply (normalize_schema_idempotent [("type", VStr "object")] "sections").
  reflexivity.
Defined.

(** ** Queries that cannot raise, and the query that keeps everything *)

Lemma set_add_twice k s : set_add k (set_add k s) = set_add k s.
Proof.
  unfold set_add at 1.
  assert (H : existsb (String.eqb k) (set_add k s) = true).
  { apply existsb_exists. exists k. split; [|apply String.eqb_refl].
    apply in_set_add. now left. }
  now rewrite H.
Qed.

(** When every flat key of [items] passes the test, the inner loop records
    the pattern-key and stores every pair. *)
Lemma scan_fields_all lib self q main op x flat items : forall st,
  (forall k v, In (k, v) items -> hit lib self main op x flat k = Ok true) ->
  scan_fields lib self q main op x flat items st
  = Ok (match items with [] => fst st | _ => set_add q (fst st) end,
        dict_update (snd st) items).
Proof.
  induction items as [|[k v] r IH]; intros st H; simpl.
  - now destruct st.
  - rewrite (H k v (or_introl eq_refl)). simpl.
    rewrite IH by (intros k' v' Hin; apply (H k' v'); now right).
    simpl. destruct r; [reflexivity|]. now rewrite set_add_twice.
Qed.

(** X22. A query whose pattern-keys are all compared literally (the
    classifier of each shape is switched off or the key has not that shape)
    and whose operators are among [eq], [ne], [is], [type], [exists] or
    are not in the table at all never makes [execute] raise, on any data
    and with any library. *)
Theorem execute_literal_total lib self data sep ind :
  (forall q_key q_value main op,
      In (q_key, q_value) (query self) ->
      split_key q_key = Ok (main, op) ->
      support_regex self && is_regex main = false /\
      support_wildcards self && is_wildcard main = false /\
      (In op ["eq"; "ne"; "is"; "type"; "exists"] \/
       ~ In op known_operators)) ->
  exists r, execute lib self data sep ind = Ok r.
Proof.
  intros H. apply execute_total.
  intros q_key q_value k v Hq Hk. unfold key_test.
  destruct (split_key_total q_key) as [[main op] E]. rewrite E. simpl.
  destruct (H _ _ _ _ Hq E) as (R & W & O).
  unfold hit, match_, match_regex, match_wildcards. rewrite R, W. simpl.
  destruct (main =? k); simpl; [|eauto].
  unfold operate.
  destruct (dict_get (flatten_dict sep ind data) k) as [leaf|]; [|eauto].
  destruct O as [O|O].
  - simpl in O.
    destruct O as [<-|[<-|[<-|[<-|[<-|[]]]]]]; simpl;
      unfold op_eq, op_ne, op_is, op_type, op_exists; eauto;
      destruct q_value; eauto.
  - rewrite (operator_unknown lib op O). eauto.
Qed.

Lemma execute_literal_total_witness :
  exists r,
    execute sample_lib
      {| query := [("a.b.c", QV (VInt 1)); ("d#0.e$type", QV (VStr "int"));
                   ("x$almost", QV VNone)];
         support_wildcards := true; support_regex := true |}
      [("a", VDict [("b", VDict [("c", VInt 1)])]);
       ("d", VList [VDict [("e", VInt 2)]; VDict [("f", VInt 3)]])]
      "." default_indicator = Ok r.
Proof.
  apply execute_literal_total.
  intros q_key q_value main op Hq E. simpl in Hq.
  destruct Hq as [Hq|[Hq|[Hq|[]]]]; inversion Hq; subst q_key q_value;
    vm_compute in E; inversion E; subst main op.
  - split; [reflexivity|]. split; [reflexivity|]. left. simpl. auto.
  - split; [reflexivity|]. split; [reflexivity|]. left. simpl. auto 6.
  - split; [reflexivity|]. split; [reflexivity|]. right.
    intros K. simpl in K.
    repeat (destruct K as [K|K]; [discriminate|]). exact K.
Defined.

(** X23. A query with one pattern-key whose pattern matches every flat key
    and whose operator is [exists] returns the whole flattened data, order
    included, whatever the expected value is. *)
Theorem execute_match_all lib self data sep ind q main x :
  query self = [(q, x)] ->
  split_key q = Ok (main, "exists") ->
  (forall k, In k (keys (flatten_dict sep ind data)) ->
             match_ lib self main k = Ok true) ->
  execute lib self data sep ind = Ok (flatten_dict sep ind data).
Proof.
  intros Hq Hs Hm. unfold execute. rewrite Hq. cbn [scan_query keys map fst].
  rewrite Hs. cbn [bind fst snd].
  set (flat := flatten_dict sep ind data) in *.
  assert (Hnd : NoDup (keys flat)) by apply flatten_dict_nodup.
  rewrite scan_fields_all.
  - cbn [bind fst snd]. rewrite dict_update_nil by exact Hnd.
    destruct flat as [|kv r]; [reflexivity|].
    unfold set_eqb, subset, set_add. simpl. now rewrite String.eqb_refl.
  - intros k v Hin. unfold hit.
    rewrite (Hm k) by (change k with (fst (k, v)); now apply in_map).
    simpl. unfold operate. now rewrite (dict_get_in flat k v Hnd Hin).
Qed.

Lemma execute_match_all_witness :
  execute sample_lib
    {| query := [("*$exists", QV VNone)];
       support_wildcards := true; support_regex := true |}
    [("a", VDict [("b", VDict [("c", VInt 1)])]);
     ("d", VList [VDict [("e", VInt 2)]; VDict [("f", VInt 3)]])]
    "." default_indicator
  = Ok [("a.b.c", VInt 1); ("d#0.e", VInt 2); ("d#1.f", VInt 3)].
Proof.
  apply (execute_match_all sample_lib
           {| query := [("*$exists", QV VNone)];
              support_wildcards := true; support_regex := true |}
           [("a", VDict [("b", VDict [("c", VInt 1)])]);
            ("d", VList [VDict [("e", VInt 2)]; VDict [("f", VInt 3)]])]
           "." default_indicator
           "*$exists" "*" (QV VNone)); [reflexivity | reflexivity |].
  intros k Hk. simpl in Hk.
  destruct Hk as [<-|[<-|[<-|[]]]]; reflexivity.
Defined.

(** ** Store maintenance *)

Lemma dict_del_filter {A} (d : dict A) k :
  dict_del d k = filter (fun kv => negb (fst kv =? k)) d.
Proof.
  induction d as [|[k0 v0] r IH]; simpl; [reflexivity|].
  destruct (k0 =? k); simpl; now rewrite IH.
Qed.

Lemma fold_del_without {A} ks : forall d : dict A,
  fold_left dict_del ks d = dict_without ks d.
Proof.
  unfold dict_without.
  induction ks as [|k r IH]; intros d; simpl.
  - induction d as [|kv d IHd]; simpl; [reflexivity | now rewrite <- IHd].
  - rewrite IH, dict_del_filter.
    induction d as [|kv d IHd]; simpl; [reflexivity|].
    destruct (fst kv =? k); simpl; [exact IHd|].
    destruct (existsb (String.eqb (fst kv)) r); simpl; now rewrite IHd.
Qed.

Lemma to_delete_in trees k :
  In k (to_delete_of trees) <->
  exists entry, In (k, entry) trees /\ lacks_tree_id entry = true.
Proof.
  induction trees as [|[k0 v0] r IH]; simpl.
  - split; [intros [] | intros (? & [] & _)].
  - destruct (lacks_tree_id v0) eqn:E; simpl; rewrite IH; split.
    + intros [<-|(entry & H & L)]; [exists v0; auto | exists entry; auto].
    + intros (entry & [H|H] & L);
        [inversion H; auto | right; exists entry; auto].
    + intros (entry & H & L). exists entry; auto.
    + intros (entry & [H|H] & L); [|exists entry; auto].
      inversion H; subst. congruence.
Qed.

(** With distinct ids, pruning keeps exactly the entries that have a
    [tree_id], in their order. *)
Lemma prune_is_filter trees :
  NoDup (keys trees) ->
  fold_left dict_del (to_delete_of trees) trees
  = filter (fun kv => negb (lacks_tree_id (snd kv))) trees.
Proof.
  intros Hnd. rewrite fold_del_without. unfold dict_without.
  apply filter_ext_in. intros [k v] Hin. simpl. f_equal.
  destruct (lacks_tree_id v) eqn:L.
  - apply existsb_exists. exists k. split; [|apply String.eqb_refl].
    apply to_delete_in. exists v; auto.
  - destruct (existsb (String.eqb k) (to_delete_of trees)) eqn:E;
      [|reflexivity].
    apply existsb_exists in E. destruct E as (k' & Hk & E).
    apply String.eqb_eq in E. subst k'.
    apply to_delete_in in Hk. destruct Hk as (entry & Hin' & L').
    rewrite (nodup_keys_functional trees k v entry Hnd Hin Hin') in L.
    congruence.
Qed.

(** Whatever pruning leaves has a [tree_id]. *)
Lemma pruned_entries_valid trees k v :
  In (k, v) (fold_left dict_del (to_delete_of trees) trees) ->
  In (k, v) trees /\ lacks_tree_id v = false.
Proof.
  rewrite fold_del_without. unfold dict_without. intros H.
  apply filter_In in H. destruct H as [Hin H]. simpl in H.
  split; [exact Hin|].
  destruct (lacks_tree_id v) eqn:L; [|reflexivity].
  assert (E : existsb (String.eqb k) (to_delete_of trees) = true).
  { apply existsb_exists. exists k. split; [|apply String.eqb_refl].
    apply to_delete_in. exists v; auto. }
  now rewrite E in H.
Qed.

Lemma valid_entries_clean trees :
  (forall k v, In (k, v) trees -> lacks_tree_id v = false) ->
  to_delete_of trees = [] /\ entry_errors trees = [].
Proof.
  induction trees as [|[k v] r IH]; intros H; simpl; [auto|].
  assert (L : lacks_tree_id v = false) by (apply (H k v); now left).
  rewrite L.
  assert (D : is_dict v = true) by (destruct v; try discriminate; reflexivity).
  rewrite D. simpl. apply IH. intros k' v' Hin. apply (H k' v'). now right.
Qed.

Lemma errors_count trees :
  List.length (entry_errors trees) = List.length (to_delete_of trees).
Proof.
  induction trees as [|[k v] r IH]; simpl; [reflexivity|].
  destruct v; simpl; try now rewrite IH.
  destruct (negb (dict_mem kvs "tree_id")); simpl; now rewrite IH.
Qed.

Lemma kept_count trees :
  (List.length (filter (fun kv => negb (lacks_tree_id (snd kv))) trees)
   + List.length (to_delete_of trees))%nat = List.length trees.
Proof.
  induction trees as [|[k v] r IH]; simpl; [reflexivity|].
  destruct (lacks_tree_id v); simpl; lia.
Qed.

Lemma dict_mem_setdefault d k k' v :
  dict_mem (setdefault d k v) k' = (k =? k') || dict_mem d k'.
Proof.
  unfold setdefault. destruct (dict_mem d k) eqn:M.
  - destruct (k =? k') eqn:E; [|reflexivity].
    apply String.eqb_eq in E. now subst.
  - unfold dict_mem. rewrite dict_get_set.
    now destruct (k =? k').
Qed.

(** What [_load_store] returns has a version and a dictionary of trees. *)
Lemma load_store_shape file store :
  _load_store file = Loaded store ->
  dict_mem store "version" = true /\
  exists trees, dict_get store "trees" = Some (VDict trees).
Proof.
  destruct file as [[|m|v]|]; simpl; intros H;
    try (inversion H; subst; split; [reflexivity | now exists []]);
    try discriminate.
  destruct v as [| | | | |data]; try discriminate.
  destruct (dict_get (setdefault (setdefault data "version" (VInt 1))
                        "trees" (VDict [])) "trees")
    as [[| | | | |trees]|] eqn:E; try discriminate.
  inversion H; subst. split; [|now exists trees].
  rewrite !dict_mem_setdefault. simpl. reflexivity.
Qed.

(** A store with a version and a dictionary of trees is loaded as it is. *)
Lemma load_store_written store trees :
  dict_mem store "version" = true ->
  _load_store (Some (Parsed (VDict (dict_set store "trees" (VDict trees)))))
  = Loaded (dict_set store "trees" (VDict trees)).
Proof.
  intros V. simpl.
  assert (V' : dict_mem (dict_set store "trees" (VDict trees)) "version"
               = true).
  { unfold dict_mem in *. now rewrite dict_get_set_other by discriminate. }
  assert (T' : dict_mem (dict_set store "trees" (VDict trees)) "trees"
               = true).
  { unfold dict_mem. now rewrite dict_get_set_same. }
  unfold setdefault. rewrite V', T'. now rewrite dict_get_set_same.
Qed.

Lemma dict_get_filter_nodup (P : value -> bool) (d : dict value) k :
  NoDup (keys d) ->
  dict_get (filter (fun kv => P (snd kv)) d) k
  = match dict_get d k with
    | Some v => if P v then Some v else None
    | None => None
    end.
Proof.
  induction d as [|[k0 v0] r IH]; simpl; intros Hnd; [reflexivity|].
  inversion Hnd as [|? ? Hn Hr]; subst.
  destruct (k0 =? k) eqn:E.
  - apply String.eqb_eq in E. subst k0.
    destruct (P v0); simpl; [now rewrite String.eqb_refl|].
    rewrite (IH Hr).
    assert (N : dict_get r k = None) by now apply dict_get_none.
    now rewrite N.
  - destruct (P v0); simpl; [rewrite E|]; exact (IH Hr).
Qed.

(** The two tools on a file store that loads. *)
Lemma prune_file_loaded path file store trees :
  _load_store file = Loaded store ->
  dict_get store "trees" = Some (VDict trees) ->
  _validate_file_store path file
  = Ok [("store_path", VStr path); ("mode", VStr "file");
        ("tree_count", VInt (Z.of_nat (List.length trees)));
        ("errors", VList (entry_errors trees))] /\
  exists file' store',
    _prune_file_store path file
    = Ok ([("store_path", VStr path); ("mode", VStr "file");
           ("removed_entries",
            VInt (Z.of_nat (List.length (to_delete_of trees))));
           ("errors", VList [])], file') /\
    _load_store file' = Loaded store' /\
    dict_get store' "trees"
    = Some (VDict (fold_left dict_del (to_delete_of trees) trees)) /\
    (forall k, k <> "trees" -> dict_get store' k = dict_get store k).
Proof.
  intros L T. unfold _validate_file_store, _prune_file_store, get_default.
  rewrite L, T. split; [reflexivity|].
  destruct (to_delete_of trees) as [|t ts] eqn:D.
  - exists file, store. simpl. auto.
  - eexists. eexists. split; [reflexivity|].
    destruct (load_store_shape file store L) as [V _].
    split; [apply (load_store_written store _ V)|].
    split; [apply dict_get_set_same|].
    intros k K. apply dict_get_set_other. congruence.
Qed.

(** X24. Validating and pruning a file store never raise.  When the store
    does not load, both report the loader's error and pruning leaves the
    file as it is.  When it loads, validating counts all entries, pruning
    removes as many entries as validating reports errors, and validating
    the pruned store reports no error; with distinct ids its tree count is
    the old one less the number removed. *)
Theorem prune_file_removes_reported path file :
  exists vreport preport file' vreport',
    _validate_file_store path file = Ok vreport /\
    _prune_file_store path file = Ok (preport, file') /\
    _validate_file_store path file' = Ok vreport' /\
    (forall message,
        _load_store file = LoadError message ->
        file' = file /\
        dict_get vreport "errors"
        = Some (VList [VDict [("path", VStr path);
                              ("error", VStr message)]]) /\
        dict_get preport "errors" = dict_get vreport "errors" /\
        dict_get preport "removed_entries" = Some (VInt 0)) /\
    (forall store trees,
        _load_store file = Loaded store ->
        dict_get store "trees" = Some (VDict trees) ->
        dict_get vreport "tree_count"
        = Some (VInt (Z.of_nat (List.length trees))) /\
        dict_get preport "errors" = Some (VList []) /\
        dict_get vreport' "errors" = Some (VList []) /\
        exists errs,
          dict_get vreport "errors" = Some (VList errs) /\
          dict_get preport "removed_entries"
          = Some (VInt (Z.of_nat (List.length errs))) /\
          (NoDup (keys trees) ->
           dict_get vreport' "tree_count"
           = Some (VInt (Z.of_nat (List.length trees
                                   - List.length errs))))).
Proof.
  destruct (_load_store file) as [store|message] eqn:L.
  - destruct (load_store_shape file store L) as [V [trees T]].
    destruct (prune_file_loaded path file store trees L T)
      as (Hv & file' & store' & Hp & L' & T' & _).
    destruct (prune_file_loaded path file' store' _ L' T') as (Hv' & _).
    assert (Hclean : entry_errors
                       (fold_left dict_del (to_delete_of trees) trees) = []).
    { apply valid_entries_clean. intros k v Hin.
      now apply pruned_entries_valid in Hin. }
    do 4 eexists. split; [exact Hv|]. split; [exact Hp|].
    split; [exact Hv'|]. split; [discriminate|].
    intros store0 trees0 E T0. inversion E; subst store0.
    rewrite T in T0. inversion T0; subst trees0.
    split; [reflexivity|]. split; [reflexivity|].
    split; [simpl; now rewrite Hclean|].
    exists (entry_errors trees). split; [reflexivity|].
    split; [simpl; now rewrite errors_count|].
    intros Hnd. simpl. rewrite (prune_is_filter trees Hnd).
    pose proof (kept_count trees) as C. rewrite errors_count.
    do 3 f_equal. lia.
  - unfold _validate_file_store, _prune_file_store. rewrite L.
    do 4 eexists. split; [reflexivity|]. split; [reflexivity|].
    rewrite L. split; [reflexivity|]. split; [|discriminate].
    intros m E. inversion E; subst m. simpl. auto.
Qed.

Lemma prune_file_removes_reported_witness :
  exists vreport preport file' vreport',
    _validate_file_store "store.json"
      (Some (Parsed (VDict [("trees",
         VDict [("a", VDict [("tree_id", VStr "a")]);
                ("b", VInt 1);
                ("c", VDict [("data", VNone)])])]))) = Ok vreport /\
    _prune_file_store "store.json"
      (Some (Parsed (VDict [("trees",
         VDict [("a", VDict [("tree_id", VStr "a")]);
                ("b", VInt 1);
                ("c", VDict [("data", VNone)])])])))
    = Ok (preport, file') /\
    _validate_file_store "store.json" file' = Ok vreport' /\
    dict_get preport "removed_entries" = Some (VInt 2) /\
    dict_get vreport' "errors" = Some (VList []) /\
    dict_get vreport' "tree_count" = Some (VInt 1).
Proof.
  destruct (prune_file_removes_reported "store.json"
              (Some (Parsed (VDict [("trees",
                 VDict [("a", VDict [("tree_id", VStr "a")]);
                        ("b", VInt 1);
                        ("c", VDict [("data", VNone)])])]))))
    as (vreport & preport & file' & vreport' & Hv & Hp & Hv' & _ & H).
  exists vreport, preport, file', vreport'.
  split; [exact Hv|]. split; [exact Hp|]. split; [exact Hv'|].
  destruct (H _ _ eq_refl eq_refl) as (_ & _ & He & errs & Hr & Hn & Hc).
  vm_compute in Hv. inversion Hv; subst vreport.
  simpl in Hr. inversion Hr; subst errs.
  split; [exact Hn|]. split; [exact He|].
  apply Hc. repeat constructor; simpl; intuition discriminate.
Defined.

(** X25. Pruning a file store is idempotent and touches nothing valid:
    pruning the pruned store removes nothing and leaves the file as it is;
    and when the store loads with distinct ids, the pruned store loads,
    every entry that is a dictionary with a [tree_id] is still under its
    id as it was, every other entry is gone, and every other field of the
    store is unchanged. *)
Theorem prune_file_idempotent path file preport file' :
  _prune_file_store path file = Ok (preport, file') ->
  (exists preport',
      _prune_file_store path file' = Ok (preport', file') /\
      dict_get preport' "removed_entries" = Some (VInt 0)) /\
  (forall store trees,
      _load_store file = Loaded store ->
      dict_get store "trees" = Some (VDict trees) ->
      NoDup (keys trees) ->
      exists store' trees',
        _load_store file' = Loaded store' /\
        dict_get store' "trees" = Some (VDict trees') /\
        (forall k, k <> "trees" -> dict_get store' k = dict_get store k) /\
        (forall tree_id,
            dict_get trees' tree_id
            = match dict_get trees tree_id with
              | Some entry =>
                  if lacks_tree_id entry then None else Some entry
              | None => None
              end)).
Proof.
  intros Hrun.
  destruct (_load_store file) as [store|message] eqn:L.
  - destruct (load_store_shape file store L) as [V [trees T]].
    destruct (prune_file_loaded path file store trees L T)
      as (_ & file1 & store' & Hp & L' & T' & F).
    rewrite Hp in Hrun. inversion Hrun; subst preport file1. clear Hrun.
    split.
    + destruct (prune_file_loaded path file' store' _ L' T')
        as (_ & file2 & store2 & Hp' & _).
      assert (D : to_delete_of
                    (fold_left dict_del (to_delete_of trees) trees) = []).
      { apply valid_entries_clean. intros k v Hin.
        now apply pruned_entries_valid in Hin. }
      unfold _prune_file_store, get_default in Hp' |- *.
      rewrite L', T' in Hp' |- *. rewrite D in Hp' |- *.
      eexists. split; reflexivity.
    + intros store0 trees0 E T0 Hnd. inversion E; subst store0.
      rewrite T in T0. inversion T0; subst trees0.
      exists store', (fold_left dict_del (to_delete_of trees) trees).
      split; [exact L'|]. split; [exact T'|]. split; [exact F|].
      intros tree_id. rewrite (prune_is_filter trees Hnd).
      rewrite (dict_get_filter_nodup (fun v => negb (lacks_tree_id v)))
        by exact Hnd.
      destruct (dict_get trees tree_id) as [entry|]; [|reflexivity].
      now destruct (lacks_tree_id entry).
  - unfold _prune_file_store in Hrun. rewrite L in Hrun.
    inversion Hrun; subst preport file'. clear Hrun.
    split; [|discriminate].
    unfold _prune_file_store. rewrite L. eexists. split; reflexivity.
Qed.

Lemma prune_file_idempotent_witness :
  exists preport',
    _prune_file_store "store.json"
      (Some (Parsed (VDict [("version", VInt 1);
         ("trees", VDict [("a", VDict [("tree_id", VStr "a")])])])))
    = Ok (preport',
          Some (Parsed (VDict [("version", VInt 1);
            ("trees", VDict [("a", VDict [("tree_id", VStr "a")])])]))) /\
    dict_get preport' "removed_entries" = Some (VInt 0).
Proof.
  apply (proj1 (prune_file_idempotent "store.json"
                  (Some (Parsed (VDict [("version", VInt 1);
                     ("trees", VDict [("a", VDict [("tree_id", VStr "a")]);
                                      ("b", VList [])])])))
                  [("store_path", VStr "store.json"); ("mode", VStr "file");
                   ("removed_entries", VInt 1); ("errors", VList [])]
                  (Some (Parsed (VDict [("version", VInt 1);
                     ("trees", VDict [("a", VDict [("tree_id", VStr "a")])])])))
                  eq_refl)).
Defined.




(** X27. What [save_tree] writes survives maintenance of a file store:
    when the ids of the store are distinct, pruning the store as written
    keeps the entry just saved, so that [get_tree] still returns it. *)
Theorem saved_entry_survives_prune e data cf lf tid schema trees meta trees'
  path rest :
  save_tree e false data cf lf tid schema trees = Ok (meta, trees') ->
  NoDup (keys trees) ->
  dict_mem rest "version" = true ->
  exists report file' store' kept,
    _prune_file_store path
      (Some (Parsed (VDict (dict_set rest "trees" (VDict trees')))))
    = Ok (report, file') /\
    _load_store file' = Loaded store' /\
    dict_get store' "trees" = Some (VDict kept) /\
    (exists entry,
        dict_get trees' (saved_id e tid) = Some (VDict entry) /\
        dict_get kept (saved_id e tid) = Some (VDict entry)) /\
    get_tree false kept (saved_id e tid) true
    = get_tree false trees' (saved_id e tid) true.
Proof.
  intros Hs Hnd V.
  destruct (save_tree_written _ _ _ _ _ _ _ _ _ _ Hs)
    as (cursor & schema' & created & Hm & Ht).
  cbv zeta in Hm, Ht.
  assert (Hnd' : NoDup (keys trees'))
    by (rewrite Ht; now apply keys_set_nodup).
  pose proof (load_store_written rest trees' V) as L.
  destruct (prune_file_loaded path _ _ trees' L (dict_get_set_same _ _ _))
    as (_ & file' & store' & Hp & L' & T' & _).
  assert (G : dict_get (fold_left dict_del (to_delete_of trees') trees')
                (saved_id e tid)
              = dict_get trees' (saved_id e tid)).
  { rewrite (prune_is_filter trees' Hnd').
    rewrite (dict_get_filter_nodup (fun v => negb (lacks_tree_id v)))
      by exact Hnd'.
    rewrite Ht, dict_get_set_same. reflexivity. }
  do 4 eexists. split; [exact Hp|]. split; [exact L'|].
  split; [exact T'|]. split.
  - eexists. split; [|rewrite G]; rewrite Ht; apply dict_get_set_same.
  - unfold get_tree, load_entry. now rewrite G.
Qed.

Lemma saved_entry_survives_prune_witness :
  exists report file' store' kept,
    _prune_file_store "store.json"
      (Some (Parsed (VDict (dict_set [("version", VInt 1)] "trees"
         (VDict (dict_set [("old", VInt 0)] "t1"
            (VDict (make_entry "t1" (VDict [("title", VStr "root")])
                      "sections" (Some "title") 1 [] (VList []) VNone
                      (VStr "now") "now"))))))))
    = Ok (report, file') /\
    _load_store file' = Loaded store' /\
    dict_get store' "trees" = Some (VDict kept) /\
    get_tree false kept "t1" true
    = get_tree false
        (dict_set [("old", VInt 0)] "t1"
           (VDict (make_entry "t1" (VDict [("title", VStr "root")])
                     "sections" (Some "title") 1 [] (VList []) VNone
                     (VStr "now") "now")))
        "t1" true.
Proof.
  destruct (saved_entry_survives_prune
              {| uuid4 := "u"; utc_now := "now" |}
              (VDict [("title", VStr "root")]) "sections" (Some "title")
              (Some "t1") VNone [("old", VInt 0)]
              _ _ "store.json" [("version", VInt 1)] eq_refl)
    as (report & file' & store' & kept & Hp & L & T & _ & G).
  - repeat constructor. simpl. intuition.
  - reflexivity.
  - exists report, file', store', kept. auto.
Defined.

(** ** Saving through the tool layer *)

(** [_with_meta] changes no field but [count] and [top_labels]. *)
Lemma with_meta_frame entry hydrated k :
  _with_meta entry = Ok hydrated ->
  k <> "count" -> k <> "top_labels" ->
  dict_get hydrated k = dict_get entry k.
Proof.
  unfold _with_meta. intros H K1 K2.
  destruct (if negb (is_none (get_default entry "data" VNone)) &&
               truthy (get_default entry "children_field" VNone)
            then _ else _) as [[c l]|err]; simpl in H; [|discriminate].
  inversion H; subst hydrated. clear H.
  destruct (is_none c), (is_none l);
    rewrite ?dict_get_set_other by congruence; reflexivity.
Qed.

(** The schema [save_tree] stores when none is passed is the one of the
    entry it finds. *)
Lemma save_tree_inherits e is_dir data cf lf t store d :
  dict_get store t = Some (VDict d) ->
  save_tree e is_dir data cf lf (Some t) (get_default d "schema" VNone) store
  = save_tree e is_dir data cf lf (Some t) VNone store.
Proof.
  intros G. unfold save_tree, find_existing. rewrite G.
  destruct d as [|kv d]; [reflexivity|]. cbn [bind].
  now destruct (get_default (kv :: d) "schema" VNone).
Qed.

(** X28. Whenever [save_tree] of the tool layer returns, it returns the
    metadata and writes the store that [save_tree] of the storage layer
    gives for the arguments as passed: neither the validation nor the
    look-up of the stored schema changes what is saved. *)
Theorem tools_save_tree_returns validate_data validate_schema
  e is_dir data cf lf tid validate schema store r :
  tools.save_tree validate_data validate_schema
    e is_dir data cf lf tid validate schema store = Ok r ->
  save_tree e is_dir data cf lf tid schema store = Ok r.
Proof.
  unfold tools.save_tree. intros H.
  assert (Hv : forall s,
    bind (if validate
          then bind (validate_data data cf lf)
                 (fun _ => validate_schema data cf s)
          else Ok tt)
      (fun _ => save_tree e is_dir data cf lf tid s store) = Ok r ->
    save_tree e is_dir data cf lf tid s store = Ok r).
  { intros s Hs. destruct validate; [|exact Hs].
    destruct (validate_data data cf lf) as [[]|]; [|discriminate].
    simpl in Hs. destruct (validate_schema data cf s) as [[]|];
      [exact Hs | discriminate]. }
  destruct tid as [t|]; [|now apply Hv].
  destruct (negb (t =? "") && is_none schema) eqn:C; [|now apply Hv].
  apply andb_true_iff in C. destruct C as [_ C].
  destruct schema; try discriminate. clear C.
  unfold get_tree, load_entry in H.
  destruct (dict_get store t) as [v|] eqn:G.
  - destruct v as [| b | z | s | l | d].
    1-5: destruct is_dir; cbv beta iota delta [bind] in H;
      try discriminate;
      match type of H with
      | context [truthy ?x] =>
          destruct (truthy x); cbv beta iota in H; try discriminate
      end; now apply Hv.
    assert (Hin : forall h, _with_meta d = Ok h ->
              get_default h "schema" VNone = get_default d "schema" VNone).
    { intros h Hh. unfold get_default.
      now rewrite (with_meta_frame d h "schema" Hh) by discriminate. }
    destruct is_dir.
    + simpl in H. destruct (_with_meta d) as [h|err] eqn:W; simpl in H.
      * apply Hv in H. rewrite (Hin h eq_refl) in H.
        now rewrite (save_tree_inherits _ _ _ _ _ _ _ _ G) in H.
      * destruct err; simpl in H; try discriminate. now apply Hv.
    + destruct d as [|kv d]; simpl in H; [now apply Hv|].
      destruct (_with_meta (kv :: d)) as [h|err] eqn:W; simpl in H.
      * apply Hv in H. rewrite (Hin h eq_refl) in H.
        now rewrite (save_tree_inherits _ _ _ _ _ _ _ _ G) in H.
      * destruct err; simpl in H; try discriminate. now apply Hv.
  - simpl in H. now apply Hv.
Qed.

Lemma tools_save_tree_returns_witness :
  exists r,
    tools.save_tree (fun _ _ _ => Ok tt) (fun _ _ _ => Ok tt)
      {| utc_now := "now"; uuid4 := "u" |} false
      (VDict [("title", VStr "root")]) "sections" (Some "title")
      (Some "t1") true VNone
      [("t1", VDict [("tree_id", VStr "t1");
                     ("schema", VDict [("type", VStr "object")])])]
    = Ok r /\
    save_tree {| utc_now := "now"; uuid4 := "u" |} false
      (VDict [("title", VStr "root")]) "sections" (Some "title")
      (Some "t1") VNone
      [("t1", VDict [("tree_id", VStr "t1");
                     ("schema", VDict [("type", VStr "object")])])]
    = Ok r /\
    dict_get (fst r) "schema" = Some (VDict [("type", VStr "object")]).
Proof.
  eexists. split; [reflexivity|]. split; [|reflexivity].
  apply (tools_save_tree_returns (fun _ _ _ => Ok tt) (fun _ _ _ => Ok tt)
           {| utc_now := "now"; uuid4 := "u" |} false
           (VDict [("title", VStr "root")]) "sections" (Some "title")
           (Some "t1") true VNone
           [("t1", VDict [("tree_id", VStr "t1");
                          ("schema", VDict [("type", VStr "object")])])]).
  reflexivity.
Defined.
